(** * Online feature retrieval of [feast.feature_store.FeatureStore]

    A shallow embedding of the Python code path behind
    [FeatureStore._get_online_features] (sdk/python/feast/feature_store.py)
    and of the module-level helpers it calls, followed by the properties
    the retrieval engine is specified to have. The conversions of row-wise
    entity values, the validation of feature view names and [materialize]
    are embedded as well; further properties of the engine and of these
    methods close the development.

    Conventions of the embedding:
    - a Python [dict] is an insertion-ordered association list with unique
      keys ([dict_set] overwrites in place or appends), because the order of
      [dict.items()] decides the order of the response columns;
    - a Python [set] of strings is a [gset string]; the mapping a backend
      returns for one key is a [gmap string Value];
    - a raised exception is the left summand of [Result];
    - protobuf messages whose declarations live outside this module
      ([Value], and the [datetime] a backend reports) are parameters of
      the development. *)

From Stdlib Require Import ZArith String Ascii.
From stdpp Require Import base decidable option list sorting gmap strings.

Local Open Scope string_scope.
Local Open Scope list_scope.

(** ** Exceptions and the error monad *)

Inductive Exception : Type :=
| ValueError (msg : string)
| KeyError (key : string)
| IndexError
| TypeError
| FeatureNameCollisionError (refs : list string) (full_feature_names : bool)
| FeatureViewNotFoundException (name : string)
| EntityNotFoundException (name : string)
| RequestDataNotFoundInEntityRowsException (feature_names : list string).

Abbreviation Result := (sum Exception).

Definition raise {A : Type} (e : Exception) : Result A := inl e.

Definition bind {A B : Type} (m : Result A) (k : A → Result B) : Result B :=
  match m with
  | inl e => inl e
  | inr a => k a
  end.

Notation "'do' x <- m ; k" := (bind m (fun x => k))
  (at level 10, x name, m at level 100, k at level 200).
Notation "'do' ' p <- m ; k" := (bind m (fun x => match x with p => k end))
  (at level 10, p pattern, m at level 100, k at level 200).

(** [[f(x) for x in l]] where [f] may raise. *)
Fixpoint mapM {A B : Type} (f : A → Result B) (l : list A) : Result (list B) :=
  match l with
  | [] => inr []
  | x :: l' => do y <- f x; do ys <- mapM f l'; inr (y :: ys)
  end.

(** A loop [for x in l: state = body(state, x)] whose body may raise. *)
Fixpoint foldM {A S : Type} (body : S → A → Result S) (s : S) (l : list A)
  : Result S :=
  match l with
  | [] => inr s
  | x :: l' => do s' <- body s x; foldM body s' l'
  end.

(** ** Insertion-ordered dictionaries *)

Section Dict.
Context {K V : Type} `{!EqDecision K}.

Definition dict : Type := list (K * V).

Fixpoint dict_get (k : K) (d : dict) : option V :=
  match d with
  | [] => None
  | (k', v) :: d' => if decide (k = k') then Some v else dict_get k d'
  end.

(** [d[k] = v]: the value is replaced where the key already is, a new
    key goes last. *)
Fixpoint dict_set (k : K) (v : V) (d : dict) : dict :=
  match d with
  | [] => [(k, v)]
  | (k', v') :: d' =>
      if decide (k = k') then (k', v) :: d' else (k', v') :: dict_set k v d'
  end.

Definition dict_keys (d : dict) : list K := d.*1.
Definition dict_values (d : dict) : list V := d.*2.

(** [dict(pairs)] and dictionary comprehensions: later pairs win. *)
Definition dict_of_list (pairs : list (K * V)) : dict :=
  foldl (λ d kv, dict_set kv.1 kv.2 d) [] pairs.

(** [d.get(k, default)]. *)
Definition dict_get_default (k : K) (dflt : V) (d : dict) : V :=
  default dflt (dict_get k d).
End Dict.

Arguments dict : clear implicits.

(** ** String methods used by the module *)

(** [s.split(sep)] for a one-character separator. *)
Fixpoint split (sep : ascii) (s : string) : list string :=
  match s with
  | EmptyString => [""]
  | String c s' =>
      if decide (c = sep) then "" :: split sep s'
      else match split sep s' with
           | [] => [String c ""]
           | w :: ws => String c w :: ws
           end
  end.

(** [s.replace(old, new)] for a one-character [old]. *)
Fixpoint replace (old : ascii) (new : string) (s : string) : string :=
  match s with
  | EmptyString => ""
  | String c s' =>
      if decide (c = old) then new +:+ replace old new s'
      else String c (replace old new s')
  end.

(** [s.startswith(t)] and [s.endswith(t)]. *)
Definition startswith (s t : string) : bool := String.prefix t s.

Fixpoint endswith (s t : string) : bool :=
  bool_decide (s = t) ||
  match s with
  | EmptyString => false
  | String _ s' => endswith s' t
  end.

(** The text after the last occurrence of [sep] in [s], if [sep] occurs. *)
Fixpoint after_last (sep : string) (s : string) : option string :=
  match s with
  | EmptyString => None
  | String _ s' =>
      match after_last sep s' with
      | Some t => Some t
      | None =>
          if startswith s sep
          then Some (String.substring (String.length sep)
                       (String.length s - String.length sep) s)
          else None
      end
  end.

(** [s.rpartition(sep)[-1]]: the whole of [s] when [sep] does not occur. *)
Definition rpartition_last (sep : string) (s : string) : string :=
  default s (after_last sep s).

(** [view_name, feat_name = ref.split(":")]: unpacking needs exactly two
    parts. *)
Definition split_ref (ref : string) : Result (string * string) :=
  match split ":" ref with
  | [view_name; feat_name] => inr (view_name, feat_name)
  | _ => raise (ValueError "unpack")
  end.

(** ** [collections.Counter] *)

Section Counter.
Context {A : Type} `{!EqDecision A}.

Fixpoint counter_incr (x : A) (c : list (A * nat)) : list (A * nat) :=
  match c with
  | [] => [(x, 1)]
  | (y, n) :: c' =>
      if decide (x = y) then (y, S n) :: c' else (y, n) :: counter_incr x c'
  end.

(** [Counter(l).items()]: elements in order of first occurrence, each
    with its number of occurrences. *)
Definition Counter (l : list A) : list (A * nat) :=
  foldl (λ c x, counter_incr x c) [] l.
End Counter.

(** ** Module-level validators *)

(** [_validate_entity_values]: the common length of the columns.
    [set.pop()] on the empty set raises [KeyError]. *)
Definition _validate_entity_values {V : Type}
    (join_key_values : dict string (list V)) : Result nat :=
  let set_of_row_lengths : gset nat :=
    list_to_set (length <$> dict_values join_key_values) in
  if decide (1 < size set_of_row_lengths)
  then raise (ValueError "All entity rows must have the same columns.")
  else match elements set_of_row_lengths with
       | [] => raise (KeyError "pop from an empty set")
       | n :: _ => inr n
       end.

(** The list [collided_feature_refs] that [_validate_feature_refs] builds.
    [ref.split(":")[1]] raises [IndexError] on a reference without a
    colon. *)
Definition collided_feature_refs (feature_refs : list string)
    (full_feature_names : bool) : Result (list string) :=
  if full_feature_names then
    inr (omap (λ '(ref, occurrences),
                 if decide (1 < occurrences) then Some ref else None)
           (Counter feature_refs))
  else
    do feature_names <-
      mapM (λ ref, match split ":" ref !! 1 with
                   | Some n => inr n
                   | None => raise IndexError
                   end) feature_refs;
    let collided_feature_names :=
      omap (λ '(ref, occurrences),
              if decide (1 < occurrences) then Some ref else None)
        (Counter feature_names) in
    inr (concat ((λ feature_name,
                    filter (λ ref, endswith ref (":" +:+ feature_name) = true)
                      feature_refs) <$> collided_feature_names)).

Definition _validate_feature_refs (feature_refs : list string)
    (full_feature_names : bool) : Result unit :=
  do collided <- collided_feature_refs feature_refs full_feature_names;
  if decide (0 < length collided)
  then raise (FeatureNameCollisionError collided full_feature_names)
  else inr tt.

(** [apply_list_mapping]: the scatter of one value per unique key over the
    rows listed for that key. [output[idx] = elem] raises [IndexError]
    past the end of [output]; row indexes are never negative. *)
Section ApplyListMapping.
Context {A : Type}.

Definition setitem (output : list (option A)) (idx : nat) (elem : A)
  : Result (list (option A)) :=
  if decide (idx < length output) then inr (<[idx := Some elem]> output)
  else raise IndexError.

Definition apply_list_mapping (lst : list A)
    (mapping_indexes : list (list nat)) : Result (list (option A)) :=
  let output_len := sum_list (length <$> mapping_indexes) in
  let output := replicate output_len None in
  foldM (λ output '(elem, destinations),
           foldM (λ output idx, setitem output idx elem) output destinations)
    output (zip lst mapping_indexes).
End ApplyListMapping.

(** ** Built-ins: [zip( *rows)], [enumerate], [itertools.groupby] *)

(** [zip( *rows)]: the columns of [rows], as many as the shortest row has;
    none when there is no row. *)
Fixpoint zip_star {A : Type} (rows : list (list A)) : list (list A) :=
  match rows with
  | [] => []
  | r :: rs =>
      match rs with
      | [] => (λ x, [x]) <$> r
      | _ :: _ => zip_with cons r (zip_star rs)
      end
  end.

Definition enumerate {A : Type} (l : list A) : list (nat * A) :=
  zip (seq 0 (length l)) l.

(** [itertools.groupby(l, key)]: maximal runs of consecutive elements
    with equal keys, each with the key of the run. *)
Fixpoint groupby {A K : Type} `{!EqDecision K} (key : A → K) (l : list A)
  : list (K * list A) :=
  match l with
  | [] => []
  | x :: l' =>
      match groupby key l' with
      | (k, g) :: rest =>
          if decide (key x = k) then (k, x :: g) :: rest
          else (key x, [x]) :: (k, g) :: rest
      | [] => [(key x, [x])]
      end
  end.

(** ** Protobuf messages *)

(** [google.protobuf.Timestamp]; [Timestamp()] is the zero timestamp. *)
Record Timestamp : Type := { seconds : Z; nanos : Z }.

Definition Timestamp_new : Timestamp := {| seconds := 0; nanos := 0 |}.

(** The two [FieldStatus] values this module writes. *)
Inductive FieldStatus : Type := PRESENT | NOT_FOUND.

#[global] Instance Timestamp_eq_dec : EqDecision Timestamp.
Proof. solve_decision. Defined.

#[global] Instance FieldStatus_eq_dec : EqDecision FieldStatus.
Proof. solve_decision. Defined.

(** ** Registry objects *)

(** A feature view projection; [name_to_use] is the result of
    [projection.name_to_use()], [features] the names of its fields. *)
Record FeatureViewProjection : Type := {
  name : string;
  name_to_use : string;
  features : list string;
  join_key_map : dict string string;
}.

Record FeatureView : Type := {
  entities : list string;
  projection : FeatureViewProjection;
}.

Record RequestFeatureView : Type := {
  request_projection : FeatureViewProjection;
  request_features : list string;
}.

Record FeatureService : Type := {
  service_name : string;
  feature_view_projections : list FeatureViewProjection;
}.

(** The [features] argument: a list of references or a feature service. *)
Inductive Features : Type :=
| FeatureList (refs : list string)
| FeatureServiceObj (service : FeatureService).

Record EntityKeyProto {Value : Type} : Type := {
  join_keys : list string;
  entity_values : list Value;
}.
Arguments EntityKeyProto : clear implicits.

Record FeatureVector {Value : Type} : Type := {
  values : list Value;
  statuses : list FieldStatus;
  event_timestamps : list Timestamp;
}.
Arguments FeatureVector : clear implicits.

(** [GetOnlineFeaturesResponse]: [feature_names] is
    [metadata.feature_names.val]. *)
Record GetOnlineFeaturesResponse {Value : Type} : Type := {
  feature_names : list string;
  results : list (FeatureVector Value);
}.
Arguments GetOnlineFeaturesResponse : clear implicits.

(** An on demand feature view. [request_data_schema] holds the keys of
    [get_request_data_schema()]; [get_transformed_features] is the view's
    transformation as this module uses it: from the response built so far
    (read through [OnlineResponse.to_df]) to the output columns, already
    converted by [python_values_to_proto_values]. *)
Record OnDemandFeatureView {Value : Type} : Type := {
  odfv_name : string;
  odfv_projection : FeatureViewProjection;
  source_feature_view_projections : dict string FeatureViewProjection;
  request_data_schema : list string;
  get_transformed_features :
    GetOnlineFeaturesResponse Value → bool → dict string (list Value);
}.
Arguments OnDemandFeatureView : clear implicits.

(** ** The methods of [FeatureStore] on the online read path *)

Section FeatureStore.
Context {Value : Type} `{!EqDecision Value}.
(** [Value()], the message with no field set. *)
Context (Value_new : Value).
(** The [datetime] a backend reports and [Timestamp.FromDatetime]. *)
Context {datetime : Type} (FromDatetime : datetime → Timestamp).
(** Python's [<] on the sort keys of [_get_unique_entities], the tuples
    of native values [getattr(x, x.WhichOneof("val"))] of two rows; batches
    whose keys Python cannot compare (the sort raises) are not modelled. *)
Context (sort_key_lt : list Value → list Value → bool).
(** The constants of [feast.feature_view]; [DUMMY_ENTITY_VAL] is taken
    in its protobuf form. *)
Context (DUMMY_ENTITY_NAME DUMMY_ENTITY_ID : string) (DUMMY_ENTITY_VAL : Value).
(** [FeatureViewProjection.get_feature], called for validation only. *)
Context (get_feature : FeatureViewProjection → string → Result unit).

Local Abbreviation Response := (GetOnlineFeaturesResponse Value).
Local Abbreviation Vector := (FeatureVector Value).
Local Abbreviation ODFV := (OnDemandFeatureView Value).

(** What one [provider.online_read] call returns for one entity key. *)
Definition ReadRow : Type := option datetime * option (gmap string Value).

(** The arguments of one [provider.online_read] call. *)
Definition ReadCall : Type :=
  FeatureView * list (EntityKeyProto Value) * list string.

(** The collaborators reached through [self]: the registry reads, as the
    results they give for this request, and the provider's backend. *)
Record FeatureStore : Type := {
  get_feature_service : string → Result FeatureService;
  _get_feature_views_to_use :
    Features →
    Result (list FeatureView * list RequestFeatureView * list ODFV);
  _get_entity_maps :
    list FeatureView → Result (dict string string * gset string);
  online_read : ReadCall → Result (list ReadRow);
}.

Definition _get_features (self : FeatureStore) (_features : Features)
  : Result (list string) :=
  let falsy := match _features with FeatureList [] => true | _ => false end in
  if falsy then raise (ValueError "No features specified for retrieval")
  else match _features with
       | FeatureServiceObj service =>
           do feature_service_from_registry <-
             get_feature_service self (service_name service);
           inr (concat ((λ projection,
                           (λ f, name_to_use projection +:+ ":" +:+ f)
                             <$> features projection)
                          <$> feature_view_projections
                                feature_service_from_registry))
       | FeatureList refs => inr refs
       end.

Definition _get_table_entity_values (table : FeatureView)
    (entity_name_to_join_key_map : dict string string)
    (join_key_proto_values : dict string (list Value))
  : Result (dict string (list Value)) :=
  do table_join_keys <-
    mapM (λ entity_name,
            match dict_get entity_name entity_name_to_join_key_map with
            | Some k => inr k
            | None => raise (KeyError entity_name)
            end) (entities table);
  let alias_to_join_key_map : dict string string :=
    dict_of_list ((λ '(k, v), (v, k)) <$> join_key_map (projection table)) in
  inr (dict_of_list
         (omap (λ '(k, v),
                  let k' := dict_get_default k k alias_to_join_key_map in
                  if bool_decide (k' ∈ table_join_keys) then Some (k', v)
                  else None)
            join_key_proto_values)).

(** The one echo column [_populate_result_rows_from_columnar] appends. *)
Definition echo_vector (timestamp : Timestamp) (feature_values : list Value)
  : Vector :=
  {| values := feature_values;
     statuses := replicate (length feature_values) PRESENT;
     event_timestamps := replicate (length feature_values) timestamp |}.

Definition _populate_result_rows_from_columnar
    (online_features_response : Response) (data : dict string (list Value))
  : Response :=
  let timestamp := Timestamp_new in
  foldl (λ resp '(feature_name, feature_values),
           {| feature_names := feature_names resp ++ [feature_name];
              results := results resp ++ [echo_vector timestamp feature_values] |})
    online_features_response data.

Definition get_needed_request_data
    (grouped_odfv_refs : list (ODFV * list string))
    (grouped_request_fv_refs : list (RequestFeatureView * list string))
  : gset string * gset string :=
  let needed_request_data : gset string :=
    foldl (λ s '(odfv, _), s ∪ list_to_set (request_data_schema odfv))
      ∅ grouped_odfv_refs in
  let needed_request_fv_features : gset string :=
    foldl (λ s '(request_fv, _), s ∪ list_to_set (request_features request_fv))
      ∅ grouped_request_fv_refs in
  (needed_request_data, needed_request_fv_features).

Definition ensure_request_data_values_exist
    (needed_request_data needed_request_fv_features : gset string)
    (request_data_features : dict string (list Value)) : Result unit :=
  if decide (size needed_request_data + size needed_request_fv_features
             ≠ length (dict_keys request_data_features))
  then
    let missing_features :=
      filter (λ x, x ∉ dict_keys request_data_features)
        (elements needed_request_data ++ elements needed_request_fv_features) in
    raise (RequestDataNotFoundInEntityRowsException missing_features)
  else inr tt.

(** [rowise.sort(key=...)]: a stable merge sort that places [r1] before
    [r2] unless the key of [r2] is less than the key of [r1]. *)
Definition sort_key_le (r1 r2 : nat * list Value) : Prop :=
  sort_key_lt r2.2 r1.2 = false.

#[global] Instance sort_key_le_dec : RelDecision sort_key_le.
Proof. intros r1 r2. unfold sort_key_le. apply _. Defined.

Definition sort_rowise (rowise : list (nat * list Value))
  : list (nat * list Value) :=
  merge_sort sort_key_le rowise.

Definition _get_unique_entities (table : FeatureView)
    (join_key_values : dict string (list Value))
    (entity_name_to_join_key_map : dict string string)
  : Result (list (dict string Value) * list (list nat)) :=
  do table_entity_values <-
    _get_table_entity_values table entity_name_to_join_key_map join_key_values;
  let keys := dict_keys table_entity_values in
  let rowise := enumerate (zip_star (dict_values table_entity_values)) in
  let rowise := sort_rowise rowise in
  let pairs : list (dict string Value * list nat) :=
    (λ '(k, g), (dict_of_list (zip keys k), g.*1)) <$> groupby snd rowise in
  match pairs with
  | [] => raise (ValueError "not enough values to unpack (expected 2, got 0)")
  | _ :: _ => inr (pairs.*1, pairs.*2)
  end.

(** The body of the loop over [read_rows] in [_read_from_online_store]:
    the timestamps, statuses and values of one entity key, in the order of
    [requested_features]. *)
Definition read_row_proto (requested_features : list string)
    (read_row : ReadRow)
  : list Timestamp * list FieldStatus * list Value :=
  let null_value := Value_new in
  let '(row_ts, feature_data) := read_row in
  let row_ts_proto :=
    match row_ts with
    | Some ts => FromDatetime ts
    | None => Timestamp_new
    end in
  let event_timestamps := replicate (length requested_features) row_ts_proto in
  match feature_data with
  | None =>
      (event_timestamps,
       replicate (length requested_features) NOT_FOUND,
       replicate (length requested_features) null_value)
  | Some feature_data =>
      (event_timestamps,
       (λ feature_name,
          match feature_data !! feature_name with
          | None => NOT_FOUND
          | Some _ => PRESENT
          end) <$> requested_features,
       (λ feature_name,
          match feature_data !! feature_name with
          | None => null_value
          | Some v => v
          end) <$> requested_features)
  end.

Definition entity_key_protos_of (entity_rows : list (dict string Value))
  : list (EntityKeyProto Value) :=
  (λ row, {| join_keys := dict_keys row; entity_values := dict_values row |})
    <$> entity_rows.

Definition _read_from_online_store (self : FeatureStore)
    (entity_rows : list (dict string Value))
    (requested_features : list string) (table : FeatureView)
  : Result (list (list Timestamp * list FieldStatus * list Value)) :=
  let entity_key_protos := entity_key_protos_of entity_rows in
  do read_rows <-
    online_read self (table, entity_key_protos, requested_features);
  inr (read_row_proto requested_features <$> read_rows).

(** Building a repeated protobuf field refuses [None] elements. *)
Definition repeated {A : Type} (l : list (option A)) : Result (list A) :=
  mapM (λ o, match o with Some x => inr x | None => raise TypeError end) l.

(** The body of the loop in [_populate_response_from_feature_data]: the
    vector of one feature, scattered over the rows. *)
Definition scatter_vector (timestamp_vector : list Timestamp)
    (statuses_vector : list FieldStatus) (values_vector : list Value)
    (indexes : list (list nat)) : Result Vector :=
  do vs <- apply_list_mapping values_vector indexes;
  do ss <- apply_list_mapping statuses_vector indexes;
  do ts <- apply_list_mapping timestamp_vector indexes;
  do vs <- repeated vs;
  do ss <- repeated ss;
  do ts <- repeated ts;
  inr {| values := vs; statuses := ss; event_timestamps := ts |}.

Definition _populate_response_from_feature_data
    (feature_data : list (list Timestamp * list FieldStatus * list Value))
    (indexes : list (list nat)) (online_features_response : Response)
    (full_feature_names : bool) (requested_features : list string)
    (table : FeatureView) : Result Response :=
  let requested_feature_refs :=
    (λ feature_name,
       if full_feature_names
       then name_to_use (projection table) +:+ "__" +:+ feature_name
       else feature_name) <$> requested_features in
  do '(timestamps, statuses, values) <-
    match feature_data with
    | [] => raise (ValueError "not enough values to unpack (expected 3, got 0)")
    | _ :: _ =>
        inr ((λ d, d.1.1) <$> feature_data,
             (λ d, d.1.2) <$> feature_data,
             (λ d, d.2) <$> feature_data)
    end;
  do vectors <-
    mapM (λ '(timestamp_vector, statuses_vector, values_vector),
            scatter_vector timestamp_vector statuses_vector values_vector
              indexes)
      (zip (zip (zip_star timestamps) (zip_star statuses)) (zip_star values));
  inr {| feature_names :=
           feature_names online_features_response ++ requested_feature_refs;
         results := results online_features_response ++ vectors |}.

(** The vector [_augment_response_with_on_demand_transforms] appends
    for one selected output column. *)
Definition odfv_vector (proto_values : list Value) : Vector :=
  {| values := proto_values;
     statuses := replicate (length proto_values) PRESENT;
     event_timestamps := replicate (length proto_values) Timestamp_new |}.

Definition _augment_response_with_on_demand_transforms
    (online_features_response : Response) (feature_refs : list string)
    (requested_on_demand_feature_views : list ODFV)
    (full_feature_names : bool) : Result Response :=
  let requested_odfv_map : dict string ODFV :=
    dict_of_list ((λ odfv, (odfv_name odfv, odfv))
                    <$> requested_on_demand_feature_views) in
  do odfv_feature_refs <-
    foldM (λ (odfv_feature_refs : dict string (list string)) feature_ref,
             do '(view_name, feature_name) <- split_ref feature_ref;
             match dict_get view_name requested_odfv_map with
             | Some odfv =>
                 let out_name :=
                   if full_feature_names
                   then name_to_use (odfv_projection odfv) +:+ "__" +:+ feature_name
                   else feature_name in
                 inr (dict_set view_name
                        (dict_get_default view_name [] odfv_feature_refs
                           ++ [out_name])
                        odfv_feature_refs)
             | None => inr odfv_feature_refs
             end)
      [] feature_refs;
  let initial_response := online_features_response in
  foldM (λ (resp : Response) '(odfv_name, _feature_refs),
           match dict_get odfv_name requested_odfv_map with
           | None => raise (KeyError odfv_name)
           | Some odfv =>
               let transformed_features :=
                 get_transformed_features odfv initial_response
                   full_feature_names in
               let selected :=
                 filter (λ col, col.1 ∈ (_feature_refs : list string))
                   transformed_features in
               let selected_subset := selected.*1 in
               let proto_values := selected.*2 in
               inr {| feature_names := feature_names resp ++ selected_subset;
                      results := results resp ++ (odfv_vector <$> proto_values) |}
           end)
    online_features_response odfv_feature_refs.

(** [del l[idx]] on both parallel lists; out of range raises. *)
Definition _drop_unneeded_columns (online_features_response : Response)
    (requested_result_row_names : gset string) : Result Response :=
  let unneeded_feature_indices :=
    omap (λ '(idx, val),
            if decide (val ∉ requested_result_row_names) then Some idx else None)
      (enumerate (feature_names online_features_response)) in
  foldM (λ (resp : Response) idx,
           if decide (idx < length (feature_names resp)
                      ∧ idx < length (results resp))
           then inr {| feature_names := delete idx (feature_names resp);
                       results := delete idx (results resp) |}
           else raise IndexError)
    online_features_response (reverse unneeded_feature_indices).

(** [d[k].add(x)] on a [defaultdict(set)]. *)
Definition defaultdict_add (k x : string) (d : dict string (gset string))
  : dict string (gset string) :=
  dict_set k (dict_get_default k ∅ d ∪ {[x]}) d.

(** The four collections the loop of [_group_feature_refs] fills. *)
Record GroupState : Type := {
  views_features : dict string (gset string);
  request_views_features : dict string (gset string);
  request_view_refs : gset string;
  on_demand_view_features : dict string (gset string);
}.

(** The body of the loop over [features] in [_group_feature_refs]. *)
Definition group_feature_ref
    (view_index : dict string FeatureView)
    (request_view_index : dict string RequestFeatureView)
    (on_demand_view_index : dict string ODFV)
    (st : GroupState) (ref : string) : Result GroupState :=
  do '(view_name, feat_name) <- split_ref ref;
  match dict_get view_name view_index with
  | Some view =>
      do _ <- get_feature (projection view) feat_name;
      inr {| views_features := defaultdict_add view_name feat_name (views_features st);
             request_views_features := request_views_features st;
             request_view_refs := request_view_refs st;
             on_demand_view_features := on_demand_view_features st |}
  | None =>
      match dict_get view_name on_demand_view_index with
      | Some odfv =>
          do _ <- get_feature (odfv_projection odfv) feat_name;
          let views_features' :=
            foldl (λ vf input_fv_projection,
                     foldl (λ vf input_feat,
                              defaultdict_add (name input_fv_projection) input_feat vf)
                       vf (features input_fv_projection))
              (views_features st)
              (dict_values (source_feature_view_projections odfv)) in
          inr {| views_features := views_features';
                 request_views_features := request_views_features st;
                 request_view_refs := request_view_refs st;
                 on_demand_view_features :=
                   defaultdict_add view_name feat_name (on_demand_view_features st) |}
      | None =>
          match dict_get view_name request_view_index with
          | Some request_view =>
              do _ <- get_feature (request_projection request_view) feat_name;
              inr {| views_features := views_features st;
                     request_views_features :=
                       defaultdict_add view_name feat_name (request_views_features st);
                     request_view_refs := request_view_refs st ∪ {[ref]};
                     on_demand_view_features := on_demand_view_features st |}
          | None => raise (FeatureViewNotFoundException view_name)
          end
      end
  end.

(** [[(index[view_name], list(feature_names)) for ... in d.items()]]. *)
Definition grouped_result {View : Type} (index : dict string View)
    (d : dict string (gset string)) : Result (list (View * list string)) :=
  mapM (λ '(view_name, feature_names),
          match dict_get view_name index with
          | Some view => inr (view, elements (feature_names : gset string))
          | None => raise (KeyError view_name)
          end) d.

Definition _group_feature_refs (features : list string)
    (all_feature_views : list FeatureView)
    (all_request_feature_views : list RequestFeatureView)
    (all_on_demand_feature_views : list ODFV)
  : Result (list (FeatureView * list string) * list (ODFV * list string)
            * list (RequestFeatureView * list string) * gset string) :=
  let view_index : dict string FeatureView :=
    dict_of_list ((λ view, (name_to_use (projection view), view))
                    <$> all_feature_views) in
  let request_view_index : dict string RequestFeatureView :=
    dict_of_list ((λ view, (name_to_use (request_projection view), view))
                    <$> all_request_feature_views) in
  let on_demand_view_index : dict string ODFV :=
    dict_of_list ((λ view, (name_to_use (odfv_projection view), view))
                    <$> all_on_demand_feature_views) in
  do st <-
    foldM (group_feature_ref view_index request_view_index on_demand_view_index)
      {| views_features := []; request_views_features := [];
         request_view_refs := ∅; on_demand_view_features := [] |}
      features;
  do fvs_result <- grouped_result view_index (views_features st);
  do request_fvs_result <-
    grouped_result request_view_index (request_views_features st);
  do odfvs_result <-
    grouped_result on_demand_view_index (on_demand_view_features st);
  inr (fvs_result, odfvs_result, request_fvs_result, request_view_refs st).

(** [dict( **a, **b)]: a repeated keyword raises [TypeError]. *)
Definition dict_kwargs {V : Type} (a b : dict string V)
  : Result (dict string V) :=
  if decide (Exists (λ k, k ∈ dict_keys a) (dict_keys b))
  then raise TypeError else inr (a ++ b).

(** The names [_get_online_features] first asks for: the references
    with [":"] replaced, cut to the text after the last ["__"] when the
    output names are not qualified. *)
Definition requested_names_of (_feature_refs : list string)
    (full_feature_names : bool) : gset string :=
  let requested_result_row_names : gset string :=
    list_to_set (replace ":" "__" <$> _feature_refs) in
  if full_feature_names then requested_result_row_names
  else list_to_set (rpartition_last "__" <$> elements requested_result_row_names).

(** The body of the loop over [entity_proto_values.items()]: a column is
    request data or the values of a join key. *)
Definition classify_column
    (needed_request_data needed_request_fv_features join_keys_set : gset string)
    (entity_name_to_join_key_map : dict string string)
    (st : gset string * dict string (list Value) * dict string (list Value))
    (column : string * list Value)
  : Result (gset string * dict string (list Value) * dict string (list Value)) :=
  let '(requested_result_row_names, join_key_values, request_data_features) := st in
  let '(join_key_or_entity_name, values) := column in
  if decide (join_key_or_entity_name ∈ needed_request_data
             ∨ join_key_or_entity_name ∈ needed_request_fv_features)
  then
    let requested_result_row_names :=
      if decide (join_key_or_entity_name ∈ needed_request_fv_features)
      then requested_result_row_names ∪ {[join_key_or_entity_name]}
      else requested_result_row_names in
    inr (requested_result_row_names, join_key_values,
         dict_set join_key_or_entity_name values request_data_features)
  else
    do join_key <-
      (if decide (join_key_or_entity_name ∈ join_keys_set)
       then inr join_key_or_entity_name
       else match dict_get join_key_or_entity_name entity_name_to_join_key_map with
            | Some join_key => inr join_key
            | None => raise (EntityNotFoundException join_key_or_entity_name)
            end);
    inr (requested_result_row_names ∪ {[join_key]},
         dict_set join_key values join_key_values,
         request_data_features).

(** What [_get_online_features] has established when it reaches the loop
    over the tables. *)
Record Prepared : Type := {
  num_rows : nat;
  _feature_refs : list string;
  grouped_refs : list (FeatureView * list string);
  grouped_odfv_refs : list (ODFV * list string);
  requested_on_demand_feature_views : list ODFV;
  requested_result_row_names : gset string;
  join_key_values : dict string (list Value);
  entity_name_to_join_key_map : dict string string;
  online_features_response : Response;
}.

(** [_get_online_features] up to the loop over the tables (the Python
    path; entity values are given as protobuf values). No statement of
    this part calls the provider. *)
Definition prepare (self : FeatureStore) (features : Features)
    (entity_values : dict string (list Value)) (full_feature_names : bool)
  : Result Prepared :=
  let entity_value_lists := entity_values in
  do _feature_refs <- _get_features self features;
  do '(requested_feature_views, requested_request_feature_views,
       requested_on_demand_feature_views) <-
    _get_feature_views_to_use self features;
  do '(entity_name_to_join_key_map, join_keys_set) <-
    _get_entity_maps self requested_feature_views;
  let entity_proto_values := entity_value_lists in
  do num_rows <- _validate_entity_values entity_proto_values;
  do _ <- _validate_feature_refs _feature_refs full_feature_names;
  do '(grouped_refs, grouped_odfv_refs, grouped_request_fv_refs, _) <-
    _group_feature_refs _feature_refs requested_feature_views
      requested_request_feature_views requested_on_demand_feature_views;
  let requested_result_row_names :=
    requested_names_of _feature_refs full_feature_names in
  let feature_views := grouped_refs.*1 in
  let '(needed_request_data, needed_request_fv_features) :=
    get_needed_request_data grouped_odfv_refs grouped_request_fv_refs in
  do '(requested_result_row_names, join_key_values, request_data_features) <-
    foldM (classify_column needed_request_data needed_request_fv_features
             join_keys_set entity_name_to_join_key_map)
      (requested_result_row_names, [], []) entity_proto_values;
  do _ <- ensure_request_data_values_exist needed_request_data
            needed_request_fv_features request_data_features;
  do data <- dict_kwargs join_key_values request_data_features;
  let online_features_response :=
    _populate_result_rows_from_columnar
      {| feature_names := []; results := [] |} data in
  let entityless_case :=
    bool_decide (DUMMY_ENTITY_NAME ∈ concat (entities <$> feature_views)) in
  let join_key_values :=
    if entityless_case
    then dict_set DUMMY_ENTITY_ID (replicate num_rows DUMMY_ENTITY_VAL)
           join_key_values
    else join_key_values in
  inr {| num_rows := num_rows;
         _feature_refs := _feature_refs;
         grouped_refs := grouped_refs;
         grouped_odfv_refs := grouped_odfv_refs;
         requested_on_demand_feature_views := requested_on_demand_feature_views;
         requested_result_row_names := requested_result_row_names;
         join_key_values := join_key_values;
         entity_name_to_join_key_map := entity_name_to_join_key_map;
         online_features_response := online_features_response |}.

(** The loop over [grouped_refs]: one provider call per table, recorded
    in [reads] when it is issued. *)
Fixpoint fetch_tables (self : FeatureStore)
    (grouped_refs : list (FeatureView * list string))
    (join_key_values : dict string (list Value))
    (entity_name_to_join_key_map : dict string string)
    (full_feature_names : bool)
    (online_features_response : Response) (reads : list ReadCall)
  : list ReadCall * Result Response :=
  match grouped_refs with
  | [] => (reads, inr online_features_response)
  | (table, requested_features) :: rest =>
      match _get_unique_entities table join_key_values
              entity_name_to_join_key_map with
      | inl e => (reads, inl e)
      | inr (table_entity_values, idxs) =>
          let reads :=
            reads ++ [(table, entity_key_protos_of table_entity_values,
                       requested_features)] in
          match
            (do feature_data <-
               _read_from_online_store self table_entity_values
                 requested_features table;
             _populate_response_from_feature_data feature_data idxs
               online_features_response full_feature_names
               requested_features table)
          with
          | inl e => (reads, inl e)
          | inr resp =>
              fetch_tables self rest join_key_values
                entity_name_to_join_key_map full_feature_names resp reads
          end
      end
  end.

(** [_get_online_features]: the provider calls made, in order, and the
    response or the exception raised. *)
Definition _get_online_features (self : FeatureStore) (features : Features)
    (entity_values : dict string (list Value)) (full_feature_names : bool)
  : list ReadCall * Result Response :=
  match prepare self features entity_values full_feature_names with
  | inl e => ([], inl e)
  | inr p =>
      let '(reads, fetched) :=
        fetch_tables self (grouped_refs p) (join_key_values p)
          (entity_name_to_join_key_map p) full_feature_names
          (online_features_response p) [] in
      (reads,
       do resp <- fetched;
       do resp <-
         (match grouped_odfv_refs p with
          | [] => inr resp
          | _ :: _ =>
              _augment_response_with_on_demand_transforms resp
                (_feature_refs p) (requested_on_demand_feature_views p)
                full_feature_names
          end);
       _drop_unneeded_columns resp (requested_result_row_names p))
  end.

End FeatureStore.

(** ** Notions the properties are stated with *)

(** The index lists [idxs] partition the rows [0 .. N-1]: put end to end
    they are a rearrangement of the row indexes, each taken once. *)
Definition partitions (idxs : list (list nat)) (N : nat) : Prop :=
  concat idxs ≡ₚ seq 0 N.

(** [unique] and [idxs] are a unique-key set of the batch whose rows have
    the composite keys [rows]: the keys are distinct, the index lists
    partition the rows, and every row listed for a key has that key. *)
Definition UniqueKeySet {K : Type} (rows unique : list K)
    (idxs : list (list nat)) : Prop :=
  NoDup unique ∧ partitions idxs (length rows)
  ∧ Forall2 (λ k L, Forall (λ r, rows !! r = Some k) L) unique idxs.

(** A feature vector of [N] rows: [N] values, statuses and timestamps. *)
Definition has_rows {Value : Type} (N : nat) (fv : FeatureVector Value) : Prop :=
  length (values fv) = N ∧ length (statuses fv) = N
  ∧ length (event_timestamps fv) = N.

(** A response of [N] rows: as many names as vectors, each of [N] rows. *)
Definition response_has_rows {Value : Type} (N : nat)
    (resp : GetOnlineFeaturesResponse Value) : Prop :=
  length (feature_names resp) = length (results resp)
  ∧ Forall (has_rows N) (results resp).

(** [x] collides in [l]: it stands at two different positions. *)
Definition collides {A : Type} (l : list A) (x : A) : Prop :=
  ∃ i j, i ≠ j ∧ l !! i = Some x ∧ l !! j = Some x.

(** The number of occurrences of [x] in [l]. *)
Fixpoint occ {A : Type} `{!EqDecision A} (x : A) (l : list A) : nat :=
  match l with
  | [] => 0
  | y :: l' => (if decide (x = y) then 1 else 0) + occ x l'
  end.

(** Whether the character [c] occurs in [s]. *)
Fixpoint mentions (c : ascii) (s : string) : bool :=
  match s with
  | EmptyString => false
  | String c' s' => bool_decide (c' = c) || mentions c s'
  end.

(** The reference string of a feature of a view, ["view:feature"]. *)
Definition reference (view_name feat_name : string) : string :=
  view_name +:+ ":" +:+ feat_name.

(** A well-formed reference: neither name holds a colon. *)
Definition well_formed (ref : string * string) : Prop :=
  mentions ":" ref.1 = false ∧ mentions ":" ref.2 = false.

Section KeyGroups.
Context {Value : Type} `{!EqDecision Value}.
Context (sort_key_lt : list Value → list Value → bool).

(** The composite join-key tuples of the rows of a table's columns. *)
Definition composite_keys (table_entity_values : dict string (list Value))
  : list (list Value) :=
  zip_star (dict_values table_entity_values).

(** The runs [_get_unique_entities] makes of the sorted rows. *)
Definition key_groups (table_entity_values : dict string (list Value))
  : list (list Value * list (nat * list Value)) :=
  groupby snd (sort_rowise sort_key_lt
                 (enumerate (composite_keys table_entity_values))).

End KeyGroups.

(** * A worked request

    A store with one standard feature view, [driver_stats] (entity
    [driver], join key [driver_id], feature [conv_rate]), and one on demand
    feature view, [conv_rate_pct], computed from [conv_rate]. The backend
    holds [conv_rate] for driver 1 only. *)

Module Example.
(** The fields of the protobuf [Value] that the worked request uses. *)
Inductive PValue : Type :=
| Null
| int64_val (z : Z)
| string_val (s : string).

#[global] Instance PValue_eq_dec : EqDecision PValue.
Proof. solve_decision. Defined.

(** Python's [<] on the native values, and on tuples of them. *)
Definition native_lt (a b : PValue) : bool :=
  match a, b with
  | int64_val x, int64_val y => bool_decide (x < y)%Z
  | string_val x, string_val y => String.ltb x y
  | _, _ => false
  end.

Fixpoint tuple_lt (a b : list PValue) : bool :=
  match a, b with
  | [], _ :: _ => true
  | x :: a', y :: b' => if decide (x = y) then tuple_lt a' b' else native_lt x y
  | _, _ => false
  end.

(** The lexicographic order on tuples of integers, the sort keys of a
    batch whose join keys are all integers. *)
Fixpoint lex_lt (a b : list Z) : bool :=
  match a, b with
  | [], _ :: _ => true
  | x :: a', y :: b' => if decide (x = y) then lex_lt a' b' else bool_decide (x < y)%Z
  | _, _ => false
  end.

Definition driver_stats_projection : FeatureViewProjection :=
  {| name := "driver_stats"; name_to_use := "driver_stats";
     features := ["conv_rate"]; join_key_map := [] |}.

Definition driver_stats : FeatureView :=
  {| entities := ["driver"]; projection := driver_stats_projection |}.

Definition conv_rate_pct_projection : FeatureViewProjection :=
  {| name := "conv_rate_pct"; name_to_use := "conv_rate_pct";
     features := ["conv_rate_pct"]; join_key_map := [] |}.

Definition times100 (v : PValue) : PValue :=
  match v with
  | int64_val z => int64_val (100 * z)
  | _ => Null
  end.

(** The column [column_name] of the data frame of a response, nulls when
    the response has no such column. *)
Definition column (column_name : string) (r : GetOnlineFeaturesResponse PValue)
  : list PValue :=
  match dict_get column_name (zip (feature_names r) (results r)) with
  | Some fv => values fv
  | None =>
      replicate (match results r with
                 | fv :: _ => length (values fv)
                 | [] => 0
                 end) Null
  end.

Definition conv_rate_pct : OnDemandFeatureView PValue :=
  {| odfv_name := "conv_rate_pct";
     odfv_projection := conv_rate_pct_projection;
     source_feature_view_projections := [("driver_stats", driver_stats_projection)];
     request_data_schema := [];
     get_transformed_features :=
       λ r _, [("conv_rate_pct", times100 <$> column "conv_rate" r)] |}.

(** The backend: a hit with [conv_rate = 5] written at second
    1700000000 for driver 1, a miss for every other key. *)
Definition backend
    (call : FeatureView * list (EntityKeyProto PValue) * list string)
  : Result (list (option Z * option (gmap string PValue))) :=
  inr ((λ key, if decide (entity_values key = [int64_val 1])
               then (Some 1700000000%Z, Some {[ "conv_rate" := int64_val 5 ]})
               else (None, None)) <$> call.1.2).

Definition store : FeatureStore (Value := PValue) (datetime := Z) :=
  {| get_feature_service := λ service, raise (KeyError service);
     _get_feature_views_to_use := λ _, inr ([driver_stats], [], [conv_rate_pct]);
     _get_entity_maps := λ _, inr ([("driver", "driver_id")], {["driver_id"]});
     online_read := backend |}.

Definition FromDatetime (z : Z) : Timestamp := {| seconds := z; nanos := 0 |}.

Definition get_online_features :=
  _get_online_features Null FromDatetime tuple_lt "__dummy" "__dummy_id"
    (string_val "") (λ _ _, inr tt) store.

(** Three rows, the first two for the same driver. *)
Definition entity_values : dict string (list PValue) :=
  [("driver_id", [int64_val 1; int64_val 1; int64_val 2])].

(** A reading of the wall clock at the time of a request. *)
Definition now : Timestamp := {| seconds := 1793786400; nanos := 0 |}.

(** The response the assembler has built for the three rows when the
    augmenter is called. *)
Definition assembled : GetOnlineFeaturesResponse PValue :=
  {| feature_names := ["driver_id"; "conv_rate"];
     results :=
       [ {| values := [int64_val 1; int64_val 1; int64_val 2];
            statuses := [PRESENT; PRESENT; PRESENT];
            event_timestamps := [Timestamp_new; Timestamp_new; Timestamp_new] |};
         {| values := [int64_val 5; int64_val 5; Null];
            statuses := [PRESENT; PRESENT; NOT_FOUND];
            event_timestamps :=
              [FromDatetime 1700000000; FromDatetime 1700000000; Timestamp_new] |} ] |}.

(** What the augmenter makes of it. *)
Definition augmented : GetOnlineFeaturesResponse PValue :=
  {| feature_names := ["driver_id"; "conv_rate"; "conv_rate_pct"];
     results :=
       results assembled
       ++ [ {| values := [int64_val 500; int64_val 500; Null];
               statuses := [PRESENT; PRESENT; PRESENT];
               event_timestamps := [Timestamp_new; Timestamp_new; Timestamp_new] |} ] |}.
End Example.

(** * Further notions *)

(** One [defaultdict(set)] holds at least what another holds. *)
Definition dict_le (d d' : dict string (gset string)) : Prop :=
  ∀ k s, dict_get k d = Some s → ∃ s', dict_get k d' = Some s' ∧ s ⊆ s'.

(** * Row-wise entity values

    [get_online_features] takes the entity values row by row and turns
    them into columns before it calls [_get_online_features];
    [_get_columnar_entity_values] does the same for callers that may give
    either form. *)

Section Rowise.
Context {V : Type}.

(** The dictionary [columnar] that [get_online_features] builds from
    [entity_rows]: one empty column per key of the first row
    ([entity_rows[0]] raises [IndexError] on the empty list), then every
    value of every row appended to the column of its key; a key without a
    column is a [ValueError]. *)
Definition get_online_features_columnar (entity_rows : list (dict string V))
  : Result (dict string (list V)) :=
  do first <-
    match entity_rows with
    | [] => raise IndexError
    | entity_row :: _ => inr entity_row
    end;
  let columnar : dict string (list V) :=
    dict_of_list ((λ k, (k, [])) <$> dict_keys first) in
  foldM (λ columnar entity_row,
           foldM (λ (columnar : dict string (list V)) '(key, value),
                    match dict_get key columnar with
                    | Some column =>
                        inr (dict_set key (column ++ [value]) columnar)
                    | None =>
                        raise (ValueError
                                 "All entity_rows must have the same keys.")
                    end)
             columnar entity_row)
    columnar entity_rows.

(** [_get_columnar_entity_values]: [res] is a [defaultdict(list)]. *)
Definition _get_columnar_entity_values
    (rowise : option (list (dict string V)))
    (columnar : option (dict string (list V)))
  : Result (dict string (list V)) :=
  match rowise, columnar with
  | None, None | Some _, Some _ =>
      raise (ValueError
               "Exactly one of `columnar_entity_values` and `rowise_entity_values` must be set.")
  | Some rowise, None =>
      inr (foldl (λ res entity_row,
                    foldl (λ (res : dict string (list V)) '(key, value),
                             dict_set key
                               (dict_get_default key [] res ++ [value]) res)
                      res entity_row)
             [] rowise)
  | None, Some columnar => inr columnar
  end.
End Rowise.

(** * Names of feature views *)

Section ValidateNames.
(** [str.lower]. *)
Context (lower : string → string).
(** Feature views of any kind, each with its [name]. *)
Context {BaseFeatureView : Type} (name_of : BaseFeatureView → string).

(** The message of the [ValueError] of [_validate_feature_views]. *)
Definition more_than_one_feature_view (case_insensitive_fv_name : string)
  : string :=
  "More than one feature view with name " +:+ case_insensitive_fv_name
  +:+ " found. Please ensure that all feature view names are case-insensitively unique. "
  +:+ "It may be necessary to ignore certain files in your feature repository by using a .feastignore file.".

(** [_validate_feature_views]: the names are unique up to case. *)
Definition _validate_feature_views (feature_views : list BaseFeatureView)
  : Result unit :=
  do _ <-
    foldM (λ (fv_names : gset string) fv,
             let case_insensitive_fv_name := lower (name_of fv) in
             if decide (case_insensitive_fv_name ∈ fv_names)
             then raise (ValueError
                           (more_than_one_feature_view
                              case_insensitive_fv_name))
             else inr (fv_names ∪ {[case_insensitive_fv_name]}))
      ∅ feature_views;
  inr tt.

End ValidateNames.

(** * Materialization

    [materialize] loads an interval of offline data into the online store,
    one feature view after the other. What it prints is left out. *)

Section Materialize.
(** A feature view as materialization reads it, stream feature views
    included: its [name] and whether it is [online]. *)
Context {View : Type} (view_name : View → string) (online : View → bool).
(** Datetimes with [utils.make_tzaware], Python's [>] and [str]. *)
Context {datetime : Type} (make_tzaware : datetime → datetime).
Context (datetime_gt : datetime → datetime → bool).
Context (datetime_str : datetime → string).
(** What the provider and the registry write to: the stores and the
    registry's record of materialized intervals. *)
Context {World : Type}.

(** The registry reads of [_get_feature_views_to_materialize], as the
    registry answers them when the method is called. *)
Record Registry : Type := {
  list_feature_views : list View;
  list_stream_feature_views : list View;
  get_feature_view : string → Result View;
  get_stream_feature_view : string → Result View;
}.

(** The two writers, each from the state it finds to the state it leaves
    and what it returns or raises. *)
Record Writers : Type := {
  materialize_single_feature_view :
    World → View → datetime → datetime → World * Result unit;
  apply_materialization :
    World → View → datetime → datetime → World * Result unit;
}.

(** A call of one of the writers. *)
Inductive WriterCall : Type :=
| MaterializeSingleFeatureView (feature_view : View)
    (start_date end_date : datetime)
| ApplyMaterialization (feature_view : View) (start_date end_date : datetime).

(** [_get_feature_views_to_materialize]; the listings and lookups are
    made with [hide_dummy_entity=False] and so are the registry's own. *)
Definition _get_feature_views_to_materialize (registry : Registry)
    (feature_views : option (list string)) : Result (list View) :=
  match feature_views with
  | None =>
      let feature_views_to_materialize := list_feature_views registry in
      let feature_views_to_materialize :=
        filter (λ fv, online fv = true) feature_views_to_materialize in
      let stream_feature_views_to_materialize :=
        list_stream_feature_views registry in
      inr (feature_views_to_materialize
           ++ filter (λ sfv, online sfv = true)
                stream_feature_views_to_materialize)
  | Some feature_views =>
      foldM (λ feature_views_to_materialize name,
               do feature_view <-
                 match get_feature_view registry name with
                 | inl (FeatureViewNotFoundException _) =>
                     get_stream_feature_view registry name
                 | found_or_raised => found_or_raised
                 end;
               if online feature_view
               then inr (feature_views_to_materialize ++ [feature_view])
               else raise (ValueError
                             ("FeatureView " +:+ view_name feature_view
                              +:+ " is not configured to be served online.")))
        [] feature_views
  end.

(** The loop of [materialize] over the feature views, with the calls of
    the writers recorded as they are made. The dates are made timezone
    aware anew in every round. *)
Fixpoint materialize_loop (writers : Writers)
    (feature_views_to_materialize : list View)
    (start_date end_date : datetime) (world : World)
    (calls : list WriterCall) : list WriterCall * World * Result unit :=
  match feature_views_to_materialize with
  | [] => (calls, world, inr tt)
  | feature_view :: rest =>
      let start_date := make_tzaware start_date in
      let end_date := make_tzaware end_date in
      let calls :=
        calls ++ [MaterializeSingleFeatureView feature_view start_date end_date] in
      match materialize_single_feature_view writers world feature_view
              start_date end_date with
      | (world, inl e) => (calls, world, inl e)
      | (world, inr _) =>
          let calls :=
            calls ++ [ApplyMaterialization feature_view start_date end_date] in
          match apply_materialization writers world feature_view
                  start_date end_date with
          | (world, inl e) => (calls, world, inl e)
          | (world, inr _) =>
              materialize_loop writers rest start_date end_date world calls
          end
      end
  end.

Definition materialize (registry : Registry) (writers : Writers)
    (start_date end_date : datetime) (feature_views : option (list string))
    (world : World) : list WriterCall * World * Result unit :=
  if datetime_gt (make_tzaware start_date) (make_tzaware end_date)
  then ([], world,
        raise (ValueError
                 ("The given start_date " +:+ datetime_str start_date
                  +:+ " is greater than the given end_date "
                  +:+ datetime_str end_date +:+ ".")))
  else
    match _get_feature_views_to_materialize registry feature_views with
    | inl e => ([], world, inl e)
    | inr feature_views_to_materialize =>
        materialize_loop writers feature_views_to_materialize
          start_date end_date world []
    end.
End Materialize.

(** * Properties *)

(** ** The error monad *)

Lemma bind_inr {A B : Type} (m : Result A) (k : A → Result B) (b : B) :
  bind m k = inr b → ∃ a, m = inr a ∧ k a = inr b.
Proof. destruct m as [e|a]; simpl; [discriminate | eauto]. Qed.

Lemma mapM_inr {A B : Type} (f : A → Result B) (l : list A) (g : A → B) :
  (∀ x, x ∈ l → f x = inr (g x)) → mapM f l = inr (g <$> l).
Proof.
  induction l as [|x l IH]; intros Hf; simpl; [done|].
  rewrite Hf by left. simpl. rewrite IH; [done|].
  intros y Hy. apply Hf. by right.
Qed.

Lemma mapM_length {A B : Type} (f : A → Result B) (l : list A) (l' : list B) :
  mapM f l = inr l' → length l' = length l.
Proof.
  revert l'. induction l as [|x l IH]; intros l' H; simpl in H.
  - by inversion H.
  - apply bind_inr in H as (y & _ & H). apply bind_inr in H as (ys & Hys & H).
    inversion H; subst. simpl. f_equal. by apply IH.
Qed.

Lemma mapM_Forall2 {A B : Type} (f : A → Result B) (l : list A) (l' : list B) :
  mapM f l = inr l' → Forall2 (λ x y, f x = inr y) l l'.
Proof.
  revert l'. induction l as [|x l IH]; intros l' H; simpl in H.
  - inversion H. constructor.
  - apply bind_inr in H as (y & Hy & H). apply bind_inr in H as (ys & Hys & H).
    inversion H; subst. constructor; auto.
Qed.

(** ** The scatter step *)

Section ScatterProperties.
Context {A : Type}.
Implicit Types (output : list (option A)) (lst : list A)
  (idxs : list (list nat)).

Lemma setitem_lt output (idx : nat) (elem : A) :
  idx < length output → setitem output idx elem = inr (<[idx := Some elem]> output).
Proof. intros. unfold setitem. by rewrite decide_True. Qed.

Lemma assign_destinations output (elem : A) (destinations : list nat) :
  Forall (λ idx, idx < length output) destinations →
  ∃ output',
    foldM (λ output idx, setitem output idx elem) output destinations
      = inr output'
    ∧ length output' = length output
    ∧ (∀ r, r ∈ destinations → output' !! r = Some (Some elem))
    ∧ (∀ r, r ∉ destinations → output' !! r = output !! r).
Proof.
  revert output. induction destinations as [|idx ds IH]; intros output Hlt.
  - exists output. split_and!; [done..| |done]. intros r Hr. by apply elem_of_nil in Hr.
  - apply Forall_cons in Hlt as [Hidx Hds]. cbn [foldM]. rewrite setitem_lt by done. cbn [bind].
    destruct (IH (<[idx:=Some elem]> output)) as (out' & Hrun & Hlen & Hin & Hout).
    { by rewrite length_insert. }
    exists out'. rewrite length_insert in Hlen. split_and!; [done..| |].
    + intros r Hr. destruct (decide (r ∈ ds)) as [|Hnot]; [by apply Hin|].
      apply elem_of_cons in Hr as [->|]; [|done].
      rewrite Hout by done. by apply list_lookup_insert_eq.
    + intros r Hr. apply not_elem_of_cons in Hr as [Hne Hr].
      rewrite Hout by done. by apply list_lookup_insert_ne.
Qed.

Lemma assign_all output (pairs : list (A * list nat)) :
  Forall (Forall (λ idx, idx < length output)) pairs.*2 →
  NoDup (concat pairs.*2) →
  ∃ output',
    foldM (λ output '(elem, destinations),
             foldM (λ output idx, setitem output idx elem) output destinations)
      output pairs = inr output'
    ∧ length output' = length output
    ∧ (∀ i elem L r, pairs !! i = Some (elem, L) → r ∈ L →
         output' !! r = Some (Some elem))
    ∧ (∀ r, r ∉ concat pairs.*2 → output' !! r = output !! r).
Proof.
  revert output. induction pairs as [|[elem L] pairs IH]; intros output Hlt Hnd.
  - exists output. split_and!; [done..| |done]. intros i ? ? ? Hi. by rewrite lookup_nil in Hi.
  - simpl in *. apply Forall_cons in Hlt as [HL Hrest].
    apply NoDup_app in Hnd as (HndL & Hdisj & Hnd).
    destruct (assign_destinations output elem L HL) as (out1 & Hrun1 & Hlen1 & Hin1 & Hout1).
    cbn [foldM]. rewrite Hrun1. cbn [bind].
    destruct (IH out1) as (out' & Hrun & Hlen & Hin & Hout); [|done|].
    { by rewrite Hlen1. }
    exists out'. split_and!; [done|congruence| |].
    + intros [|i] e L' r Hi Hr; simpl in Hi.
      * inversion Hi; subst. rewrite Hout by (by apply Hdisj). by apply Hin1.
      * by eapply Hin.
    + intros r Hr. apply not_elem_of_app in Hr as [HrL Hr].
      rewrite Hout by done. by apply Hout1.
Qed.
End ScatterProperties.

(** ** Lists of lists *)

Lemma sum_list_length_concat {A : Type} (ls : list (list A)) :
  sum_list (length <$> ls) = length (concat ls).
Proof.
  induction ls as [|l ls IH]; simpl; [done|]. rewrite length_app. f_equal. exact IH.
Qed.

Lemma elem_of_concat {A : Type} (x : A) (ls : list (list A)) :
  x ∈ concat ls ↔ ∃ i l, ls !! i = Some l ∧ x ∈ l.
Proof.
  induction ls as [|l ls IH]; simpl.
  - split; [by intros ?%elem_of_nil|]. intros (i & l & Hi & _). by rewrite lookup_nil in Hi.
  - rewrite elem_of_app, IH. split.
    + intros [Hx|(i & l' & Hi & Hx)].
      * exists 0, l. by split.
      * exists (S i), l'. by split.
    + intros ([|i] & l' & Hi & Hx); simpl in Hi; [left; congruence|right; eauto].
Qed.

Lemma all_Some {A : Type} (l : list (option A)) :
  (∀ r, r < length l → ∃ x, l !! r = Some (Some x)) → ∃ l0, l = Some <$> l0.
Proof.
  induction l as [|o l IH]; intros H.
  - by exists [].
  - destruct (H 0) as [x Hx]; [simpl; lia|]. simpl in Hx. inversion Hx; subst.
    destruct IH as [l0 ->].
    { intros r Hr. apply (H (S r)). simpl. lia. }
    by exists (x :: l0).
Qed.

(** ** The partition that a unique-key set carries *)

Lemma partitions_facts (idxs : list (list nat)) (N : nat) :
  partitions idxs N →
  sum_list (length <$> idxs) = N
  ∧ NoDup (concat idxs)
  ∧ (∀ r, r < N → ∃ i L, idxs !! i = Some L ∧ r ∈ L)
  ∧ (∀ i L r, idxs !! i = Some L → r ∈ L → r < N)
  ∧ (∀ i j L L' r, idxs !! i = Some L → idxs !! j = Some L' →
       r ∈ L → r ∈ L' → i = j).
Proof.
  unfold partitions. intros Hp. split_and!.
  - by rewrite sum_list_length_concat, Hp, length_seq.
  - rewrite Hp. apply NoDup_seq.
  - intros r Hr. apply elem_of_concat. rewrite Hp. apply elem_of_seq. lia.
  - intros i L r Hi Hr.
    assert (r ∈ concat idxs) as Hc by (apply elem_of_concat; eauto).
    rewrite Hp in Hc. apply elem_of_seq in Hc. lia.
  - assert (NoDup (concat idxs)) as Hnd by (rewrite Hp; apply NoDup_seq).
    clear Hp. induction idxs as [|L0 idxs IH]; intros i j L L' r Hi Hj Hr Hr'.
    + by rewrite lookup_nil in Hi.
    + simpl in Hnd. apply NoDup_app in Hnd as (_ & Hdisj & Hnd).
      destruct i as [|i], j as [|j]; simpl in *; simplify_eq; [done| | |].
      * exfalso. eapply Hdisj; [done|]. apply elem_of_concat; eauto.
      * exfalso. eapply Hdisj; [done|]. apply elem_of_concat; eauto.
      * f_equal. eauto.
Qed.

Section ApplyListMappingProperties.
Context {A : Type}.

Lemma apply_list_mapping_partition (lst : list A) (idxs : list (list nat)) (N : nat) :
  partitions idxs N → length lst = length idxs →
  ∃ out,
    apply_list_mapping lst idxs = inr (Some <$> out)
    ∧ length out = N
    ∧ (∀ i L r, idxs !! i = Some L → r ∈ L → out !! r = lst !! i).
Proof.
  intros Hp Hlen. destruct (partitions_facts _ _ Hp) as (Hsum & Hnd & Hcov & Hlt & _).
  unfold apply_list_mapping. rewrite Hsum.
  destruct (assign_all (replicate N None) (zip lst idxs))
    as (out' & Hrun & Hlen' & Hin & _).
  { rewrite snd_zip by lia. rewrite length_replicate.
    apply Forall_lookup. intros i L Hi. apply Forall_forall. intros r Hr. eauto. }
  { by rewrite snd_zip by lia. }
  rewrite length_replicate in Hlen'.
  assert (∀ i L r, idxs !! i = Some L → r ∈ L →
            ∃ e, lst !! i = Some e ∧ out' !! r = Some (Some e)) as Hget.
  { intros i L r Hi Hr.
    destruct (lookup_lt_is_Some_2 lst i) as [e He].
    { rewrite Hlen. by eapply lookup_lt_Some. }
    exists e. split; [done|]. eapply Hin; [|done].
    apply lookup_zip_with_Some. eauto. }
  destruct (all_Some out') as [out ->].
  { intros r Hr. rewrite Hlen' in Hr. destruct (Hcov r Hr) as (i & L & Hi & HrL).
    destruct (Hget i L r Hi HrL) as (e & _ & He). eauto. }
  exists out. rewrite length_fmap in Hlen'. split_and!; [done..|].
  intros i L r Hi Hr. destruct (Hget i L r Hi Hr) as (e & He & Hout).
  rewrite list_lookup_fmap in Hout. rewrite He.
  destruct (out !! r); simpl in Hout; congruence.
Qed.

Lemma repeated_Some (l : list A) : repeated (Some <$> l) = inr l.
Proof.
  unfold repeated. induction l as [|x l IH]; [done|].
  change (Some <$> x :: l) with (Some x :: (Some <$> l)).
  cbn [mapM bind]. by rewrite IH.
Qed.
End ApplyListMappingProperties.

Section Scatter.
Context {Value K : Type}.

Lemma UniqueKeySet_same_group (rows unique : list K) (idxs : list (list nat))
    (r1 r2 : nat) (k : K) :
  UniqueKeySet rows unique idxs →
  rows !! r1 = Some k → rows !! r2 = Some k →
  ∃ i L, idxs !! i = Some L ∧ r1 ∈ L ∧ r2 ∈ L.
Proof.
  intros (Hnd & Hp & Hocc) H1 H2.
  destruct (partitions_facts _ _ Hp) as (_ & _ & Hcov & _ & _).
  destruct (Hcov r1) as (i & L & Hi & Hr1); [by eapply lookup_lt_Some|].
  destruct (Hcov r2) as (j & L' & Hj & Hr2); [by eapply lookup_lt_Some|].
  destruct (Forall2_lookup_r _ _ _ _ _ Hocc Hi) as (ki & Hki & HL).
  destruct (Forall2_lookup_r _ _ _ _ _ Hocc Hj) as (kj & Hkj & HL').
  rewrite Forall_forall in HL, HL'.
  assert (ki = k) as -> by (specialize (HL _ Hr1); congruence).
  assert (kj = k) as -> by (specialize (HL' _ Hr2); congruence).
  assert (i = j) as -> by (by eapply NoDup_lookup).
  exists j, L'. split_and!; congruence.
Qed.

(** C2. For every unique-key set of a batch and every per-unique-key
    vector of timestamps, statuses and values of one feature, the scatter
    step returns a feature vector in which every row listed for the unique
    key at position [i] holds exactly the value, the status and the
    timestamp of position [i]; hence two rows of the batch with the same
    composite key hold the same value, status and timestamp. *)
Theorem scatter_vector_by_key (rows unique : list K) (idxs : list (list nat))
    (timestamp_vector : list Timestamp) (statuses_vector : list FieldStatus)
    (values_vector : list Value) :
  UniqueKeySet rows unique idxs →
  length timestamp_vector = length idxs →
  length statuses_vector = length idxs →
  length values_vector = length idxs →
  ∃ fv,
    scatter_vector timestamp_vector statuses_vector values_vector idxs = inr fv
    ∧ (∀ i L r, idxs !! i = Some L → r ∈ L →
         values fv !! r = values_vector !! i
         ∧ statuses fv !! r = statuses_vector !! i
         ∧ event_timestamps fv !! r = timestamp_vector !! i)
    ∧ (∀ r1 r2 k, rows !! r1 = Some k → rows !! r2 = Some k →
         values fv !! r1 = values fv !! r2
         ∧ statuses fv !! r1 = statuses fv !! r2
         ∧ event_timestamps fv !! r1 = event_timestamps fv !! r2).
Proof.
  intros Huks Ht Hs Hv. pose proof Huks as (_ & Hp & _).
  destruct (apply_list_mapping_partition values_vector idxs _ Hp Hv)
    as (vs & Hvs & _ & Hvget).
  destruct (apply_list_mapping_partition statuses_vector idxs _ Hp Hs)
    as (ss & Hss & _ & Hsget).
  destruct (apply_list_mapping_partition timestamp_vector idxs _ Hp Ht)
    as (ts & Hts & _ & Htget).
  exists {| values := vs; statuses := ss; event_timestamps := ts |}.
  assert (∀ i L r, idxs !! i = Some L → r ∈ L →
            vs !! r = values_vector !! i ∧ ss !! r = statuses_vector !! i
            ∧ ts !! r = timestamp_vector !! i) as Hall.
  { intros i L r Hi Hr. split_and!; eauto. }
  split_and!.
  - unfold scatter_vector. rewrite Hvs, Hss, Hts. cbn [bind].
    by rewrite !repeated_Some.
  - exact Hall.
  - intros r1 r2 k H1 H2. simpl.
    destruct (UniqueKeySet_same_group _ _ _ _ _ _ Huks H1 H2)
      as (i & L & Hi & Hr1 & Hr2).
    destruct (Hall i L r1 Hi Hr1) as (-> & -> & ->).
    destruct (Hall i L r2 Hi Hr2) as (-> & -> & ->). done.
Qed.
End Scatter.

(** ** Built-ins *)

Section Groupby.
Context {A K : Type} `{!EqDecision K} (key : A → K).

Lemma groupby_concat (l : list A) : concat (groupby key l).*2 = l.
Proof.
  induction l as [|x l IH]; [done|]. simpl.
  destruct (groupby key l) as [|[k g] rest]; simpl in *; [by subst|].
  case_decide; simpl; by rewrite <- IH.
Qed.

Lemma groupby_groups (l : list A) :
  Forall (λ kg, kg.2 ≠ [] ∧ Forall (λ x, key x = kg.1) kg.2) (groupby key l).
Proof.
  induction l as [|x l IH]; [constructor|]. simpl.
  destruct (groupby key l) as [|[k g] rest]; simpl in *.
  - repeat constructor. done.
  - apply Forall_cons in IH as [[Hne Hg] Hrest].
    case_decide; subst.
    + constructor; [|done]. simpl. split; [done|]. by constructor.
    + constructor; [simpl; split; [done|by repeat constructor]|].
      constructor; [|done]. by split.
Qed.

Lemma groupby_head (x : A) (l : list A) :
  ∃ g rest, groupby key (x :: l) = (key x, g) :: rest.
Proof.
  simpl. destruct (groupby key l) as [|[k g] rest]; [eauto|].
  case_decide; subst; eauto.
Qed.

Lemma groupby_nil (l : list A) : groupby key l = [] → l = [].
Proof.
  destruct l as [|x l]; [done|].
  destruct (groupby_head x l) as (g & rest & ->). done.
Qed.

Lemma groupby_key_elem (l : list A) (k : K) :
  k ∈ (groupby key l).*1 → ∃ y, y ∈ l ∧ key y = k.
Proof.
  intros Hk. apply list_elem_of_fmap in Hk as ([k' g] & -> & Hkg).
  pose proof (groupby_groups l) as Hall. rewrite Forall_forall in Hall.
  destruct (Hall _ Hkg) as [Hne Hg]. simpl in *.
  destruct g as [|y g]; [done|]. apply Forall_cons in Hg as [Hy _].
  exists y. split; [|done].
  rewrite <- (groupby_concat l). apply elem_of_concat.
  apply list_elem_of_lookup in Hkg as [i Hi]. exists i, (y :: g).
  split; [|by left]. by rewrite list_lookup_fmap, Hi.
Qed.

(** On a list sorted by an order on the keys under which only equal keys
    are equivalent, the runs have pairwise distinct keys. *)
Lemma groupby_sorted_NoDup (R : relation A) (l : list A) :
  Transitive R →
  (∀ x y, R x y → R y x → key x = key y) →
  (∀ x y z, key y = key z → R x y → R x z) →
  StronglySorted R l → NoDup (groupby key l).*1.
Proof.
  intros Htrans Hanti Hkey. induction 1 as [|x l Hsorted IH Hx]; [constructor|].
  simpl. destruct (groupby key l) as [|[k g] rest] eqn:Hgl; simpl in *.
  - repeat constructor. by intros ?%elem_of_nil.
  - case_decide as Hk; [done|]. constructor; [|done].
    intros Hin. destruct (groupby_key_elem l (key x)) as (y & Hy & Hyx).
    { by rewrite Hgl. }
    destruct l as [|z l']; [done|].
    destruct (groupby_head z l') as (g' & rest' & Hz). rewrite Hz in Hgl.
    inversion Hgl; subst k g' rest'. apply Hk.
    apply Forall_cons in Hx as [Hxz _]. apply Hanti; [done|].
    apply elem_of_cons in Hy as [->|Hy]; [by rewrite Hyx in Hk|].
    apply (Hkey z y x); [done|].
    inversion Hsorted as [|? ? _ Hz']; subst. rewrite Forall_forall in Hz'. auto.
Qed.
End Groupby.

Lemma zip_star_length {A : Type} (cols : list (list A)) (N : nat) :
  cols ≠ [] → Forall (λ col, length col = N) cols → length (zip_star cols) = N.
Proof.
  induction cols as [|c cols IH]; [done|]. intros _ Hall.
  apply Forall_cons in Hall as [Hc Hall]. simpl.
  destruct cols as [|c' cols'].
  - by rewrite length_fmap.
  - rewrite length_zip_with, IH by done. lia.
Qed.

Lemma enumerate_fst {A : Type} (l : list A) : (enumerate l).*1 = seq 0 (length l).
Proof. unfold enumerate. apply fst_zip. by rewrite length_seq. Qed.

Lemma enumerate_snd {A : Type} (l : list A) : (enumerate l).*2 = l.
Proof. unfold enumerate. apply snd_zip. by rewrite length_seq. Qed.

Lemma enumerate_lookup {A : Type} (l : list A) (i : nat) (x : A) :
  (i, x) ∈ enumerate l → l !! i = Some x.
Proof.
  unfold enumerate. intros Hin. apply list_elem_of_lookup in Hin as [j Hj].
  apply lookup_zip_with_Some in Hj as (a & b & Heq & Ha & Hb).
  inversion Heq; subst. apply lookup_seq in Ha as [-> _]. done.
Qed.

Lemma concat_fmap {A B : Type} (f : A → B) (ls : list (list A)) :
  concat ((fmap f : list A → list B) <$> ls) = f <$> concat ls.
Proof.
  induction ls as [|l ls IH]; [done|]. simpl. rewrite fmap_app. f_equal. exact IH.
Qed.

(** ** The deduplication step *)

Section Dedup.
Context {Value : Type} `{!EqDecision Value}.
Context (sort_key_lt : list Value → list Value → bool).

Lemma get_unique_entities_unfold (table : FeatureView)
    (join_key_values : dict string (list Value))
    (entity_name_to_join_key_map : dict string string)
    (table_entity_values : dict string (list Value)) :
  _get_table_entity_values table entity_name_to_join_key_map join_key_values
    = inr table_entity_values →
  _get_unique_entities sort_key_lt table join_key_values
    entity_name_to_join_key_map
  = match key_groups sort_key_lt table_entity_values with
    | [] => raise (ValueError "not enough values to unpack (expected 2, got 0)")
    | _ :: _ =>
        inr ((λ kg, dict_of_list (zip (dict_keys table_entity_values) kg.1))
               <$> key_groups sort_key_lt table_entity_values,
             (λ kg, kg.2.*1) <$> key_groups sort_key_lt table_entity_values)
    end.
Proof.
  intros Htev. unfold _get_unique_entities. rewrite Htev. cbn [bind].
  fold (composite_keys table_entity_values).
  fold (key_groups sort_key_lt table_entity_values).
  destruct (key_groups sort_key_lt table_entity_values) as [|[k g] groups]; [done|].
  cbn [fmap list_fmap]. f_equal. f_equal.
  - cbn. f_equal. rewrite <- list_fmap_compose. apply list_fmap_ext.
    by intros ? [? ?].
  - cbn. f_equal. rewrite <- list_fmap_compose. apply list_fmap_ext.
    by intros ? [? ?].
Qed.

Lemma key_groups_indexes (table_entity_values : dict string (list Value)) :
  concat ((λ kg, kg.2.*1) <$> key_groups sort_key_lt table_entity_values)
  ≡ₚ seq 0 (length (composite_keys table_entity_values)).
Proof.
  assert (∀ G : list (list Value * list (nat * list Value)),
            concat ((λ kg, kg.2.*1) <$> G) = (concat G.*2).*1) as ->.
  { intros G. by rewrite <- concat_fmap, <- list_fmap_compose. }
  unfold key_groups. rewrite groupby_concat. unfold sort_rowise.
  rewrite merge_sort_Permutation. by rewrite enumerate_fst.
Qed.

Lemma key_groups_nil (table_entity_values : dict string (list Value)) :
  key_groups sort_key_lt table_entity_values = [] ↔ composite_keys table_entity_values = [].
Proof.
  unfold key_groups, sort_rowise. split.
  - intros H%groupby_nil.
    pose proof (merge_sort_Permutation (sort_key_le sort_key_lt)
                  (enumerate (composite_keys table_entity_values))) as Hp.
    rewrite H in Hp. apply Permutation_nil_l in Hp.
    rewrite <- (enumerate_snd (composite_keys table_entity_values)).
    by rewrite <- Hp.
  - intros ->. done.
Qed.
End Dedup.

Section DedupTheorems.
Context {Value : Type} `{!EqDecision Value}.
Context (sort_key_lt : list Value → list Value → bool).


(** On a batch without rows the unpacking of the (empty) list of groups
    raises. *)
Lemma get_unique_entities_no_rows (table : FeatureView)
    (join_key_values : dict string (list Value))
    (entity_name_to_join_key_map : dict string string)
    (table_entity_values : dict string (list Value)) :
  _get_table_entity_values table entity_name_to_join_key_map join_key_values
    = inr table_entity_values →
  composite_keys table_entity_values = [] →
  _get_unique_entities sort_key_lt table join_key_values
    entity_name_to_join_key_map
  = raise (ValueError "not enough values to unpack (expected 2, got 0)").
Proof.
  intros Htev Hrows. rewrite (get_unique_entities_unfold _ _ _ _ _ Htev).
  destruct (key_groups_nil sort_key_lt table_entity_values) as [_ ->]; done.
Qed.

(** X2. When Python's order on the sort keys is a total order on the
    composite keys (two keys are unordered only if they are equal), the
    deduplication step returns a unique-key set of the batch: distinct keys,
    each with the rows that carry it. *)
Theorem get_unique_entities_UniqueKeySet (table : FeatureView)
    (join_key_values : dict string (list Value))
    (entity_name_to_join_key_map : dict string string)
    (table_entity_values : dict string (list Value))
    (unique : list (dict string Value)) (idxs : list (list nat)) :
  (∀ a b, sort_key_lt a b = false ∨ sort_key_lt b a = false) →
  (∀ a b c, sort_key_lt b a = false → sort_key_lt c b = false →
            sort_key_lt c a = false) →
  (∀ a b, sort_key_lt a b = false → sort_key_lt b a = false → a = b) →
  _get_table_entity_values table entity_name_to_join_key_map join_key_values
    = inr table_entity_values →
  _get_unique_entities sort_key_lt table join_key_values
    entity_name_to_join_key_map = inr (unique, idxs) →
  ∃ tuples,
    unique = (λ k, dict_of_list (zip (dict_keys table_entity_values) k))
               <$> tuples
    ∧ UniqueKeySet (composite_keys table_entity_values) tuples idxs.
Proof.
  intros Htotal Htrans Hanti Htev Hrun.
  rewrite (get_unique_entities_unfold _ _ _ _ _ Htev) in Hrun.
  pose proof (key_groups_indexes sort_key_lt table_entity_values) as Hp.
  unfold key_groups in *.
  set (rows := composite_keys table_entity_values) in *.
  assert (∀ p, p ∈ sort_rowise sort_key_lt (enumerate rows) →
               rows !! p.1 = Some p.2) as Hrow.
  { intros [i x] Hin. apply enumerate_lookup.
    unfold sort_rowise in Hin. by rewrite merge_sort_Permutation in Hin. }
  assert (StronglySorted (sort_key_le sort_key_lt)
            (sort_rowise sort_key_lt (enumerate rows))) as Hsorted.
  { apply StronglySorted_merge_sort.
    - intros x y z Hxy Hyz. unfold sort_key_le in *. eauto.
    - intros x y. unfold sort_key_le. destruct (Htotal x.2 y.2); auto. }
  set (sorted := sort_rowise sort_key_lt (enumerate rows)) in *.
  pose proof (groupby_groups snd sorted) as Hgroups.
  pose proof (groupby_concat snd sorted) as Hconcat.
  pose proof (groupby_sorted_NoDup snd (sort_key_le sort_key_lt) sorted) as Hnd.
  destruct (groupby snd sorted) as [|kg groups] eqn:HG; [done|].
  inversion Hrun; subst unique idxs. clear Hrun.
  exists ((kg :: groups).*1). split.
  { rewrite <- list_fmap_compose. done. }
  unfold UniqueKeySet. split_and!.
  - apply Hnd; [| | |done].
    + intros x y z Hxy Hyz. unfold sort_key_le in *. eauto.
    + intros x y Hxy Hyx. unfold sort_key_le in *. symmetry. eauto.
    + intros x y z Heq Hxy. unfold sort_key_le in *. by rewrite <- Heq.
  - exact Hp.
  - apply (Forall2_fmap_2 fst
             (λ kg : list Value * list (nat * list Value), kg.2.*1)
             (λ k L, Forall (λ r, rows !! r = Some k) L)
             (kg :: groups) (kg :: groups)).
    apply Forall_Forall2_diag.
    rewrite Forall_forall in Hgroups |- *. intros [k g] Hkg.
    destruct (Hgroups _ Hkg) as [_ Hg]. simpl in Hg |- *.
    apply Forall_fmap. rewrite Forall_forall in Hg |- *.
    intros p Hpg. simpl. rewrite <- (Hg p Hpg). apply Hrow.
    rewrite <- Hconcat. apply elem_of_concat.
    apply list_elem_of_lookup in Hkg as [i Hi]. exists i, g.
    split; [|done]. by rewrite list_lookup_fmap, Hi.
Qed.
End DedupTheorems.

(** ** The backend read coordinator *)

Section ReadFromOnlineStore.
Context {Value : Type} `{!EqDecision Value} (Value_new : Value).
Context {datetime : Type} (FromDatetime : datetime → Timestamp).

(** C4. For every backend read result, [_read_from_online_store] returns
    one entry per entity key read, in the order read, and in the entry of a
    key: the one timestamp of the key ([Timestamp()] when the backend
    reports none) is repeated for every requested feature; on a miss of the
    whole key every requested feature has status [NOT_FOUND] and the null
    value; on a hit, in the order of [requested_features], a feature absent
    from the returned mapping has [NOT_FOUND] and the null value and a
    feature found has [PRESENT] and the returned value. *)
Theorem read_from_online_store_statuses
    (self : FeatureStore (Value := Value) (datetime := datetime))
    (entity_rows : list (dict string Value))
    (requested_features : list string) (table : FeatureView)
    (read_rows : list (option datetime * option (gmap string Value))) :
  online_read self
    (table, entity_key_protos_of entity_rows, requested_features)
    = inr read_rows →
  ∃ protos,
    _read_from_online_store Value_new FromDatetime self entity_rows
      requested_features table = inr protos
    ∧ length protos = length read_rows
    ∧ ∀ i row_ts feature_data,
        read_rows !! i = Some (row_ts, feature_data) →
        ∃ event_timestamps statuses values,
          protos !! i = Some (event_timestamps, statuses, values)
          ∧ event_timestamps
            = replicate (length requested_features)
                (match row_ts with
                 | Some ts => FromDatetime ts
                 | None => Timestamp_new
                 end)
          ∧ length statuses = length requested_features
          ∧ length values = length requested_features
          ∧ ∀ j feature_name,
              requested_features !! j = Some feature_name →
              match feature_data with
              | None =>
                  statuses !! j = Some NOT_FOUND ∧ values !! j = Some Value_new
              | Some found =>
                  match found !! feature_name with
                  | None =>
                      statuses !! j = Some NOT_FOUND
                      ∧ values !! j = Some Value_new
                  | Some v =>
                      statuses !! j = Some PRESENT ∧ values !! j = Some v
                  end
              end.
Proof.
  intros Hread. unfold _read_from_online_store. rewrite Hread. cbn [bind].
  exists (read_row_proto Value_new FromDatetime requested_features <$> read_rows).
  split_and!; [done|by rewrite length_fmap|].
  intros i row_ts feature_data Hi.
  rewrite (list_lookup_fmap _ read_rows), Hi. cbn [fmap option_fmap option_map].
  destruct feature_data as [found|]; cbn [read_row_proto].
  - eexists _, _, _. split_and!; [done|done|by rewrite length_fmap..|].
    intros j feature_name Hj. rewrite !list_lookup_fmap, Hj. simpl.
    by destruct (found !! feature_name).
  - eexists _, _, _. split_and!; [done|done|by rewrite length_replicate..|].
    intros j feature_name Hj. apply lookup_lt_Some in Hj.
    by rewrite !lookup_replicate_2.
Qed.
End ReadFromOnlineStore.

(** ** Loops and dictionaries *)

Lemma foldM_invariant {A S : Type} (I : S → Prop) (body : S → A → Result S)
    (l : list A) (s s' : S) :
  I s →
  (∀ s x s', x ∈ l → I s → body s x = inr s' → I s') →
  foldM body s l = inr s' → I s'.
Proof.
  revert s. induction l as [|x l IH]; intros s Hs Hstep Hrun; simpl in Hrun.
  - by inversion Hrun; subst.
  - apply bind_inr in Hrun as (s1 & Hs1 & Hrun).
    apply (IH s1); [|intros ? ? ? ?; apply Hstep; by right|done].
    eapply Hstep; [by left|done..].
Qed.

Section DictProperties.
Context {K V : Type} `{!EqDecision K}.
Implicit Types (d : dict K V) (k : K) (v : V).

Lemma dict_get_set d k k' v :
  dict_get k (dict_set k' v d)
  = if decide (k = k') then Some v else dict_get k d.
Proof.
  induction d as [|[k0 v0] d IH]; simpl.
  - done.
  - destruct (decide (k' = k0)) as [->|Hne]; simpl.
    + by destruct (decide (k = k0)).
    + rewrite IH. destruct (decide (k = k0)) as [->|]; [|done].
      by rewrite decide_False by done.
Qed.

Lemma dict_get_elem d k v : dict_get k d = Some v → (k, v) ∈ d.
Proof.
  induction d as [|[k0 v0] d IH]; simpl; [done|].
  case_decide; [intros [= ->]; subst; by left|intros; right; auto].
Qed.

Lemma dict_get_of_list (pairs : list (K * V)) k v :
  dict_get k (dict_of_list pairs) = Some v → (k, v) ∈ pairs.
Proof.
  unfold dict_of_list.
  assert (∀ d, dict_get k (foldl (λ d kv, dict_set kv.1 kv.2 d) d pairs) = Some v →
               dict_get k d = Some v ∨ (k, v) ∈ pairs) as H.
  { induction pairs as [|[k0 v0] pairs IH]; intros d Hget; simpl in *; [by left|].
    destruct (IH _ Hget) as [Hd|Hin]; [|right; by right].
    rewrite dict_get_set in Hd. simpl in Hd. case_decide; [|by left].
    simplify_eq. right. by left. }
  intros Hget. by destruct (H [] Hget).
Qed.

Lemma dict_get_None d k : dict_get k d = None ↔ k ∉ dict_keys d.
Proof.
  unfold dict_keys. induction d as [|[k0 v0] d IH]; simpl.
  - split; [intros _ ?%elem_of_nil; done|done].
  - rewrite not_elem_of_cons. case_decide; [|tauto]. split; [done|tauto].
Qed.
End DictProperties.

(** ** Echo columns and the augmenter *)

Section Columns.
Context {Value : Type} `{!EqDecision Value}.

Lemma populate_result_rows_from_columnar_app
    (resp : GetOnlineFeaturesResponse Value) (data : dict string (list Value)) :
  _populate_result_rows_from_columnar resp data
  = {| feature_names := feature_names resp ++ dict_keys data;
       results := results resp ++ (echo_vector Timestamp_new <$> dict_values data) |}.
Proof.
  unfold _populate_result_rows_from_columnar. revert resp.
  induction data as [|[k v] data IH]; intros resp; simpl.
  - rewrite !app_nil_r. by destruct resp.
  - rewrite IH. simpl. by rewrite <- !app_assoc.
Qed.

(** What the augmenter appends: one [odfv_vector] per selected output
    column of a requested view's transformation of the response it was
    given. *)
Lemma augment_response_appends (resp resp' : GetOnlineFeaturesResponse Value)
    (feature_refs : list string) (odfvs : list (OnDemandFeatureView Value))
    (full_feature_names : bool) :
  _augment_response_with_on_demand_transforms resp feature_refs odfvs
    full_feature_names = inr resp' →
  ∃ names new,
    feature_names resp' = feature_names resp ++ names
    ∧ results resp' = results resp ++ new
    ∧ length names = length new
    ∧ Forall (λ fv, ∃ odfv col,
                odfv ∈ odfvs
                ∧ col ∈ get_transformed_features odfv resp full_feature_names
                ∧ fv = odfv_vector col.2) new.
Proof.
  unfold _augment_response_with_on_demand_transforms. intros Hrun.
  apply bind_inr in Hrun as (odfv_feature_refs & _ & Hrun).
  eapply (foldM_invariant
            (λ cur, ∃ names new,
               feature_names cur = feature_names resp ++ names
               ∧ results cur = results resp ++ new
               ∧ length names = length new
               ∧ Forall (λ fv, ∃ odfv col,
                           odfv ∈ odfvs
                           ∧ col ∈ get_transformed_features odfv resp
                                    full_feature_names
                           ∧ fv = odfv_vector col.2) new));
    [| |exact Hrun].
  - exists [], []. rewrite !app_nil_r. by split_and!.
  - intros cur [view refs] cur' _ (names & new & Hn & Hr & Hlen & Hnew) Hstep.
    cbn beta iota in Hstep.
    destruct (dict_get view
                (dict_of_list ((λ odfv, (odfv_name odfv, odfv)) <$> odfvs)))
      as [odfv|] eqn:Hget; [|discriminate Hstep].
    apply dict_get_of_list in Hget.
    apply list_elem_of_fmap in Hget as (odfv' & Heq & Hodfv).
    injection Heq as _ <-.
    injection Hstep as <-. cbn [feature_names results].
    rewrite Hn, Hr, <- !app_assoc.
    eexists _, _. split; [reflexivity|]. split; [reflexivity|]. split.
    + rewrite !length_app, !length_fmap. by rewrite Hlen.
    + apply Forall_app. split; [exact Hnew|].
      apply Forall_fmap, Forall_fmap, Forall_forall. intros col Hcol.
      apply list_elem_of_filter in Hcol as [_ Hcol].
      exists odfv, col. by split_and!.
Qed.
End Columns.

Section ColumnTheorems.
Context {Value : Type} `{!EqDecision Value}.

(** C10. Every vector the augmenter appends for a computed feature holds
    the values of an output column of a requested view's transformation of
    the whole response it was given, and the status of every one of its
    rows is [PRESENT], whatever the values are: no row of it is
    [NOT_FOUND]. *)
Theorem augment_statuses_all_present
    (resp resp' : GetOnlineFeaturesResponse Value)
    (feature_refs : list string) (odfvs : list (OnDemandFeatureView Value))
    (full_feature_names : bool) :
  _augment_response_with_on_demand_transforms resp feature_refs odfvs
    full_feature_names = inr resp' →
  ∃ new,
    results resp' = results resp ++ new
    ∧ Forall (λ fv,
                (∃ odfv col,
                   odfv ∈ odfvs
                   ∧ col ∈ get_transformed_features odfv resp full_feature_names
                   ∧ values fv = col.2)
                ∧ statuses fv = replicate (length (values fv)) PRESENT
                ∧ NOT_FOUND ∉ statuses fv) new.
Proof.
  intros Hrun.
  destruct (augment_response_appends _ _ _ _ _ Hrun)
    as (names & new & _ & Hres & _ & Hnew).
  exists new. split; [done|].
  eapply Forall_impl; [exact Hnew|]. intros fv (odfv & col & Hodfv & Hcol & ->).
  split_and!; [by exists odfv, col|done|].
  simpl. intros Hin. apply elem_of_replicate in Hin as [? _]. done.
Qed.

(** C7, as the code has it. Echo columns are appended in the order of the
    columns given, one vector per column: the column's values, the status
    [PRESENT] for every row, and for every row the one timestamp
    [Timestamp()], the zero timestamp. Every vector the augmenter appends
    has the status [PRESENT] and the timestamp [Timestamp()] for every
    row. *)
Theorem echo_and_computed_vectors_default_timestamp :
  (∀ (resp : GetOnlineFeaturesResponse Value) (data : dict string (list Value)),
     feature_names (_populate_result_rows_from_columnar resp data)
       = feature_names resp ++ dict_keys data
     ∧ results (_populate_result_rows_from_columnar resp data)
       = results resp
         ++ ((λ feature_values,
                {| values := feature_values;
                   statuses := replicate (length feature_values) PRESENT;
                   event_timestamps :=
                     replicate (length feature_values)
                       {| seconds := 0; nanos := 0 |} |})
               <$> dict_values data))
  ∧ (∀ (resp resp' : GetOnlineFeaturesResponse Value) feature_refs odfvs
       full_feature_names,
       _augment_response_with_on_demand_transforms resp feature_refs odfvs
         full_feature_names = inr resp' →
       ∃ new,
         results resp' = results resp ++ new
         ∧ Forall (λ fv,
                     statuses fv = replicate (length (values fv)) PRESENT
                     ∧ event_timestamps fv
                       = replicate (length (values fv))
                           {| seconds := 0; nanos := 0 |}) new).
Proof.
  split.
  - intros resp data. by rewrite populate_result_rows_from_columnar_app.
  - intros resp resp' feature_refs odfvs full Hrun.
    destruct (augment_response_appends _ _ _ _ _ Hrun)
      as (names & new & _ & Hres & _ & Hnew).
    exists new. split; [done|].
    eapply Forall_impl; [exact Hnew|]. by intros fv (odfv & col & _ & _ & ->).
Qed.
End ColumnTheorems.

(** ** The final trim *)

Lemma enumerate_snoc {A : Type} (l : list A) (x : A) :
  enumerate (l ++ [x]) = enumerate l ++ [(length l, x)].
Proof.
  unfold enumerate. rewrite length_app. simpl.
  rewrite seq_app. simpl. rewrite zip_with_app by (by rewrite length_seq). done.
Qed.

Section DropUnneededColumns.
Context {Value : Type}.
Implicit Types (ns : list string) (rs : list (FeatureVector Value))
  (req : gset string).

(** The indexes [_drop_unneeded_columns] deletes. *)
Let unneeded req ns : list nat :=
  omap (λ '(idx, val), if decide (val ∉ req) then Some idx else None)
    (enumerate ns).

(** The loop body of [_drop_unneeded_columns]. *)
Let del (resp : GetOnlineFeaturesResponse Value) (idx : nat)
  : Result (GetOnlineFeaturesResponse Value) :=
  if decide (idx < length (feature_names resp) ∧ idx < length (results resp))
  then inr {| feature_names := delete idx (feature_names resp);
              results := delete idx (results resp) |}
  else raise IndexError.

Lemma del_middle ns rs sn sr (x : string) (v : FeatureVector Value) :
  length ns = length rs →
  del {| feature_names := ns ++ x :: sn; results := rs ++ v :: sr |} (length ns)
  = inr {| feature_names := ns ++ sn; results := rs ++ sr |}.
Proof.
  intros Hlen. unfold del. cbn [feature_names results].
  rewrite decide_True by (rewrite !length_app; simpl; lia).
  rewrite delete_middle. rewrite Hlen. by rewrite delete_middle.
Qed.

Lemma drop_loop req ns rs sn sr :
  length ns = length rs →
  foldM del {| feature_names := ns ++ sn; results := rs ++ sr |}
    (reverse (unneeded req ns))
  = inr {| feature_names := (filter (λ p, p.1 ∈ req) (zip ns rs)).*1 ++ sn;
           results := (filter (λ p, p.1 ∈ req) (zip ns rs)).*2 ++ sr |}.
Proof.
  revert rs sn sr. induction ns as [|x ns IH] using rev_ind; intros rs sn sr Hlen.
  - destruct rs; [done|discriminate].
  - destruct rs as [|v rs _] using rev_ind.
    { rewrite length_app in Hlen. simpl in Hlen. lia. }
    rewrite !length_app in Hlen. simpl in Hlen.
    assert (length ns = length rs) as Hlen' by lia.
    unfold unneeded. rewrite enumerate_snoc, omap_app. simpl.
    rewrite zip_with_app by done. rewrite filter_app, !fmap_app. simpl.
    destruct (decide (x ∉ req)) as [Hx|Hx].
    + rewrite reverse_app. rewrite <- !app_assoc.
      cbn [reverse rev_append app foldM].
      rewrite del_middle by done. cbn [bind].
      fold (unneeded req ns). rewrite IH by done.
      rewrite filter_cons_False by (simpl; done).
      rewrite filter_nil. cbn [fmap list_fmap]. rewrite ?app_nil_r. done.
    + rewrite app_nil_r, <- !app_assoc. cbn [app].
      fold (unneeded req ns). rewrite IH by done.
      rewrite filter_cons_True by (simpl; by apply dec_stable).
      rewrite filter_nil. cbn [fmap list_fmap fst snd].
      by rewrite <- ?app_assoc.
Qed.

(** On a response whose names and vectors are parallel, the final trim
    returns, in their order, exactly the named vectors whose name is in
    the set of requested names. *)
Lemma drop_unneeded_columns_filter (resp : GetOnlineFeaturesResponse Value) req :
  length (feature_names resp) = length (results resp) →
  _drop_unneeded_columns resp req
  = inr {| feature_names :=
             (filter (λ p, p.1 ∈ req)
                (zip (feature_names resp) (results resp))).*1;
           results :=
             (filter (λ p, p.1 ∈ req)
                (zip (feature_names resp) (results resp))).*2 |}.
Proof.
  intros Hlen. destruct resp as [ns rs]. simpl in *.
  pose proof (drop_loop req ns rs [] [] Hlen) as H.
  rewrite !app_nil_r in H. exact H.
Qed.
End DropUnneededColumns.

(** ** Row counts *)

Lemma validate_entity_values_lengths {V : Type}
    (join_key_values : dict string (list V)) (N : nat) :
  _validate_entity_values join_key_values = inr N →
  Forall (λ col, length col = N) (dict_values join_key_values).
Proof.
  unfold _validate_entity_values.
  set (X := list_to_set (length <$> dict_values join_key_values) : gset nat).
  case_decide as Hsize; [done|].
  destruct (elements X) as [|n l] eqn:Hel; [done|]. intros [= ->].
  assert (l = []) as ->.
  { assert (size X = length (elements X)) as Hs by reflexivity.
    assert (length (elements X) ≤ 1)%nat as Hle by lia.
    rewrite Hel in Hle. simpl in Hle. destruct l; [done|simpl in Hle; lia]. }
  apply Forall_forall. intros col Hcol.
  assert (length col ∈ X) as Hin.
  { unfold X. apply elem_of_list_to_set, list_elem_of_fmap. eauto. }
  apply elem_of_elements in Hin. rewrite Hel in Hin.
  by apply list_elem_of_singleton in Hin.
Qed.

Section DictValues.
Context {K V : Type} `{!EqDecision K} (P : V → Prop).

Lemma dict_set_values_Forall (d : dict K V) (k : K) (v : V) :
  Forall P (dict_values d) → P v → Forall P (dict_values (dict_set k v d)).
Proof.
  unfold dict_values. induction d as [|[k0 v0] d IH]; simpl; intros Hd Hv.
  - by repeat constructor.
  - apply Forall_cons in Hd as [H0 Hd]. case_decide; simpl; constructor; auto.
Qed.

Lemma dict_of_list_values_Forall (pairs : list (K * V)) :
  Forall P pairs.*2 → Forall P (dict_values (dict_of_list pairs)).
Proof.
  unfold dict_of_list.
  assert (∀ d, Forall P (dict_values d) → Forall P pairs.*2 →
               Forall P (dict_values (foldl (λ d kv, dict_set kv.1 kv.2 d) d pairs)))
    as H.
  { induction pairs as [|[k v] pairs IH]; intros d Hd Hp; simpl in *; [done|].
    apply Forall_cons in Hp as [Hv Hp].
    apply IH; [|done]. by apply dict_set_values_Forall. }
  intros Hp. apply H; [constructor|done].
Qed.
End DictValues.

Section Shapes.
Context {A : Type}.

Lemma apply_list_mapping_length (lst : list A) (idxs : list (list nat))
    (out : list (option A)) :
  apply_list_mapping lst idxs = inr out →
  length out = sum_list (length <$> idxs).
Proof.
  unfold apply_list_mapping. intros Hrun.
  rewrite <- (length_replicate (sum_list (length <$> idxs)) (@None A)).
  revert Hrun.
  apply (foldM_invariant
           (λ o, length o
                 = length (replicate (sum_list (length <$> idxs)) (@None A))));
    [done|].
  intros o [elem dests] o' _ Ho.
  apply (foldM_invariant
           (λ o1, length o1
                  = length (replicate (sum_list (length <$> idxs)) (@None A))));
    [done|].
  intros o1 idx o1' _ Ho1. unfold setitem. case_decide; [|done].
  intros [= <-]. by rewrite length_insert.
Qed.

Lemma repeated_length (l : list (option A)) (l' : list A) :
  repeated l = inr l' → length l' = length l.
Proof. apply mapM_length. Qed.
End Shapes.

Section PipelineShapes.
Context {Value : Type} `{!EqDecision Value} (Value_new : Value).
Context {datetime : Type} (FromDatetime : datetime → Timestamp).
Context (sort_key_lt : list Value → list Value → bool).

Lemma scatter_vector_rows (tv : list Timestamp) (sv : list FieldStatus)
    (vv : list Value) (idxs : list (list nat)) (fv : FeatureVector Value) :
  scatter_vector tv sv vv idxs = inr fv →
  has_rows (sum_list (length <$> idxs)) fv.
Proof.
  unfold scatter_vector. intros H.
  apply bind_inr in H as (vs & Hvs%apply_list_mapping_length & H).
  apply bind_inr in H as (ss & Hss%apply_list_mapping_length & H).
  apply bind_inr in H as (ts & Hts%apply_list_mapping_length & H).
  apply bind_inr in H as (vs' & Hvs'%repeated_length & H).
  apply bind_inr in H as (ss' & Hss'%repeated_length & H).
  apply bind_inr in H as (ts' & Hts'%repeated_length & H).
  injection H as <-. unfold has_rows. simpl. split_and!; congruence.
Qed.

Lemma populate_response_rows
    (feature_data : list (list Timestamp * list FieldStatus * list Value))
    (idxs : list (list nat)) (resp resp' : GetOnlineFeaturesResponse Value)
    (full_feature_names : bool) (requested_features : list string)
    (table : FeatureView) (N : nat) :
  response_has_rows N resp →
  sum_list (length <$> idxs) = N →
  Forall (λ d, length d.1.1 = length requested_features
               ∧ length d.1.2 = length requested_features
               ∧ length d.2 = length requested_features) feature_data →
  _populate_response_from_feature_data feature_data idxs resp
    full_feature_names requested_features table = inr resp' →
  response_has_rows N resp'.
Proof.
  intros [Hsync Hrows] Hsum Hdata. unfold _populate_response_from_feature_data.
  intros H. apply bind_inr in H as ([[timestamps statuses] vals] & Hunpack & H).
  apply bind_inr in H as (vectors & Hvec & H). injection H as <-.
  destruct feature_data as [|d0 feature_data]; [done|].
  injection Hunpack as <- <- <-.
  pose proof (mapM_length _ _ _ Hvec) as Hlen.
  pose proof (mapM_Forall2 _ _ _ Hvec) as Hall.
  rewrite !length_zip_with in Hlen.
  pose proof Hdata as Hd. apply Forall_cons in Hd as [(H1 & H2 & H3) Hd].
  repeat match type of Hlen with
  | context [length (zip_star ?l)] =>
      rewrite (zip_star_length l (length requested_features)) in Hlen;
      [|done|constructor; [done|]; apply Forall_fmap;
             eapply Forall_impl; [exact Hd|]; by intros ? (? & ? & ?)]
  end.
  split; simpl.
  - rewrite !length_app, length_fmap. lia.
  - apply Forall_app. split; [done|].
    eapply Forall2_Forall_r; [exact Hall|]. clear Hlen.
    apply Forall_forall. intros [[tv sv] vv] _ fv Hfv.
    rewrite <- Hsum. by eapply scatter_vector_rows.
Qed.

Lemma read_from_online_store_lengths
    (self : FeatureStore (Value := Value) (datetime := datetime))
    (entity_rows : list (dict string Value)) (requested_features : list string)
    (table : FeatureView)
    (feature_data : list (list Timestamp * list FieldStatus * list Value)) :
  _read_from_online_store Value_new FromDatetime self entity_rows
    requested_features table = inr feature_data →
  Forall (λ d, length d.1.1 = length requested_features
               ∧ length d.1.2 = length requested_features
               ∧ length d.2 = length requested_features) feature_data.
Proof.
  unfold _read_from_online_store. intros H.
  apply bind_inr in H as (read_rows & _ & H). injection H as <-.
  apply Forall_fmap, Forall_forall. intros [row_ts [found|]] _; simpl;
    by rewrite ?length_replicate, ?length_fmap.
Qed.

Lemma table_entity_values_Forall (P : list Value → Prop) (table : FeatureView)
    (entity_name_to_join_key_map : dict string string)
    (join_key_values tev : dict string (list Value)) :
  Forall P (dict_values join_key_values) →
  _get_table_entity_values table entity_name_to_join_key_map join_key_values
    = inr tev →
  Forall P (dict_values tev).
Proof.
  intros HP. unfold _get_table_entity_values. intros H.
  apply bind_inr in H as (table_join_keys & _ & H). injection H as <-.
  apply dict_of_list_values_Forall. unfold dict_values in HP.
  induction join_key_values as [|[k v] jkv IH]; simpl; [constructor|].
  apply Forall_cons in HP as [Hv HP].
  destruct (bool_decide _); simpl; [constructor|]; auto.
Qed.

Lemma get_unique_entities_sum (table : FeatureView)
    (join_key_values : dict string (list Value))
    (entity_name_to_join_key_map : dict string string)
    (unique : list (dict string Value)) (idxs : list (list nat)) (N : nat) :
  Forall (λ col, length col = N) (dict_values join_key_values) →
  _get_unique_entities sort_key_lt table join_key_values
    entity_name_to_join_key_map = inr (unique, idxs) →
  partitions idxs N.
Proof.
  intros Hcols Hrun.
  destruct (_get_table_entity_values table entity_name_to_join_key_map
              join_key_values) as [e|tev] eqn:Htev.
  { unfold _get_unique_entities in Hrun. by rewrite Htev in Hrun. }
  pose proof (table_entity_values_Forall _ _ _ _ _ Hcols Htev) as Htevcols.
  rewrite (get_unique_entities_unfold _ _ _ _ _ Htev) in Hrun.
  pose proof (key_groups_indexes sort_key_lt tev) as Hp.
  destruct (key_groups sort_key_lt tev) as [|kg groups] eqn:HG; [done|].
  injection Hrun as <- <-. unfold partitions.
  destruct tev as [|c tev].
  { by rewrite (proj2 (key_groups_nil sort_key_lt [])) in HG. }
  unfold composite_keys in Hp. rewrite (zip_star_length _ N) in Hp; done.
Qed.
End PipelineShapes.

Lemma dict_keys_set {K V : Type} `{!EqDecision K} (d : dict K V) (k k' : K) (v : V) :
  k' ∈ dict_keys (dict_set k v d) ↔ k' = k ∨ k' ∈ dict_keys d.
Proof.
  unfold dict_keys. induction d as [|[k0 v0] d IH]; simpl.
  - rewrite list_elem_of_singleton. split; [by left|]. intros [|?%elem_of_nil]; done.
  - case_decide; simpl; rewrite !elem_of_cons; [subst; tauto|]. rewrite IH. tauto.
Qed.

Section Classify.
Context {Value : Type}.
Context (needed_request_data needed_request_fv_features join_keys_set : gset string).
Context (entity_name_to_join_key_map : dict string string).

(** The loop over the entity columns: the names it adds to the requested
    names are every join key it files a column under and every request
    data column that is a feature of a request feature view. The columns
    it files are columns it was given. *)
Lemma classify_columns (P : list Value → Prop) (names0 names : gset string)
    (columns jkv rdf : dict string (list Value)) :
  Forall P (dict_values columns) →
  foldM (classify_column needed_request_data needed_request_fv_features
           join_keys_set entity_name_to_join_key_map)
    (names0, [], []) columns = inr (names, jkv, rdf) →
  Forall P (dict_values jkv) ∧ Forall P (dict_values rdf)
  ∧ ∀ k, k ∈ names ↔
         k ∈ names0 ∨ k ∈ dict_keys jkv
         ∨ (k ∈ dict_keys rdf ∧ k ∈ needed_request_fv_features).
Proof.
  intros Hcols Hrun.
  set (I := λ st : gset string * dict string (list Value) * dict string (list Value),
         Forall P (dict_values st.1.2) ∧ Forall P (dict_values st.2)
         ∧ ∀ k, k ∈ st.1.1 ↔
                k ∈ names0 ∨ k ∈ dict_keys st.1.2
                ∨ (k ∈ dict_keys st.2 ∧ k ∈ needed_request_fv_features)).
  change (I (names, jkv, rdf)). revert Hrun. apply foldM_invariant.
  - unfold I. simpl. split_and!; [constructor..|].
    intros k. split; [by left|]. unfold dict_keys. simpl.
    intros [?|[?%elem_of_nil|[?%elem_of_nil _]]]; done.
  - intros [[ns j] r] [name vals] st' Hin (Hj & Hr & Hns). simpl in Hj, Hr, Hns.
    assert (P vals) as Hvals.
    { unfold dict_values in Hcols. rewrite Forall_forall in Hcols.
      apply Hcols. apply list_elem_of_fmap. by exists (name, vals). }
    unfold classify_column. case_decide as Hreq.
    + intros [= <-]. unfold I. simpl. split_and!; [done| |].
      { by apply dict_set_values_Forall. }
      intros k. rewrite dict_keys_set. case_decide as Hfv.
      * rewrite elem_of_union, elem_of_singleton, Hns. split; [|tauto].
        intros [?| ->]; tauto.
      * rewrite Hns. split; [tauto|]. intros [?|[?|[[ -> |?] ?]]]; tauto.
    + intros H. apply bind_inr in H as (join_key & _ & H). injection H as <-.
      unfold I. simpl. split_and!; [|done|].
      { by apply dict_set_values_Forall. }
      intros k. rewrite dict_keys_set, elem_of_union, elem_of_singleton, Hns.
      tauto.
Qed.
End Classify.

Section Pipeline.
Context {Value : Type} `{!EqDecision Value} (Value_new : Value).
Context {datetime : Type} (FromDatetime : datetime → Timestamp).
Context (sort_key_lt : list Value → list Value → bool).
Context (DUMMY_ENTITY_NAME DUMMY_ENTITY_ID : string) (DUMMY_ENTITY_VAL : Value).
Context (get_feature : FeatureViewProjection → string → Result unit).

Local Abbreviation prepare' :=
  (prepare DUMMY_ENTITY_NAME DUMMY_ENTITY_ID DUMMY_ENTITY_VAL get_feature).
Local Abbreviation fetch_tables' :=
  (fetch_tables Value_new FromDatetime sort_key_lt).
Local Abbreviation run :=
  (_get_online_features Value_new FromDatetime sort_key_lt DUMMY_ENTITY_NAME
     DUMMY_ENTITY_ID DUMMY_ENTITY_VAL get_feature).

Lemma dict_set_nonempty {K V : Type} `{!EqDecision K} (d : dict K V)
    (k : K) (v : V) : dict_set k v d ≠ [].
Proof. destruct d as [|[k0 v0] d]; simpl; [done|]. by case_decide. Qed.

Lemma prepare_rows (self : FeatureStore (Value := Value) (datetime := datetime))
    (features : Features) (entity_values : dict string (list Value))
    (full_feature_names : bool) (p : Prepared) :
  prepare' self features entity_values full_feature_names = inr p →
  _validate_entity_values entity_values = inr (num_rows p)
  ∧ response_has_rows (num_rows p) (online_features_response p)
  ∧ results (online_features_response p) ≠ []
  ∧ Forall (λ col, length col = num_rows p) (dict_values (join_key_values p))
  ∧ ∃ fvs rfvs,
      _get_feature_views_to_use self features
      = inr (fvs, rfvs, requested_on_demand_feature_views p).
Proof.
  unfold prepare. intros H.
  apply bind_inr in H as (refs & _ & H).
  apply bind_inr in H as ([[fvs rfvs] odfvs] & Hviews & H).
  apply bind_inr in H as ([map jks] & _ & H).
  apply bind_inr in H as (N & HN & H).
  apply bind_inr in H as (_ & _ & H).
  apply bind_inr in H as ([[[grouped godfv] grfv] rvr] & _ & H).
  destruct (get_needed_request_data godfv grfv) as [nrd nrfv].
  apply bind_inr in H as ([[names jkv] rdf] & Hclass & H).
  apply bind_inr in H as (_ & _ & H).
  apply bind_inr in H as (data & Hdata & H).
  injection H as <-. cbn [num_rows online_features_response join_key_values
                            requested_on_demand_feature_views].
  pose proof (validate_entity_values_lengths _ _ HN) as Hcols.
  destruct (classify_columns _ _ _ _ _ _ _ _ _ _ Hcols Hclass) as (Hj & Hr & _).
  split_and!; [done| | | |by eauto].
  - rewrite populate_result_rows_from_columnar_app.
    unfold dict_kwargs in Hdata. case_decide; [done|]. injection Hdata as <-.
    unfold response_has_rows, dict_keys, dict_values. simpl.
    split; [by rewrite !length_fmap|].
    apply Forall_fmap. rewrite fmap_app. apply Forall_app.
    unfold dict_values in Hj, Hr.
    split; (eapply Forall_impl; [eassumption|]);
      intros col Hcol; unfold has_rows; simpl;
      by rewrite !length_replicate.
  - rewrite populate_result_rows_from_columnar_app.
    unfold dict_kwargs in Hdata. case_decide; [done|]. injection Hdata as <-.
    cbn [results app]. unfold dict_values. rewrite !fmap_app.
    assert (jkv ≠ [] ∨ rdf ≠ []) as Hne.
    { destruct entity_values as [|column columns]; [done|].
      cbn [foldM] in Hclass.
      apply bind_inr in Hclass as ([[names1 jkv1] rdf1] & Hfirst & Hrest).
      revert Hrest.
      apply (foldM_invariant
               (λ st : gset string * dict string (list Value)
                       * dict string (list Value),
                  st.1.2 ≠ [] ∨ st.2 ≠ [])).
      - destruct column as [name vals]. unfold classify_column in Hfirst.
        case_decide.
        + injection Hfirst as E1 E2 E3; subst. cbn [fst snd]. right.
          first [by apply dict_set_nonempty|done].
        + apply bind_inr in Hfirst as (join_key & _ & Hfirst).
          injection Hfirst as E1 E2 E3; subst. cbn [fst snd]. left.
          first [by apply dict_set_nonempty|done].
      - intros [[ns j] r] [name' vals'] st' _ Hst. unfold classify_column.
        case_decide.
        + intros [= <-]. cbn [fst snd]. right. first [by apply dict_set_nonempty|done].
        + intros H'. apply bind_inr in H' as (join_key & _ & H').
          injection H' as <-. cbn [fst snd]. left. first [by apply dict_set_nonempty|done]. }
    intros Heq. apply app_eq_nil in Heq as [H1 H2].
    apply fmap_nil_inv in H1, H2. apply fmap_nil_inv in H1, H2. tauto.
  - destruct (bool_decide _); [|done].
    apply dict_set_values_Forall; [done|]. by rewrite length_replicate.
Qed.

Lemma fetch_tables_rows (self : FeatureStore (Value := Value) (datetime := datetime))
    (grouped_refs : list (FeatureView * list string))
    (jkv : dict string (list Value)) (map : dict string string)
    (full_feature_names : bool) (N : nat)
    (resp resp' : GetOnlineFeaturesResponse Value) (reads reads' : list ReadCall) :
  Forall (λ col, length col = N) (dict_values jkv) →
  response_has_rows N resp ∧ results resp ≠ [] →
  fetch_tables' self grouped_refs jkv map full_feature_names resp reads
    = (reads', inr resp') →
  response_has_rows N resp' ∧ results resp' ≠ [].
Proof.
  intros Hcols. revert resp reads.
  induction grouped_refs as [|[table rf] rest IH]; intros resp reads Hresp Hrun;
    simpl in Hrun.
  - by injection Hrun as _ <-.
  - destruct (_get_unique_entities sort_key_lt table jkv map)
      as [e|[tev idxs]] eqn:Huniq; [done|].
    pose proof (get_unique_entities_sum _ _ _ _ _ _ _ Hcols Huniq) as Hp.
    destruct (partitions_facts _ _ Hp) as (Hsum & _).
    destruct (_read_from_online_store Value_new FromDatetime self tev rf table)
      as [e|feature_data] eqn:Hread; simpl in Hrun; [done|].
    destruct (_populate_response_from_feature_data feature_data idxs resp
                full_feature_names rf table) as [e|resp1] eqn:Hpop; [done|].
    destruct Hresp as [Hresp Hne].
    eapply IH; [|exact Hrun]. split.
    + eapply populate_response_rows; [exact Hresp|exact Hsum| |exact Hpop].
      by eapply read_from_online_store_lengths.
    + unfold _populate_response_from_feature_data in Hpop.
      apply bind_inr in Hpop as (unpacked & Hunpack & Hpop).
      destruct unpacked as [[? ?] ?].
      apply bind_inr in Hpop as (vectors & Hvec & Hpop). injection Hpop as <-.
      cbn [results]. by intros [? _]%app_eq_nil.
Qed.

(** C3. For every request that is answered, on a batch of [N] rows: the
    response has as many names as vectors, and every vector left by the
    final trim has exactly [N] values, [N] statuses and [N] event
    timestamps. The transformations of the on demand feature views are
    taken to return columns of as many rows as the (non-empty) response
    they are given. *)
Theorem get_online_features_row_count
    (self : FeatureStore (Value := Value) (datetime := datetime))
    (features : Features) (entity_values : dict string (list Value))
    (full_feature_names : bool) (N : nat)
    (reads : list ReadCall) (resp : GetOnlineFeaturesResponse Value) :
  _validate_entity_values entity_values = inr N →
  (∀ fvs rfvs odfvs odfv r col,
     _get_feature_views_to_use self features = inr (fvs, rfvs, odfvs) →
     odfv ∈ odfvs → response_has_rows N r → results r ≠ [] →
     col ∈ get_transformed_features odfv r full_feature_names →
     length col.2 = N) →
  run self features entity_values full_feature_names = (reads, inr resp) →
  response_has_rows N resp.
Proof.
  intros HN Htransform. unfold _get_online_features.
  destruct (prepare' self features entity_values full_feature_names)
    as [e|p] eqn:Hprep; [done|].
  destruct (prepare_rows _ _ _ _ _ Hprep)
    as (HN' & Hresp & Hne & Hcols & fvs & rfvs & Hviews).
  rewrite HN in HN'. injection HN' as HNp. rewrite <- HNp in Hresp, Hcols.
  destruct (fetch_tables' self (grouped_refs p) (join_key_values p)
              (entity_name_to_join_key_map p) full_feature_names
              (online_features_response p) []) as [reads1 fetched] eqn:Hfetch.
  intros [= _ Hrun].
  apply bind_inr in Hrun as (resp1 & -> & Hrun).
  apply bind_inr in Hrun as (resp2 & Haug & Hrun).
  pose proof (fetch_tables_rows _ _ _ _ _ _ _ _ _ _ Hcols (conj Hresp Hne) Hfetch)
    as [H1 Hne1].
  assert (response_has_rows N resp2) as [Hsync2 Hrows2].
  { destruct (grouped_odfv_refs p); [by injection Haug as <-|].
    destruct (augment_response_appends _ _ _ _ _ Haug)
      as (names & new & Hn & Hr & Hlen & Hnew).
    pose proof H1 as [Hsync Hrows]. split.
    - rewrite Hn, Hr, !length_app. lia.
    - rewrite Hr. apply Forall_app. split; [done|].
      eapply Forall_impl; [exact Hnew|].
      intros fv (odfv & col & Hodfv & Hcol & ->).
      pose proof (Htransform _ _ _ odfv resp1 col Hviews Hodfv H1 Hne1 Hcol) as Hl.
      unfold has_rows, odfv_vector. simpl. by rewrite !length_replicate. }
  rewrite drop_unneeded_columns_filter in Hrun by done. injection Hrun as <-.
  split; simpl.
  - by rewrite !length_fmap.
  - apply Forall_fmap, Forall_forall. intros [n fv] Hin.
    apply list_elem_of_filter in Hin as [_ Hin]. simpl.
    rewrite Forall_forall in Hrows2. apply Hrows2.
    apply list_elem_of_lookup in Hin as [i Hi].
    apply lookup_zip_with_Some in Hi as (? & ? & [= <- <-] & _ & Hi).
    by eapply list_elem_of_lookup_2.
Qed.
End Pipeline.

(** ** Requests that are refused *)

Lemma validate_entity_values_mismatch {V : Type}
    (join_key_values : dict string (list V)) (c1 c2 : list V) :
  c1 ∈ dict_values join_key_values → c2 ∈ dict_values join_key_values →
  length c1 ≠ length c2 →
  _validate_entity_values join_key_values
  = raise (ValueError "All entity rows must have the same columns.").
Proof.
  intros H1 H2 Hne. unfold _validate_entity_values.
  set (X := list_to_set (length <$> dict_values join_key_values) : gset nat).
  rewrite decide_True; [done|].
  assert ({[length c1]} ∪ {[length c2]} ⊆ X) as Hsub.
  { apply union_subseteq. split; apply singleton_subseteq_l;
      apply elem_of_list_to_set, list_elem_of_fmap; eauto. }
  apply subseteq_size in Hsub.
  rewrite size_union, !size_singleton in Hsub; [lia|]. set_solver.
Qed.

Section Refusals.
Context {Value : Type} `{!EqDecision Value} (Value_new : Value).
Context {datetime : Type} (FromDatetime : datetime → Timestamp).
Context (sort_key_lt : list Value → list Value → bool).
Context (DUMMY_ENTITY_NAME DUMMY_ENTITY_ID : string) (DUMMY_ENTITY_VAL : Value).
Context (get_feature : FeatureViewProjection → string → Result unit).

Local Abbreviation run :=
  (_get_online_features Value_new FromDatetime sort_key_lt DUMMY_ENTITY_NAME
     DUMMY_ENTITY_ID DUMMY_ENTITY_VAL get_feature).

End Refusals.

(** ** Grouping the references by view *)

Lemma foldM_app {A S : Type} (body : S → A → Result S) (s : S) (l1 l2 : list A) :
  foldM body s (l1 ++ l2) = do s' <- foldM body s l1; foldM body s' l2.
Proof.
  revert s. induction l1 as [|x l1 IH]; intros s; simpl; [done|].
  destruct (body s x); simpl; [done|]. apply IH.
Qed.

Lemma dict_keys_of_list {K V : Type} `{!EqDecision K} (pairs : list (K * V)) (k : K) :
  k ∈ dict_keys (dict_of_list pairs) ↔ k ∈ pairs.*1.
Proof.
  unfold dict_of_list.
  assert (∀ d, k ∈ dict_keys (foldl (λ d kv, dict_set kv.1 kv.2 d) d pairs)
               ↔ k ∈ dict_keys d ∨ k ∈ pairs.*1) as H.
  { induction pairs as [|[k0 v0] pairs IH]; intros d; simpl.
    - split; [by left|]. intros [?|?%elem_of_nil]; done.
    - rewrite IH, dict_keys_set, elem_of_cons. simpl. tauto. }
  rewrite H. unfold dict_keys. simpl. split; [|by right].
  intros [?%elem_of_nil|?]; done.
Qed.

Section GroupFeatureRefs.
Context {Value : Type}.
Context (get_feature : FeatureViewProjection → string → Result unit).

(** C8. A reference [view:feature] is resolved against the standard
    feature views first, then the on demand feature views, then the
    request feature views: it is filed under the first kind that has a view
    of that name, whatever the later kinds hold; and when no kind has a
    view of that name, [_group_feature_refs] raises
    [FeatureViewNotFoundException] with the name of the view, at the first
    such reference. *)
Theorem group_feature_refs_priority
    (all_feature_views : list FeatureView)
    (all_request_feature_views : list RequestFeatureView)
    (all_on_demand_feature_views : list (OnDemandFeatureView Value)) :
  let view_index : dict string FeatureView :=
    dict_of_list ((λ view, (name_to_use (projection view), view))
                    <$> all_feature_views) in
  let request_view_index : dict string RequestFeatureView :=
    dict_of_list ((λ view, (name_to_use (request_projection view), view))
                    <$> all_request_feature_views) in
  let on_demand_view_index : dict string (OnDemandFeatureView Value) :=
    dict_of_list ((λ view, (name_to_use (odfv_projection view), view))
                    <$> all_on_demand_feature_views) in
  let step :=
    group_feature_ref get_feature view_index request_view_index
      on_demand_view_index in
  (∀ st ref view_name feat_name,
     split_ref ref = inr (view_name, feat_name) →
     match dict_get view_name view_index with
     | Some view =>
         step st ref
         = do _ <- get_feature (projection view) feat_name;
           inr {| views_features :=
                    defaultdict_add view_name feat_name (views_features st);
                  request_views_features := request_views_features st;
                  request_view_refs := request_view_refs st;
                  on_demand_view_features := on_demand_view_features st |}
     | None =>
         match dict_get view_name on_demand_view_index with
         | Some odfv =>
             ∀ st', step st ref = inr st' →
               on_demand_view_features st'
               = defaultdict_add view_name feat_name (on_demand_view_features st)
               ∧ request_views_features st' = request_views_features st
               ∧ request_view_refs st' = request_view_refs st
         | None =>
             match dict_get view_name request_view_index with
             | Some request_view =>
                 step st ref
                 = do _ <- get_feature (request_projection request_view) feat_name;
                   inr {| views_features := views_features st;
                          request_views_features :=
                            defaultdict_add view_name feat_name
                              (request_views_features st);
                          request_view_refs := request_view_refs st ∪ {[ref]};
                          on_demand_view_features := on_demand_view_features st |}
             | None => step st ref = raise (FeatureViewNotFoundException view_name)
             end
         end
     end)
  ∧ (∀ before ref after view_name feat_name st,
       foldM step
         {| views_features := []; request_views_features := [];
            request_view_refs := ∅; on_demand_view_features := [] |}
         before = inr st →
       split_ref ref = inr (view_name, feat_name) →
       view_name ∉ (λ view, name_to_use (projection view)) <$> all_feature_views →
       view_name ∉ (λ view, name_to_use (odfv_projection view))
                     <$> all_on_demand_feature_views →
       view_name ∉ (λ view, name_to_use (request_projection view))
                     <$> all_request_feature_views →
       _group_feature_refs get_feature (before ++ ref :: after) all_feature_views
         all_request_feature_views all_on_demand_feature_views
       = raise (FeatureViewNotFoundException view_name)).
Proof.
  intros view_index request_view_index on_demand_view_index step.
  assert (∀ st ref view_name feat_name,
            split_ref ref = inr (view_name, feat_name) →
            dict_get view_name view_index = None →
            dict_get view_name on_demand_view_index = None →
            dict_get view_name request_view_index = None →
            step st ref = raise (FeatureViewNotFoundException view_name)) as Hnone.
  { intros st ref vn fn Href H1 H2 H3. unfold step, group_feature_ref.
    rewrite Href. cbn [bind]. by rewrite H1, H2, H3. }
  split.
  - intros st ref vn fn Href.
    destruct (dict_get vn view_index) as [view|] eqn:H1.
    { unfold step, group_feature_ref. rewrite Href. cbn [bind]. by rewrite H1. }
    destruct (dict_get vn on_demand_view_index) as [odfv|] eqn:H2.
    { intros st'. unfold step, group_feature_ref. rewrite Href. cbn [bind].
      rewrite H1, H2. intros H. apply bind_inr in H as (_ & _ & H).
      by injection H as <-. }
    destruct (dict_get vn request_view_index) as [rv|] eqn:H3.
    { unfold step, group_feature_ref. rewrite Href. cbn [bind].
      by rewrite H1, H2, H3. }
    by eapply Hnone.
  - intros before ref after vn fn st Hbefore Href Hfv Hod Hreq.
    unfold _group_feature_refs.
    fold view_index request_view_index on_demand_view_index. fold step.
    rewrite foldM_app, Hbefore. cbn [bind foldM].
    rewrite (Hnone st ref vn fn Href); [done|..].
    + apply dict_get_None. unfold view_index. rewrite dict_keys_of_list.
      by rewrite <- list_fmap_compose.
    + apply dict_get_None. unfold on_demand_view_index. rewrite dict_keys_of_list.
      by rewrite <- list_fmap_compose.
    + apply dict_get_None. unfold request_view_index. rewrite dict_keys_of_list.
      by rewrite <- list_fmap_compose.
Qed.
End GroupFeatureRefs.

(** ** Strings *)

Lemma split_no_sep (sep : ascii) (s : string) :
  mentions sep s = false → split sep s = [s].
Proof.
  induction s as [|c s IH]; simpl; [done|].
  intros [Hc Hs]%orb_false_elim. apply bool_decide_eq_false in Hc.
  rewrite decide_False by done. by rewrite IH.
Qed.

Lemma split_reference (view_name feat_name : string) :
  well_formed (view_name, feat_name) →
  split ":" (reference view_name feat_name) = [view_name; feat_name].
Proof.
  unfold well_formed, reference. simpl. intros [Hv Hf].
  induction view_name as [|c v IH]; simpl in *.
  - by rewrite split_no_sep.
  - apply orb_false_elim in Hv as [Hc Hv]. apply bool_decide_eq_false in Hc.
    rewrite decide_False by done. by rewrite IH.
Qed.

Lemma reference_inj (p q : string * string) :
  well_formed p → well_formed q →
  reference p.1 p.2 = reference q.1 q.2 → p = q.
Proof.
  destruct p as [v f], q as [v' f']. intros Hp Hq Heq.
  pose proof (split_reference v f Hp) as H1.
  pose proof (split_reference v' f' Hq) as H2.
  simpl in Heq. rewrite Heq in H1. congruence.
Qed.

Lemma endswith_cons (c : ascii) (s t : string) :
  endswith (String c s) t = bool_decide (String c s = t) || endswith s t.
Proof. done. Qed.

Lemma endswith_no_colon (s t : string) :
  mentions ":" s = false → endswith s (String ":" t) = false.
Proof.
  induction s as [|c s IH]; [done|]. cbn [mentions].
  intros [Hc Hs]%orb_false_elim. apply bool_decide_eq_false in Hc.
  rewrite endswith_cons, IH by done. rewrite orb_false_r.
  apply bool_decide_eq_false. intros [= -> _]. done.
Qed.

Lemma endswith_reference (view_name feat_name feature_name : string) :
  well_formed (view_name, feat_name) →
  endswith (reference view_name feat_name) (":" +:+ feature_name) = true
  ↔ feat_name = feature_name.
Proof.
  unfold well_formed, reference. cbn [fst snd]. intros [Hv Hf].
  change (":" +:+ feature_name) with (String ":" feature_name).
  change (":" +:+ feat_name) with (String ":" feat_name).
  induction view_name as [|c v IH].
  - change ("" +:+ String ":" feat_name) with (String ":" feat_name).
    rewrite endswith_cons, (endswith_no_colon feat_name) by done.
    rewrite orb_false_r, bool_decide_eq_true.
    split; [by intros [= ->]|by intros ->].
  - cbn [mentions] in Hv.
    apply orb_false_elim in Hv as [Hc Hv]. apply bool_decide_eq_false in Hc.
    change (String c v +:+ String ":" feat_name)
      with (String c (v +:+ String ":" feat_name)).
    rewrite endswith_cons, <- IH by done.
    rewrite (bool_decide_eq_false_2 (String c _ = _)); [done|].
    intros [= -> _]. done.
Qed.

(** ** Counting *)

Section Counting.
Context {A : Type} `{!EqDecision A}.
Implicit Types (l : list A) (c : list (A * nat)) (x y : A).

Lemma occ_app x l1 l2 : occ x (l1 ++ l2) = occ x l1 + occ x l2.
Proof. induction l1 as [|y l1 IH]; simpl; [done|]. rewrite IH. lia. Qed.

Lemma occ_pos x l : 0 < occ x l ↔ x ∈ l.
Proof.
  induction l as [|y l IH]; simpl.
  - split; [lia|by intros ?%elem_of_nil].
  - rewrite elem_of_cons, <- IH. case_decide; split; intros; try lia; tauto.
Qed.

Lemma occ_collides x l : 1 < occ x l ↔ collides l x.
Proof.
  unfold collides. induction l as [|y l IH]; simpl.
  - split; [lia|]. intros (i & j & _ & Hi & _). by rewrite lookup_nil in Hi.
  - split.
    + intros Hocc. destruct (decide (1 < occ x l)) as [Hl|Hl].
      * apply IH in Hl as (i & j & Hne & Hi & Hj).
        exists (S i), (S j). split_and!; [lia|done..].
      * case_decide as Hxy; [|lia]. subst y.
        assert (x ∈ l) as Hin by (apply occ_pos; lia).
        apply list_elem_of_lookup in Hin as [j Hj].
        exists 0, (S j). by split_and!.
    + intros (i & j & Hne & Hi & Hj).
      destruct i as [|i], j as [|j]; simpl in *; try done.
      * injection Hi as ->. rewrite decide_True by done.
        assert (0 < occ x l); [|lia]. apply occ_pos.
        by eapply list_elem_of_lookup_2.
      * injection Hj as ->. rewrite decide_True by done.
        assert (0 < occ x l); [|lia]. apply occ_pos.
        by eapply list_elem_of_lookup_2.
      * assert (1 < occ x l); [|lia]. apply IH. exists i, j.
        split_and!; [lia|done..].
Qed.

Lemma not_collides_NoDup l : (∀ x, ¬ collides l x) ↔ NoDup l.
Proof.
  split.
  - intros H. apply NoDup_alt. intros i j x Hi Hj.
    destruct (decide (i = j)) as [|Hne]; [done|]. destruct (H x). by exists i, j.
  - intros Hnd x (i & j & Hne & Hi & Hj). apply Hne.
    by eapply NoDup_lookup.
Qed.

Lemma counter_incr_get x y c :
  dict_get x (counter_incr y c)
  = if decide (x = y) then Some (S (default 0 (dict_get y c)))
    else dict_get x c.
Proof.
  induction c as [|[z n] c IH]; simpl.
  - repeat case_decide; congruence.
  - destruct (decide (y = z)) as [->|Hyz]; simpl.
    + repeat case_decide; congruence.
    + rewrite IH. repeat case_decide; congruence.
Qed.

Lemma counter_incr_keys x y c :
  x ∈ (counter_incr y c).*1 ↔ x = y ∨ x ∈ c.*1.
Proof.
  induction c as [|[z n] c IH]; simpl.
  - rewrite list_elem_of_singleton. split; [by left|].
    intros [|?%elem_of_nil]; done.
  - case_decide; simpl; rewrite !elem_of_cons; [subst; tauto|].
    rewrite IH. tauto.
Qed.

Lemma counter_incr_NoDup y c : NoDup c.*1 → NoDup (counter_incr y c).*1.
Proof.
  induction c as [|[z n] c IH]; simpl; intros Hnd.
  - repeat constructor. by intros ?%elem_of_nil.
  - apply NoDup_cons in Hnd as [Hz Hnd]. case_decide; simpl.
    + by constructor.
    + constructor; [|by apply IH]. rewrite counter_incr_keys. intros [->|]; done.
Qed.

Lemma Counter_snoc l y : Counter (l ++ [y]) = counter_incr y (Counter l).
Proof. unfold Counter. by rewrite foldl_app. Qed.

Lemma Counter_spec l :
  NoDup (Counter l).*1
  ∧ ∀ x, dict_get x (Counter l)
         = if decide (occ x l = 0) then None else Some (occ x l).
Proof.
  induction l as [|y l [Hnd Hget]] using rev_ind; [split; [constructor|done]|].
  rewrite Counter_snoc. split; [by apply counter_incr_NoDup|].
  intros x. rewrite counter_incr_get, occ_app, !Hget. cbn [occ].
  repeat case_decide; subst; simpl; try lia; try congruence; f_equal; lia.
Qed.

Lemma dict_elem_get (d : dict A nat) x n :
  NoDup (dict_keys d) → (x, n) ∈ d → dict_get x d = Some n.
Proof.
  unfold dict_keys. induction d as [|[k v] d IH]; simpl; intros Hnd Hin.
  - by apply elem_of_nil in Hin.
  - apply NoDup_cons in Hnd as [Hk Hnd].
    apply elem_of_cons in Hin as [[= -> ->]|Hin]; [by rewrite decide_True|].
    rewrite decide_False; [by apply IH|]. intros ->. apply Hk.
    apply list_elem_of_fmap. by exists (k, n).
Qed.

(** The elements [Counter] reports more than once are those that
    collide. *)
Lemma Counter_collided l x :
  x ∈ omap (λ '(ref, occurrences),
              if decide (1 < occurrences) then Some ref else None) (Counter l)
  ↔ collides l x.
Proof.
  rewrite <- occ_collides, list_elem_of_omap.
  destruct (Counter_spec l) as [Hnd Hget]. split.
  - intros ([y n] & Hin & Hsome). case_decide; [|done]. injection Hsome as ->.
    apply dict_elem_get in Hin; [|done]. rewrite Hget in Hin.
    case_decide; [done|]. injection Hin as ->. done.
  - intros Hocc. exists (x, occ x l). split.
    + apply dict_get_elem. rewrite Hget. by rewrite decide_False by lia.
    + by rewrite decide_True.
Qed.
End Counting.

(** ** Collisions among the references *)

Lemma collides_elem_of {A : Type} (l : list A) (x : A) : collides l x → x ∈ l.
Proof. intros (i & _ & _ & Hi & _). by eapply list_elem_of_lookup_2. Qed.

Lemma collides_fmap {A B : Type} (f : A → B) (l : list A) (x : A) :
  (∀ y, y ∈ l → f y = f x → y = x) →
  collides (f <$> l) (f x) ↔ collides l x.
Proof.
  intros Hinj. unfold collides. split.
  - intros (i & j & Hne & Hi & Hj). exists i, j.
    rewrite list_lookup_fmap in Hi, Hj.
    destruct (l !! i) as [a|] eqn:Ha, (l !! j) as [b|] eqn:Hb; simpl in *; try done.
    injection Hi as Hi. injection Hj as Hj.
    rewrite (Hinj a), (Hinj b); [done|by eapply list_elem_of_lookup_2|done
                                  |by eapply list_elem_of_lookup_2|done].
  - intros (i & j & Hne & Hi & Hj). exists i, j.
    by rewrite !list_lookup_fmap, Hi, Hj.
Qed.

Lemma list_nil_not_elem {A : Type} (l : list A) : l = [] ↔ ∀ x, x ∉ l.
Proof.
  split; [intros -> x ?%elem_of_nil; done|].
  destruct l as [|x l]; [done|]. intros H. destruct (H x). by left.
Qed.



(** * The worked request, checked *)

Lemma Example_transform_rows (r : GetOnlineFeaturesResponse Example.PValue)
    (full_feature_names : bool) (col : string * list Example.PValue) (N : nat) :
  response_has_rows N r → results r ≠ [] →
  col ∈ get_transformed_features Example.conv_rate_pct r full_feature_names →
  length col.2 = N.
Proof.
  intros [_ Hrows] Hne Hcol. simpl in Hcol.
  apply list_elem_of_singleton in Hcol as ->. simpl. rewrite length_fmap.
  unfold Example.column. rewrite Forall_forall in Hrows.
  destruct (dict_get _ _) as [fv|] eqn:Hget.
  - apply dict_get_elem, elem_of_zip_r in Hget. by apply Hrows.
  - rewrite length_replicate. destruct (results r) as [|fv rest]; [done|].
    apply Hrows. by left.
Qed.

Example validate_feature_refs_bare_names_collide :
  _validate_feature_refs ["fvA:amount"; "fvB:amount"] false
  = raise (FeatureNameCollisionError ["fvA:amount"; "fvB:amount"] false).
Proof. reflexivity. Qed.

Example validate_feature_refs_qualified_names_pass :
  _validate_feature_refs ["fvA:amount"; "fvB:amount"] true = inr tt.
Proof. reflexivity. Qed.

(** C1, on a batch without rows. The batch [{"driver_id": []}] has
    [N = 0] rows; the deduplication step does not return the empty
    partition for it but raises [ValueError] when it unpacks its empty list
    of groups, and so does the request. *)
Lemma get_unique_entities_empty_batch :
  _get_unique_entities Example.tuple_lt Example.driver_stats
    [("driver_id", [])] [("driver", "driver_id")]
  = raise (ValueError "not enough values to unpack (expected 2, got 0)")
  ∧ Example.get_online_features (FeatureList ["driver_stats:conv_rate"])
      [("driver_id", [])] false
    = ([], raise (ValueError "not enough values to unpack (expected 2, got 0)")).
Proof. split; vm_compute; reflexivity. Qed.


Lemma scatter_vector_by_key_witness :
  ∃ fv,
    scatter_vector [Example.FromDatetime 1700000000; Timestamp_new]
      [PRESENT; NOT_FOUND] [Example.int64_val 5; Example.Null]
      [[0; 1]; [2]] = inr fv
    ∧ values fv !! 0 = values fv !! 1
    ∧ values fv !! 2 = Some Example.Null.
Proof.
  destruct (scatter_vector_by_key
              [[Example.int64_val 1]; [Example.int64_val 1]; [Example.int64_val 2]]
              [[Example.int64_val 1]; [Example.int64_val 2]]
              [[0; 1]; [2]]
              [Example.FromDatetime 1700000000; Timestamp_new]
              [PRESENT; NOT_FOUND] [Example.int64_val 5; Example.Null])
    as (fv & Hrun & Hpos & Hsame).
  - unfold UniqueKeySet, partitions. split_and!.
    + apply (bool_decide_unpack _). reflexivity.
    + reflexivity.
    + repeat constructor.
  - reflexivity.
  - reflexivity.
  - reflexivity.
  - exists fv. split_and!.
    + exact Hrun.
    + apply (Hsame 0 1 [Example.int64_val 1]); reflexivity.
    + apply (Hpos 1 [2] 2); [reflexivity|]. by left.
Defined.

Lemma get_online_features_row_count_witness :
  ∃ reads resp,
    Example.get_online_features
      (FeatureList ["driver_stats:conv_rate"; "conv_rate_pct:conv_rate_pct"])
      Example.entity_values false = (reads, inr resp)
    ∧ response_has_rows 3 resp.
Proof.
  eexists _, _. split.
  - vm_compute. reflexivity.
  - eapply (get_online_features_row_count Example.Null Example.FromDatetime
              Example.tuple_lt "__dummy" "__dummy_id" (Example.string_val "")
              (λ _ _, inr tt) Example.store
              (FeatureList ["driver_stats:conv_rate"; "conv_rate_pct:conv_rate_pct"])
              Example.entity_values false 3).
    + reflexivity.
    + intros fvs rfvs odfvs odfv r col [= _ _ <-] Hodfv Hrows Hne Hcol.
      apply list_elem_of_singleton in Hodfv as ->.
      by eapply Example_transform_rows.
    + vm_compute. reflexivity.
Defined.

Lemma read_from_online_store_statuses_witness :
  ∃ protos,
    _read_from_online_store Example.Null Example.FromDatetime Example.store
      [[("driver_id", Example.int64_val 1)]; [("driver_id", Example.int64_val 2)]]
      ["conv_rate"; "acc_rate"] Example.driver_stats = inr protos
    ∧ length protos = 2.
Proof.
  destruct (read_from_online_store_statuses Example.Null Example.FromDatetime
              Example.store
              [[("driver_id", Example.int64_val 1)]; [("driver_id", Example.int64_val 2)]]
              ["conv_rate"; "acc_rate"] Example.driver_stats
              [(Some 1700000000%Z, Some {[ "conv_rate" := Example.int64_val 5 ]});
               (None, None)])
    as (protos & Hrun & Hlen & _).
  - reflexivity.
  - exists protos. split; assumption.
Defined.


Lemma augment_statuses_all_present_witness :
  ∃ new,
    results Example.augmented = results Example.assembled ++ new
    ∧ Forall (λ fv, NOT_FOUND ∉ statuses fv) new.
Proof.
  destruct (augment_statuses_all_present Example.assembled Example.augmented
              ["driver_stats:conv_rate"; "conv_rate_pct:conv_rate_pct"]
              [Example.conv_rate_pct] false)
    as (new & Hres & Hnew).
  - reflexivity.
  - exists new. split; [exact Hres|].
    eapply Forall_impl; [exact Hnew|]. by intros fv (_ & _ & H).
Defined.

(** The lexicographic order on tuples of integers is a total order. *)

Lemma lex_lt_asym (a b : list Z) :
  Example.lex_lt a b = false ∨ Example.lex_lt b a = false.
Proof.
  revert b. induction a as [|x a IH]; intros [|y b]; simpl; auto.
  destruct (decide (x = y)) as [->|Hne].
  - rewrite decide_True by done. apply IH.
  - rewrite decide_False by done.
    destruct (decide (x < y)%Z).
    + right. apply bool_decide_eq_false. lia.
    + left. by apply bool_decide_eq_false.
Qed.

Lemma lex_le_trans (a b c : list Z) :
  Example.lex_lt b a = false → Example.lex_lt c b = false →
  Example.lex_lt c a = false.
Proof.
  revert b c. induction a as [|x a IH]; intros [|y b] [|z c]; simpl; try done.
  repeat case_decide; subst; try done;
    rewrite ?bool_decide_eq_false; try lia; eauto.
Qed.

Lemma lex_le_antisym (a b : list Z) :
  Example.lex_lt a b = false → Example.lex_lt b a = false → a = b.
Proof.
  revert b. induction a as [|x a IH]; intros [|y b]; simpl; try done.
  repeat case_decide; subst; try done.
  - intros. f_equal. by apply IH.
  - rewrite !bool_decide_eq_false. lia.
Qed.

Lemma get_unique_entities_UniqueKeySet_witness :
  ∃ tuples,
    [[("driver_id", 1%Z)]; [("driver_id", 2%Z)]]
    = (λ k, dict_of_list (zip ["driver_id"] k)) <$> tuples
    ∧ UniqueKeySet [[1%Z]; [1%Z]; [2%Z]] tuples [[0; 1]; [2]].
Proof.
  apply (get_unique_entities_UniqueKeySet Example.lex_lt Example.driver_stats
           [("driver_id", [1; 1; 2]%Z)] [("driver", "driver_id")]
           [("driver_id", [1; 1; 2]%Z)]
           [[("driver_id", 1%Z)]; [("driver_id", 2%Z)]] [[0; 1]; [2]]).
  - apply lex_lt_asym.
  - apply lex_le_trans.
  - apply lex_le_antisym.
  - reflexivity.
  - reflexivity.
Defined.


(** Against C7 as stated: whatever the wall clock reads (here
    [Example.now]), the echo column of the batch and the computed vector
    carry [Timestamp()], the zero timestamp, which is also the timestamp of a
    fetched row whose backend write time is unknown. *)
Lemma echo_and_computed_timestamps_are_not_now :
  (∃ fv,
     results (_populate_result_rows_from_columnar
                {| feature_names := []; results := [] |} Example.entity_values)
     = [fv]
     ∧ event_timestamps fv = replicate 3 {| seconds := 0; nanos := 0 |}
     ∧ event_timestamps fv ≠ replicate 3 Example.now)
  ∧ (∃ fv,
       _augment_response_with_on_demand_transforms Example.assembled
         ["driver_stats:conv_rate"; "conv_rate_pct:conv_rate_pct"]
         [Example.conv_rate_pct] false
       = inr {| feature_names := ["driver_id"; "conv_rate"; "conv_rate_pct"];
                results := results Example.assembled ++ [fv] |}
       ∧ event_timestamps fv ≠ replicate 3 Example.now
       ∧ event_timestamps fv = replicate 3 {| seconds := 0; nanos := 0 |}
       ∧ (read_row_proto Example.Null Example.FromDatetime ["conv_rate"]
            (None, None)).1.1
         = [{| seconds := 0; nanos := 0 |}]).
Proof.
  split.
  - eexists. split_and!; [reflexivity|reflexivity|discriminate].
  - eexists. split_and!; [reflexivity|discriminate|reflexivity|reflexivity].
Qed.

(** * Further properties of the online read path *)

(** ** More on the deduplication step *)

Lemma length_le_concat {A : Type} (ls : list (list A)) :
  Forall (λ l, l ≠ []) ls → (length ls ≤ length (concat ls))%nat.
Proof.
  induction 1 as [|l ls Hl _ IH]; simpl; [done|].
  rewrite length_app. destruct l; [done|]. simpl. lia.
Qed.

Section DedupBounds.
Context {Value : Type} `{!EqDecision Value}.
Context (sort_key_lt : list Value → list Value → bool).

(** X3. Whenever the deduplication step returns, it returns as many index
    lists as unique keys, none of them empty, and, on a batch whose columns
    have [N] rows, between one and [N] of them: a table is never read for
    more keys than the batch has rows. *)
Theorem get_unique_entities_bounds (table : FeatureView)
    (join_key_values : dict string (list Value))
    (entity_name_to_join_key_map : dict string string)
    (unique : list (dict string Value)) (idxs : list (list nat)) (N : nat) :
  Forall (λ col, length col = N) (dict_values join_key_values) →
  _get_unique_entities sort_key_lt table join_key_values
    entity_name_to_join_key_map = inr (unique, idxs) →
  length unique = length idxs
  ∧ Forall (λ L, L ≠ []) idxs
  ∧ (1 ≤ length idxs ≤ N)%nat.
Proof.
  intros Hcols Hrun.
  pose proof (get_unique_entities_sum _ _ _ _ _ _ _ Hcols Hrun) as Hp.
  destruct (_get_table_entity_values table entity_name_to_join_key_map
              join_key_values) as [e|tev] eqn:Htev.
  { unfold _get_unique_entities in Hrun. by rewrite Htev in Hrun. }
  rewrite (get_unique_entities_unfold _ _ _ _ _ Htev) in Hrun.
  pose proof (groupby_groups snd
                (sort_rowise sort_key_lt (enumerate (composite_keys tev))))
    as Hgroups.
  fold (key_groups sort_key_lt tev) in Hgroups.
  destruct (key_groups sort_key_lt tev) as [|kg groups] eqn:HG; [done|].
  injection Hrun as <- <-.
  assert (Forall (λ L : list nat, L ≠ [])
            ((λ kg : list Value * list (nat * list Value), kg.2.*1)
               <$> kg :: groups)) as Hne.
  { apply Forall_fmap. eapply Forall_impl; [exact Hgroups|].
    intros [k g] [Hg _]. simpl in *. by destruct g. }
  split_and!.
  - cbn [length fmap list_fmap]. f_equal.
    change (length ((λ kg0, dict_of_list (zip (dict_keys tev) kg0.1)) <$> groups)
            = length ((λ kg0 : list Value * list (nat * list Value), kg0.2.*1)
                        <$> groups)).
    by rewrite !length_fmap.
  - exact Hne.
  - simpl. lia.
  - apply length_le_concat in Hne. unfold partitions in Hp.
    change (kg.2.*1 :: _) with
      ((λ kg : list Value * list (nat * list Value), kg.2.*1) <$> kg :: groups)
      in Hp |- *.
    rewrite Hp, length_seq in Hne. exact Hne.
Qed.
End DedupBounds.

(** ** More on the scatter step *)

Section ScatterEdges.
Context {A : Type}.
Implicit Types (output : list (option A)) (lst : list A).

Lemma assign_destinations_any output (elem : A) (destinations : list nat) :
  Forall (λ idx, (idx < length output)%nat) destinations →
  ∃ output',
    foldM (λ output idx, setitem output idx elem) output destinations
      = inr output'
    ∧ length output' = length output.
Proof.
  intros H. destruct (assign_destinations output elem destinations H)
    as (o & ? & ? & _). eauto.
Qed.

Lemma assign_destinations_out_of_range output (elem : A)
    (destinations : list nat) :
  ¬ Forall (λ idx, (idx < length output)%nat) destinations →
  foldM (λ output idx, setitem output idx elem) output destinations
    = raise IndexError.
Proof.
  revert output. induction destinations as [|idx ds IH]; intros output Hnot.
  - destruct Hnot. constructor.
  - cbn [foldM]. unfold setitem at 1.
    destruct (decide ((idx < length output)%nat)) as [Hlt|Hge]; [|done].
    cbn [bind]. apply IH. rewrite length_insert. intros Hall.
    apply Hnot. by constructor.
Qed.

Lemma assign_pairs_in_range output (pairs : list (A * list nat)) :
  Forall (Forall (λ idx, (idx < length output)%nat)) pairs.*2 →
  ∃ output',
    foldM (λ output '(elem, destinations),
             foldM (λ output idx, setitem output idx elem) output
               destinations) output pairs = inr output'
    ∧ length output' = length output
    ∧ (∀ r, r ∉ concat pairs.*2 → output' !! r = output !! r)
    ∧ (∀ r, r ∈ concat pairs.*2 →
         ∃ i elem destinations,
           pairs !! i = Some (elem, destinations) ∧ r ∈ destinations
           ∧ output' !! r = Some (Some elem)).
Proof.
  revert output. induction pairs as [|[elem L] pairs IH]; intros output Hall.
  - exists output. split_and!; [done..|]. by intros r ?%elem_of_nil.
  - cbn [fmap list_fmap snd concat] in *.
    apply Forall_cons in Hall as [HL Hrest].
    destruct (assign_destinations output elem L HL)
      as (o1 & Hrun1 & Hlen1 & Hin1 & Hout1).
    cbn [foldM]. rewrite Hrun1. cbn [bind].
    destruct (IH o1) as (o' & Hrun & Hlen & Hout & Hin).
    { by rewrite Hlen1. }
    exists o'. split_and!; [done|congruence| |].
    + intros r [HrL Hr]%not_elem_of_app. rewrite Hout by done. by apply Hout1.
    + intros r Hr. destruct (decide (r ∈ concat pairs.*2)) as [Hlater|Hnot].
      * destruct (Hin r Hlater) as (i & e & L' & Hi & HrL' & Hget).
        by exists (S i), e, L'.
      * apply elem_of_app in Hr as [HrL|]; [|done].
        exists 0, elem, L. split_and!; [done..|].
        rewrite Hout by done. by apply Hin1.
Qed.

Lemma assign_pairs_out_of_range output (pairs : list (A * list nat)) :
  ¬ Forall (Forall (λ idx, (idx < length output)%nat)) pairs.*2 →
  foldM (λ output '(elem, destinations),
           foldM (λ output idx, setitem output idx elem) output
             destinations) output pairs = raise IndexError.
Proof.
  revert output. induction pairs as [|[elem L] pairs IH]; intros output Hnot.
  - destruct Hnot. constructor.
  - cbn [fmap list_fmap snd] in Hnot. cbn [foldM].
    destruct (decide (Forall (λ idx, (idx < length output)%nat) L)) as [HL|HL].
    + destruct (assign_destinations_any output elem L HL) as (o1 & -> & Hlen1).
      cbn [bind]. apply IH. rewrite Hlen1. intros Hall. apply Hnot.
      by constructor.
    + by rewrite assign_destinations_out_of_range.
Qed.

(** What [apply_list_mapping] returns when every index it writes through
    is in range: a list as long as the index lists taken together, in
    which a row that no used index list names is left unset. *)
Lemma apply_list_mapping_in_range lst (mapping_indexes : list (list nat)) :
  Forall (Forall (λ idx, (idx < sum_list (length <$> mapping_indexes))%nat))
    (zip lst mapping_indexes).*2 →
  ∃ output,
    apply_list_mapping lst mapping_indexes = inr output
    ∧ length output = sum_list (length <$> mapping_indexes)
    ∧ (∀ r, (r < sum_list (length <$> mapping_indexes))%nat →
            r ∉ concat (zip lst mapping_indexes).*2 → output !! r = Some None)
    ∧ (∀ r, r ∈ concat (zip lst mapping_indexes).*2 →
         ∃ i elem destinations,
           zip lst mapping_indexes !! i = Some (elem, destinations)
           ∧ r ∈ destinations ∧ output !! r = Some (Some elem)).
Proof.
  intros Hall. unfold apply_list_mapping.
  destruct (assign_pairs_in_range
              (replicate (sum_list (length <$> mapping_indexes)) None)
              (zip lst mapping_indexes)) as (o & Hrun & Hlen & Hout & Hin).
  { by rewrite length_replicate. }
  rewrite length_replicate in Hlen.
  exists o. split_and!; [done..| |done].
  intros r Hr Hnot. rewrite Hout by done. by apply lookup_replicate_2.
Qed.

(** X4. [apply_list_mapping] writes through the index lists that have a
    value, in order. If one of their indexes is not below the total number
    of indexes, it raises [IndexError]; otherwise it returns a list of that
    total length in which a row no index list names is left unset ([None])
    and every other row holds the value of an index list that names it. *)
Theorem apply_list_mapping_result lst (mapping_indexes : list (list nat)) :
  let output_len := sum_list (length <$> mapping_indexes) in
  let used := zip lst mapping_indexes in
  if decide (Forall (Forall (λ idx, (idx < output_len)%nat)) used.*2) then
    ∃ output,
      apply_list_mapping lst mapping_indexes = inr output
      ∧ length output = output_len
      ∧ ∀ r, (r < output_len)%nat →
          if decide (r ∈ concat used.*2) then
            ∃ i elem destinations,
              used !! i = Some (elem, destinations) ∧ r ∈ destinations
              ∧ output !! r = Some (Some elem)
          else output !! r = Some None
  else apply_list_mapping lst mapping_indexes = raise IndexError.
Proof.
  intros output_len used. case_decide as Hall.
  - destruct (apply_list_mapping_in_range lst mapping_indexes Hall)
      as (o & Hrun & Hlen & Hout & Hin).
    exists o. split_and!; [done..|]. intros r Hr. case_decide as Hmem.
    + by apply Hin.
    + by apply Hout.
  - unfold apply_list_mapping. apply assign_pairs_out_of_range.
    by rewrite length_replicate.
Qed.
End ScatterEdges.

(** ** The validators, in full *)

Lemma validate_entity_values_uniform {V : Type}
    (join_key_values : dict string (list V)) (N : nat) :
  join_key_values ≠ [] →
  Forall (λ col, length col = N) (dict_values join_key_values) →
  _validate_entity_values join_key_values = inr N.
Proof.
  intros Hne Hall. unfold _validate_entity_values.
  assert (list_to_set (length <$> dict_values join_key_values)
          = ({[N]} : gset nat)) as ->.
  { apply set_eq. intros x.
    rewrite elem_of_list_to_set, elem_of_singleton, list_elem_of_fmap. split.
    - intros (col & -> & Hcol). rewrite Forall_forall in Hall. by apply Hall.
    - intros ->. destruct join_key_values as [|[k col] d]; [done|].
      exists col. apply Forall_cons in Hall as [Hcol _]. split; [done|].
      unfold dict_values. rewrite fmap_cons. by left. }
  rewrite size_singleton, decide_False by lia. by rewrite elements_singleton.
Qed.

(** X5. What [_validate_entity_values] does on every batch: it returns [N]
    exactly on a batch with at least one column whose columns all have [N]
    values; it raises [KeyError] exactly on the batch without columns; it
    raises [ValueError] exactly when two columns differ in length. *)
Theorem validate_entity_values_result {V : Type}
    (join_key_values : dict string (list V)) :
  match _validate_entity_values join_key_values with
  | inr N =>
      join_key_values ≠ []
      ∧ Forall (λ col, length col = N) (dict_values join_key_values)
  | inl (KeyError _) => join_key_values = []
  | inl (ValueError _) =>
      ∃ c1 c2, c1 ∈ dict_values join_key_values
               ∧ c2 ∈ dict_values join_key_values
               ∧ length c1 ≠ length c2
  | inl _ => False
  end.
Proof.
  destruct (_validate_entity_values join_key_values) as [e|N] eqn:Hrun.
  - unfold _validate_entity_values in Hrun.
    set (X := list_to_set (length <$> dict_values join_key_values) : gset nat)
      in *.
    assert (size X = length (elements X)) as Hs by reflexivity.
    pose proof (NoDup_elements X) as Hnd.
    case_decide as Hsize.
    + injection Hrun as <-.
      destruct (elements X) as [|n1 [|n2 l]] eqn:Hel; simpl in Hs; [lia..|].
      assert (n1 ∈ X ∧ n2 ∈ X) as [H1 H2].
      { split; apply elem_of_elements; rewrite Hel; set_solver. }
      apply elem_of_list_to_set, list_elem_of_fmap in H1 as (c1 & -> & Hc1).
      apply elem_of_list_to_set, list_elem_of_fmap in H2 as (c2 & -> & Hc2).
      exists c1, c2. split_and!; [done..|].
      apply NoDup_cons in Hnd as [Hnot _]. intros Heq. apply Hnot.
      rewrite Heq. set_solver.
    + destruct (elements X) as [|n l] eqn:Hel; [|done]. injection Hrun as <-.
      apply elements_empty_inv in Hel.
      destruct join_key_values as [|[k col] d]; [done|].
      assert (length col ∈ X) as Hin by (subst X; set_solver).
      rewrite Hel in Hin. set_solver.
  - split; [|by apply validate_entity_values_lengths].
    intros ->. by vm_compute in Hrun.
Qed.

Section RequestData.
Context {Value : Type}.

(** X6. [ensure_request_data_values_exist] compares counts. On the columns
    the classification loop hands it (distinct names, each of them needed by
    an on demand view or a request view), it passes exactly when every
    needed name has a column and no name is needed by both kinds of view;
    when a name is needed by both, it raises even though nothing is missing,
    and the exception then lists no missing name. *)
Theorem ensure_request_data_values_exist_result
    (needed_request_data needed_request_fv_features : gset string)
    (request_data_features : dict string (list Value)) :
  NoDup (dict_keys request_data_features) →
  (∀ k, k ∈ dict_keys request_data_features →
        k ∈ needed_request_data ∪ needed_request_fv_features) →
  (ensure_request_data_values_exist needed_request_data
     needed_request_fv_features request_data_features = inr tt
   ↔ needed_request_data ## needed_request_fv_features
     ∧ ∀ x, x ∈ needed_request_data ∪ needed_request_fv_features →
            x ∈ dict_keys request_data_features)
  ∧ (¬ needed_request_data ## needed_request_fv_features →
     (∀ x, x ∈ needed_request_data ∪ needed_request_fv_features →
           x ∈ dict_keys request_data_features) →
     ensure_request_data_values_exist needed_request_data
       needed_request_fv_features request_data_features
     = raise (RequestDataNotFoundInEntityRowsException [])).
Proof.
  intros Hnd Hsub.
  set (A := needed_request_data). set (B := needed_request_fv_features).
  set (K := list_to_set (dict_keys request_data_features) : gset string).
  assert (size K = length (dict_keys request_data_features)) as HK
    by by apply size_list_to_set.
  assert (K ⊆ A ∪ B) as HKU.
  { intros k Hk. apply Hsub. by apply elem_of_list_to_set in Hk. }
  assert (size A + size B = size (A ∪ B) + size (A ∩ B))%nat as Hincl.
  { rewrite (size_union_alt A B).
    assert (B = (B ∖ A) ∪ (A ∩ B)) as HB.
    { apply set_eq. intros x. destruct (decide (x ∈ A)); set_solver. }
    rewrite HB at 1. rewrite size_union by set_solver. lia. }
  pose proof (subseteq_size _ _ HKU) as Hle.
  unfold ensure_request_data_values_exist. fold A B. rewrite <- HK.
  split.
  - split.
    + case_decide as Hcount; [done|]. intros _.
      assert (size (A ∩ B) = 0)%nat as Hz by lia.
      assert (size (A ∪ B) = size K) as Heq by lia.
      apply size_empty_inv in Hz.
      split; [set_solver|].
      intros x Hx.
      assert (K ≡ A ∪ B) as HKeq.
      { apply set_subseteq_size_equiv; [done|lia]. }
      apply HKeq in Hx. by apply elem_of_list_to_set in Hx.
    + intros [Hdisj Hall]. rewrite decide_False; [done|].
      assert (A ∩ B = ∅) as HAB by set_solver.
      rewrite HAB, size_empty in Hincl.
      assert (A ∪ B ⊆ K) as Hsup.
      { intros x Hx. apply elem_of_list_to_set. by apply Hall. }
      apply subseteq_size in Hsup. lia.
  - intros Hover Hall. rewrite decide_True.
    + do 2 f_equal. apply list_nil_not_elem. intros x Hx.
      apply list_elem_of_filter in Hx as [Hmiss Hx]. apply Hmiss, Hall.
      apply elem_of_app in Hx as [Hx|Hx]; apply elem_of_elements in Hx;
        set_solver.
    + assert (size (A ∩ B) ≠ 0)%nat as Hnz.
      { intros Hz. apply size_empty_inv in Hz. apply Hover. set_solver. }
      lia.
Qed.
End RequestData.

(** ** Dictionaries keep their keys distinct *)

Section DictShape.
Context {K V : Type} `{!EqDecision K}.
Implicit Types (d : dict K V) (pairs : list (K * V)).

Lemma dict_set_fresh d k v :
  k ∉ dict_keys d → dict_set k v d = d ++ [(k, v)].
Proof.
  unfold dict_keys. induction d as [|[k0 v0] d IH]; simpl; [done|].
  intros [Hne Hnot]%not_elem_of_cons. rewrite decide_False by done.
  by rewrite IH.
Qed.

Lemma dict_set_keys_NoDup d k v :
  NoDup (dict_keys d) → NoDup (dict_keys (dict_set k v d)).
Proof.
  unfold dict_keys. induction d as [|[k0 v0] d IH]; simpl; intros Hnd.
  - apply NoDup_singleton.
  - apply NoDup_cons in Hnd as [Hk Hnd]. case_decide; simpl.
    + by apply NoDup_cons.
    + apply NoDup_cons. split; [|by apply IH].
      intros Hin. apply (dict_keys_set d k k0 v) in Hin as [->|Hin]; done.
Qed.

Lemma foldl_dict_set_fresh pairs d :
  NoDup (dict_keys d ++ pairs.*1) →
  foldl (λ d kv, dict_set kv.1 kv.2 d) d pairs = d ++ pairs.
Proof.
  revert d. induction pairs as [|[k v] pairs IH]; intros d Hnd; simpl.
  - by rewrite app_nil_r.
  - simpl in Hnd. rewrite dict_set_fresh.
    + rewrite IH; [by rewrite <- app_assoc|].
      unfold dict_keys in *. rewrite fmap_app, <- app_assoc. done.
    + apply NoDup_app in Hnd as (_ & Hdis & _). intros Hin.
      apply (Hdis k Hin). by left.
Qed.

Lemma dict_of_list_NoDup_id pairs : NoDup pairs.*1 → dict_of_list pairs = pairs.
Proof. intros Hnd. unfold dict_of_list. by rewrite foldl_dict_set_fresh. Qed.

Lemma dict_of_list_keys_NoDup pairs : NoDup (dict_keys (dict_of_list pairs)).
Proof.
  unfold dict_of_list.
  assert (∀ d, NoDup (dict_keys d) →
               NoDup (dict_keys (foldl (λ d kv, dict_set kv.1 kv.2 d) d pairs)))
    as H.
  { induction pairs as [|[k v] pairs IH]; intros d Hd; simpl; [done|].
    apply IH. by apply dict_set_keys_NoDup. }
  apply H. constructor.
Qed.

Lemma dict_elem_get_NoDup d k v :
  NoDup (dict_keys d) → (k, v) ∈ d → dict_get k d = Some v.
Proof.
  unfold dict_keys. induction d as [|[k0 v0] d IH]; simpl; intros Hnd Hin.
  - by apply elem_of_nil in Hin.
  - apply NoDup_cons in Hnd as [Hk Hnd].
    apply elem_of_cons in Hin as [[= -> ->]|Hin]; [by rewrite decide_True|].
    rewrite decide_False; [by apply IH|]. intros ->. apply Hk.
    apply list_elem_of_fmap. by exists (k0, v).
Qed.

Lemma dict_of_list_elem pairs k v :
  (k, v) ∈ dict_of_list pairs → (k, v) ∈ pairs.
Proof.
  intros Hin. apply dict_get_of_list, dict_elem_get_NoDup; [|done].
  apply dict_of_list_keys_NoDup.
Qed.
End DictShape.

(** ** The columns of one table *)

Section TableColumns.
Context {Value : Type}.

(** X7. [_get_table_entity_values] on every input. It raises [KeyError] for
    an entity of the table that the entity map does not list, and nothing
    else. When it returns, every entity of the table is listed; the returned
    columns have distinct names, each the join key of an entity of the
    table, and each column is a batch column whose name, once an alias of
    the projection is undone, is that join key. For a table without aliases
    and a batch with distinct column names, the result is the batch
    restricted to the table's join keys, in the order of the batch. *)
Theorem get_table_entity_values_result (table : FeatureView)
    (entity_name_to_join_key_map : dict string string)
    (join_key_proto_values : dict string (list Value)) :
  let table_join_keys :=
    omap (λ entity_name, dict_get entity_name entity_name_to_join_key_map)
      (entities table) in
  let alias_to_join_key_map : dict string string :=
    dict_of_list ((λ '(k, v), (v, k)) <$> join_key_map (projection table)) in
  match _get_table_entity_values table entity_name_to_join_key_map
          join_key_proto_values with
  | inl (KeyError entity_name) =>
      entity_name ∈ entities table
      ∧ dict_get entity_name entity_name_to_join_key_map = None
  | inl _ => False
  | inr entity_values =>
      Forall (λ entity_name,
                is_Some (dict_get entity_name entity_name_to_join_key_map))
        (entities table)
      ∧ NoDup (dict_keys entity_values)
      ∧ (∀ k v, (k, v) ∈ entity_values →
           k ∈ table_join_keys
           ∧ ∃ k0, (k0, v) ∈ join_key_proto_values
                   ∧ dict_get_default k0 k0 alias_to_join_key_map = k)
      ∧ (join_key_map (projection table) = [] →
         NoDup (dict_keys join_key_proto_values) →
         entity_values
         = filter (λ kv, kv.1 ∈ table_join_keys) join_key_proto_values)
  end.
Proof.
  intros table_join_keys alias_to_join_key_map.
  unfold _get_table_entity_values. fold alias_to_join_key_map.
  set (look := λ entity_name : string,
         match dict_get entity_name entity_name_to_join_key_map with
         | Some k => inr k
         | None => raise (KeyError entity_name)
         end).
  assert (match mapM look (entities table) with
          | inl (KeyError e) =>
              e ∈ entities table ∧ dict_get e entity_name_to_join_key_map = None
          | inl _ => False
          | inr l =>
              l = table_join_keys
              ∧ Forall (λ e, is_Some (dict_get e entity_name_to_join_key_map))
                  (entities table)
          end) as Hlook.
  { subst table_join_keys. induction (entities table) as [|e es IH]; simpl.
    - by split.
    - unfold look at 1.
      destruct (dict_get e entity_name_to_join_key_map) as [k|] eqn:He; simpl.
      + destruct (mapM look es) as [[]|l]; simpl; try done.
        * destruct IH as [? ?]. split; [by right|done].
        * destruct IH as [-> ?]. split; [done|]. constructor; [by eexists|done].
      + split; [by left|done]. }
  destruct (mapM look (entities table)) as [e|l]; cbn [bind]; [exact Hlook|].
  destruct Hlook as [-> Hall].
  split_and!.
  - exact Hall.
  - apply dict_of_list_keys_NoDup.
  - intros k v Hin%dict_of_list_elem.
    apply list_elem_of_omap in Hin as ([k0 v0] & Hin & Hsel).
    case_bool_decide as Hk; [|done]. injection Hsel as <- <-.
    split; [done|]. by exists k0.
  - intros Hno Hnd. subst alias_to_join_key_map. rewrite Hno.
    match goal with
    | |- dict_of_list (omap ?F _) = _ =>
        assert (∀ d : list (string * list Value),
                  omap F d = filter (λ kv, kv.1 ∈ table_join_keys) d) as Hom
    end.
    { induction d as [|[k v] d IH]; [done|].
      cbn [omap list_omap]. rewrite filter_cons, <- IH.
      cbn [fst fmap list_fmap dict_of_list foldl dict_get_default dict_get
             default].
      case_bool_decide; [by rewrite decide_True|by rewrite decide_False]. }
    rewrite Hom.
    apply dict_of_list_NoDup_id.
    unfold dict_keys in Hnd.
    eapply sublist_NoDup; [exact Hnd|].
    apply fmap_sublist, sublist_filter.
Qed.
End TableColumns.

(** ** The provider calls of a request *)

Section ProviderCalls.
Context {Value datetime : Type} `{!EqDecision Value}.
Context (Value_new : Value) (FromDatetime : datetime → Timestamp).
Context (sort_key_lt : list Value → list Value → bool).

End ProviderCalls.

(** ** The final trim composes *)

Section TrimTwice.
Context {Value : Type}.

(** X9. On a response whose names and vectors are parallel the final trim
    never raises, and its result is again parallel and holds requested names
    only. Trimming the result for a second set of names is trimming the
    first response for the names in both sets; in particular, trimming twice
    for the same names changes nothing the second time. *)
Theorem drop_unneeded_columns_twice (resp : GetOnlineFeaturesResponse Value)
    (names1 names2 : gset string) :
  length (feature_names resp) = length (results resp) →
  ∃ resp1,
    _drop_unneeded_columns resp names1 = inr resp1
    ∧ length (feature_names resp1) = length (results resp1)
    ∧ Forall (λ n, n ∈ names1) (feature_names resp1)
    ∧ _drop_unneeded_columns resp1 names2
      = _drop_unneeded_columns resp (names1 ∩ names2)
    ∧ _drop_unneeded_columns resp1 names1 = inr resp1.
Proof.
  intros Hlen. rewrite (drop_unneeded_columns_filter resp names1 Hlen).
  eexists. split; [reflexivity|].
  set (cols := zip (feature_names resp) (results resp)).
  assert (∀ (l : list (string * FeatureVector Value)) (X : gset string),
            Forall (λ p, p.1 ∈ X) l → filter (λ p, p.1 ∈ X) l = l) as Hid.
  { intros l X Hall. induction Hall as [|p l Hp _ IH]; [done|].
    rewrite filter_cons, decide_True by done. by rewrite IH. }
  split_and!.
  - cbn [feature_names results]. by rewrite !length_fmap.
  - cbn [feature_names]. apply Forall_fmap, Forall_forall.
    intros p Hp. by apply list_elem_of_filter in Hp as [Hp _].
  - rewrite !drop_unneeded_columns_filter;
      cbn [feature_names results]; rewrite ?length_fmap; try done.
    fold cols. rewrite zip_fst_snd.
    assert (filter (λ p, p.1 ∈ names2) (filter (λ p, p.1 ∈ names1) cols)
            = filter (λ p, p.1 ∈ names1 ∩ names2) cols) as ->; [|done].
    induction cols as [|p l IH]; [done|]. rewrite !filter_cons.
    destruct (decide (p.1 ∈ names1)) as [H1|H1].
    + rewrite filter_cons. destruct (decide (p.1 ∈ names2)) as [H2|H2].
      * rewrite decide_True by set_solver. by rewrite IH.
      * rewrite decide_False by set_solver. exact IH.
    + rewrite decide_False by set_solver. exact IH.
  - rewrite drop_unneeded_columns_filter;
      cbn [feature_names results]; rewrite ?length_fmap; try done.
    rewrite zip_fst_snd. rewrite Hid; [done|].
    apply Forall_forall. intros p Hp.
    by apply list_elem_of_filter in Hp as [Hp _].
Qed.
End TrimTwice.

(** ** The names a request asks for *)

Lemma replace_no_sep (old : ascii) (new s : string) :
  mentions old s = false → replace old new s = s.
Proof.
  induction s as [|c s IH]; simpl; [done|].
  intros [Hc Hs]%orb_false_elim. apply bool_decide_eq_false in Hc.
  rewrite decide_False by done. by rewrite IH.
Qed.

Lemma replace_reference (view_name feat_name : string) :
  well_formed (view_name, feat_name) →
  replace ":" "__" (reference view_name feat_name)
  = view_name +:+ "__" +:+ feat_name.
Proof.
  intros [Hv Hf]. simpl in *. unfold reference.
  induction view_name as [|c v IH]; simpl in *.
  - by rewrite replace_no_sep.
  - apply orb_false_elim in Hv as [Hc Hv]. apply bool_decide_eq_false in Hc.
    rewrite decide_False by done. by rewrite IH.
Qed.

Lemma substring_all (s : string) : String.substring 0 (String.length s) s = s.
Proof. induction s as [|c s IH]; simpl; [done|]. by rewrite IH. Qed.

Lemma after_last_qualified (view_name feat_name : string) :
  after_last "__" feat_name = None →
  startswith feat_name "_" = false →
  after_last "__" (view_name +:+ "__" +:+ feat_name) = Some feat_name.
Proof.
  intros Hnone Hstart.
  induction view_name as [|c v IH].
  - change ("" +:+ "__" +:+ feat_name) with (String "_" (String "_" feat_name)).
    cbn [after_last]. rewrite Hnone.
    assert (startswith (String "_" feat_name) "__" = false) as ->.
    { unfold startswith in *. simpl. destruct feat_name as [|c f]; [done|].
      simpl in *. destruct (Ascii.ascii_dec "_" c); [|done].
      by destruct f. }
    unfold startswith. cbn.
    replace (String.prefix "" feat_name) with true by (by destruct feat_name).
    f_equal. simpl. rewrite Nat.sub_0_r. apply substring_all.
  - change (String c v +:+ "__" +:+ feat_name)
      with (String c (v +:+ "__" +:+ feat_name)).
    cbn [after_last]. by rewrite IH.
Qed.

(** X10. The names [_get_online_features] asks the final trim to keep, for
    well-formed references. With qualified output names they are the
    references with the colon replaced by a double underscore. With bare
    output names they are the feature names, for features whose name holds
    no double underscore and does not begin with an underscore; a feature
    name that begins with an underscore is asked for without it. *)
Theorem requested_names_of_references (refs : list (string * string)) :
  Forall well_formed refs →
  requested_names_of ((λ r, reference r.1 r.2) <$> refs) true
  = list_to_set ((λ r, r.1 +:+ "__" +:+ r.2) <$> refs)
  ∧ (Forall (λ r, after_last "__" r.2 = None ∧ startswith r.2 "_" = false) refs →
     requested_names_of ((λ r, reference r.1 r.2) <$> refs) false
     = list_to_set refs.*2)
  ∧ (∀ view_name feat_name,
       (view_name, "_" +:+ feat_name) ∈ refs →
       after_last "__" feat_name = None → startswith feat_name "_" = false →
       feat_name ∈ requested_names_of ((λ r, reference r.1 r.2) <$> refs) false).
Proof.
  intros Hwf. unfold requested_names_of.
  assert (replace ":" "__" <$> ((λ r, reference r.1 r.2) <$> refs)
          = (λ r, r.1 +:+ "__" +:+ r.2) <$> refs) as Hrep.
  { rewrite <- list_fmap_compose. apply Forall_fmap_ext.
    eapply Forall_impl; [exact Hwf|]. intros [v f] H. simpl.
    by apply replace_reference. }
  rewrite Hrep. split_and!; [done| |].
  - intros Hclean. apply set_eq. intros x.
    rewrite !elem_of_list_to_set, !list_elem_of_fmap. split.
    + intros (q & -> & Hq). apply elem_of_elements, elem_of_list_to_set in Hq.
      apply list_elem_of_fmap in Hq as ([v f] & -> & Hr).
      exists (v, f). split; [|done]. simpl.
      rewrite Forall_forall in Hclean. destruct (Hclean _ Hr) as [H1 H2].
      unfold rpartition_last. by rewrite after_last_qualified.
    + intros ([v f] & -> & Hr). exists (v +:+ "__" +:+ f). split.
      * rewrite Forall_forall in Hclean. destruct (Hclean _ Hr) as [H1 H2].
        unfold rpartition_last. by rewrite after_last_qualified.
      * apply elem_of_elements, elem_of_list_to_set, list_elem_of_fmap.
        by exists (v, f).
  - intros v f Hin Hnone Hstart.
    apply elem_of_list_to_set, list_elem_of_fmap.
    exists (v +:+ "__" +:+ "_" +:+ f). split.
    + unfold rpartition_last.
      match goal with
      | |- _ = default _ (after_last _ ?X) =>
          replace X with ((v +:+ "_") +:+ "__" +:+ f)
      end.
      * by rewrite after_last_qualified.
      * clear. induction v as [|c v IH]; [done|].
        change (String c ((v +:+ "_") +:+ "__" +:+ f)
                = String c (v +:+ "__" +:+ "_" +:+ f)).
        by rewrite IH.
    + apply elem_of_elements, elem_of_list_to_set, list_elem_of_fmap.
      by exists (v, "_" +:+ f).
Qed.

(** ** From the rows the provider returns to the columns of the response *)

Lemma zip_star_lookup {A : Type} (rows : list (list A)) (j : nat)
    (col : list A) :
  zip_star rows !! j = Some col → Forall2 (λ row x, row !! j = Some x) rows col.
Proof.
  revert col. induction rows as [|r rs IH]; intros col Hj; [done|].
  cbn [zip_star] in Hj. destruct rs as [|r' rs].
  - rewrite list_lookup_fmap in Hj.
    destruct (r !! j) as [x|] eqn:Hx; [|done]. injection Hj as <-.
    by repeat constructor.
  - apply lookup_zip_with_Some in Hj as (x & c & -> & Hx & Hc).
    constructor; [done|]. by apply IH.
Qed.

Lemma mapM_Forall_inr {A B : Type} (f : A → Result B) (P : A → B → Prop)
    (l : list A) :
  Forall (λ x, ∃ y, f x = inr y ∧ P x y) l →
  ∃ l', mapM f l = inr l' ∧ Forall2 P l l'.
Proof.
  induction 1 as [|x l (y & Hy & HP) _ (l' & Hl' & HF)].
  - exists []. by split; [|constructor].
  - exists (y :: l'). cbn [mapM bind]. rewrite Hy. cbn [bind]. rewrite Hl'.
    split; [done|]. by constructor.
Qed.

Lemma repeated_None {A : Type} (l : list (option A)) :
  None ∈ l → repeated l = raise TypeError.
Proof.
  unfold repeated. induction l as [|[x|] l IH]; intros Hin.
  - by apply elem_of_nil in Hin.
  - apply elem_of_cons in Hin as [|Hin]; [done|].
    cbn [mapM bind]. by rewrite IH.
  - done.
Qed.

Section PopulateResponse.
Context {Value : Type}.

Lemma scatter_vector_partition (timestamp_vector : list Timestamp)
    (statuses_vector : list FieldStatus) (values_vector : list Value)
    (idxs : list (list nat)) (N : nat) :
  partitions idxs N →
  length timestamp_vector = length idxs →
  length statuses_vector = length idxs →
  length values_vector = length idxs →
  ∃ fv,
    scatter_vector timestamp_vector statuses_vector values_vector idxs = inr fv
    ∧ ∀ i L r, idxs !! i = Some L → r ∈ L →
        values fv !! r = values_vector !! i
        ∧ statuses fv !! r = statuses_vector !! i
        ∧ event_timestamps fv !! r = timestamp_vector !! i.
Proof.
  intros Hp Ht Hs Hv.
  destruct (apply_list_mapping_partition values_vector idxs _ Hp Hv)
    as (vs & Hvs & _ & Hvget).
  destruct (apply_list_mapping_partition statuses_vector idxs _ Hp Hs)
    as (ss & Hss & _ & Hsget).
  destruct (apply_list_mapping_partition timestamp_vector idxs _ Hp Ht)
    as (ts & Hts & _ & Htget).
  exists {| values := vs; statuses := ss; event_timestamps := ts |}.
  split.
  - unfold scatter_vector. rewrite Hvs, Hss, Hts. cbn [bind].
    by rewrite !repeated_Some.
  - intros i L r Hi Hr. cbn [values statuses event_timestamps].
    split_and!; eauto.
Qed.

Lemma populate_response_scatter
    (feature_data : list (list Timestamp * list FieldStatus * list Value))
    (indexes : list (list nat)) (N : nat)
    (online_features_response : GetOnlineFeaturesResponse Value)
    (full_feature_names : bool) (requested_features : list string)
    (table : FeatureView) :
  partitions indexes N →
  feature_data ≠ [] →
  length feature_data = length indexes →
  Forall (λ d, length d.1.1 = length requested_features
               ∧ length d.1.2 = length requested_features
               ∧ length d.2 = length requested_features) feature_data →
  ∃ vectors,
    _populate_response_from_feature_data feature_data indexes
      online_features_response full_feature_names requested_features table
    = inr {| feature_names :=
               feature_names online_features_response
               ++ ((λ feature_name,
                      if full_feature_names
                      then name_to_use (projection table) +:+ "__"
                           +:+ feature_name
                      else feature_name) <$> requested_features);
             results := results online_features_response ++ vectors |}
    ∧ length vectors = length requested_features
    ∧ ∀ j fv i d L r,
        vectors !! j = Some fv → feature_data !! i = Some d →
        indexes !! i = Some L → r ∈ L →
        values fv !! r = d.2 !! j
        ∧ statuses fv !! r = d.1.2 !! j
        ∧ event_timestamps fv !! r = d.1.1 !! j.
Proof.
  intros Hp Hne Hlen Hdata.
  set (ts := (λ d : list Timestamp * list FieldStatus * list Value, d.1.1)
               <$> feature_data).
  set (ss := (λ d : list Timestamp * list FieldStatus * list Value, d.1.2)
               <$> feature_data).
  set (vs := (λ d : list Timestamp * list FieldStatus * list Value, d.2)
               <$> feature_data).
  set (n := length requested_features).
  assert (length (zip_star ts) = n ∧ length (zip_star ss) = n
          ∧ length (zip_star vs) = n) as (Hts & Hss & Hvs).
  { split_and!; (apply zip_star_length; [by destruct feature_data|]);
      apply Forall_fmap; (eapply Forall_impl; [exact Hdata|]);
      by intros d (? & ? & ?). }
  set (triples := zip (zip (zip_star ts) (zip_star ss)) (zip_star vs)).
  set (scatter :=
         λ '(timestamp_vector, statuses_vector, values_vector),
           scatter_vector (Value := Value) timestamp_vector statuses_vector
             values_vector indexes).
  assert (Forall (λ t : list Timestamp * list FieldStatus * list Value,
            ∃ fv, scatter t = inr fv
                  ∧ ∀ i L r, indexes !! i = Some L → r ∈ L →
                      values fv !! r = t.2 !! i
                      ∧ statuses fv !! r = t.1.2 !! i
                      ∧ event_timestamps fv !! r = t.1.1 !! i) triples)
    as Hscatter.
  { apply Forall_lookup. intros j [[tv sv] vv] Hj. subst triples.
    apply lookup_zip_with_Some in Hj as (tsv & vv' & [= <- <-] & Hj & Hvv).
    apply lookup_zip_with_Some in Hj as (tv' & sv' & [= <- <-] & Htv & Hsv).
    apply zip_star_lookup, Forall2_length in Htv, Hsv, Hvv.
    unfold ts in Htv. unfold ss in Hsv. unfold vs in Hvv.
    rewrite length_fmap in Htv. rewrite length_fmap in Hsv.
    rewrite length_fmap in Hvv. cbn [fst snd]. unfold scatter.
    apply (scatter_vector_partition _ _ _ _ N); congruence. }
  apply mapM_Forall_inr in Hscatter as (vectors & Hrun & Hall).
  exists vectors. split_and!.
  - unfold _populate_response_from_feature_data.
    destruct feature_data as [|d0 fd]; [done|]. cbn [bind].
    fold ts ss vs. fold triples.
    fold scatter. by rewrite Hrun.
  - apply Forall2_length in Hall. rewrite <- Hall. subst triples.
    rewrite !length_zip_with. lia.
  - intros j fv i d L r Hj Hi HL Hr.
    destruct (Forall2_lookup_r _ _ _ _ _ Hall Hj)
      as ([[tv sv] vv] & Htrip & Hget).
    destruct (Hget i L r HL Hr) as (Hv & Hs & Ht). cbn [fst snd] in *.
    subst triples.
    apply lookup_zip_with_Some in Htrip as (tsv & vv' & [= <- <-] & Htrip & Hvv).
    apply lookup_zip_with_Some in Htrip as (tv' & sv' & [= <- <-] & Htv & Hsv).
    apply zip_star_lookup in Htv, Hsv, Hvv.
    unfold ts in Htv. unfold ss in Hsv. unfold vs in Hvv.
    rewrite Forall2_fmap_l in Htv. rewrite Forall2_fmap_l in Hsv.
    rewrite Forall2_fmap_l in Hvv.
    rewrite Hv, Hs, Ht. split_and!.
    + destruct (Forall2_lookup_l _ _ _ _ _ Hvv Hi) as (x & -> & Hx). done.
    + destruct (Forall2_lookup_l _ _ _ _ _ Hsv Hi) as (x & -> & Hx). done.
    + destruct (Forall2_lookup_l _ _ _ _ _ Htv Hi) as (x & -> & Hx). done.
Qed.

(** X11. The assembler on the rows of one table, one row of provider data
    per unique key: it extends the response by one column per requested
    feature, named by the feature (qualified by the view when asked), and
    every row of the batch is filled: a row is listed for some unique key,
    and in the column of the feature at position [j] it holds the value, the
    status and the timestamp that the provider's row for that key has at
    position [j]. *)
Theorem populate_response_from_feature_data_rows
    (feature_data : list (list Timestamp * list FieldStatus * list Value))
    (indexes : list (list nat)) (N : nat)
    (online_features_response : GetOnlineFeaturesResponse Value)
    (full_feature_names : bool) (requested_features : list string)
    (table : FeatureView) :
  partitions indexes N →
  feature_data ≠ [] →
  length feature_data = length indexes →
  Forall (λ d, length d.1.1 = length requested_features
               ∧ length d.1.2 = length requested_features
               ∧ length d.2 = length requested_features) feature_data →
  ∃ vectors,
    _populate_response_from_feature_data feature_data indexes
      online_features_response full_feature_names requested_features table
    = inr {| feature_names :=
               feature_names online_features_response
               ++ ((λ feature_name,
                      if full_feature_names
                      then name_to_use (projection table) +:+ "__"
                           +:+ feature_name
                      else feature_name) <$> requested_features);
             results := results online_features_response ++ vectors |}
    ∧ length vectors = length requested_features
    ∧ ∀ r, (r < N)%nat →
        ∃ i d L,
          feature_data !! i = Some d ∧ indexes !! i = Some L ∧ r ∈ L
          ∧ ∀ j fv,
              vectors !! j = Some fv →
              values fv !! r = d.2 !! j
              ∧ statuses fv !! r = d.1.2 !! j
              ∧ event_timestamps fv !! r = d.1.1 !! j.
Proof.
  intros Hp Hne Hlen Hdata.
  destruct (populate_response_scatter feature_data indexes N
              online_features_response full_feature_names requested_features
              table Hp Hne Hlen Hdata) as (vectors & Hrun & Hvlen & Hget).
  exists vectors. split_and!; [done..|].
  intros r Hr. destruct (partitions_facts _ _ Hp) as (_ & _ & Hcov & _).
  destruct (Hcov r Hr) as (i & L & Hi & HrL).
  destruct (lookup_lt_is_Some_2 feature_data i) as [d Hd].
  { rewrite Hlen. by eapply lookup_lt_Some. }
  exists i, d, L. split_and!; [done..|].
  intros j fv Hj. by apply (Hget j fv i d L r).
Qed.
End PopulateResponse.

Lemma snd_zip_take {A B : Type} (l : list A) (k : list B) :
  (zip l k).*2 = take (length l) k.
Proof.
  revert k. induction l as [|x l IH]; intros [|y k]; cbn; [done..|].
  f_equal. apply IH.
Qed.

Section PopulateResponseShort.
Context {Value : Type}.

Lemma apply_list_mapping_short {A : Type} (lst : list A)
    (indexes : list (list nat)) (N : nat) :
  partitions indexes N →
  Forall (λ L, L ≠ []) indexes →
  (length lst < length indexes)%nat →
  ∃ output, apply_list_mapping lst indexes = inr output ∧ None ∈ output.
Proof.
  intros Hp Hne Hshort.
  destruct (partitions_facts _ _ Hp) as (Hsum & _ & _ & Hlt & Hsame).
  destruct (apply_list_mapping_in_range lst indexes)
    as (o & Hrun & Hlen & Hout & _).
  { rewrite snd_zip_take, Hsum. apply Forall_lookup. intros i L Hi.
    apply Forall_forall. intros r Hr.
    apply lookup_take_Some in Hi as [Hi _]. eauto. }
  exists o. split; [done|].
  destruct (lookup_lt_is_Some_2 indexes (length lst) Hshort) as [L HL].
  destruct L as [|r L].
  { rewrite Forall_lookup in Hne. by destruct (Hne _ _ HL). }
  assert (r ∈ r :: L) as Hr by left.
  apply (list_elem_of_lookup_2 _ r). apply Hout.
  - rewrite Hsum. eauto.
  - rewrite snd_zip_take. intros Hin. apply elem_of_concat in Hin
      as (i & L' & Hi & Hr').
    apply lookup_take_Some in Hi as [Hi Hlti].
    assert (i = length lst) by eauto. lia.
Qed.

(** X12. The assembler relies on the provider returning one row per entity
    key asked for. When the provider returns rows, but fewer than the unique
    keys of the batch, and at least one feature is requested, the assembler
    raises [TypeError]: the batch rows of the keys left without provider
    data stay unset, and a feature vector refuses them. *)
Theorem populate_response_from_feature_data_too_few_rows
    (feature_data : list (list Timestamp * list FieldStatus * list Value))
    (indexes : list (list nat)) (N : nat)
    (online_features_response : GetOnlineFeaturesResponse Value)
    (full_feature_names : bool) (requested_features : list string)
    (table : FeatureView) :
  partitions indexes N →
  Forall (λ L, L ≠ []) indexes →
  requested_features ≠ [] →
  feature_data ≠ [] →
  (length feature_data < length indexes)%nat →
  Forall (λ d, length d.1.1 = length requested_features
               ∧ length d.1.2 = length requested_features
               ∧ length d.2 = length requested_features) feature_data →
  _populate_response_from_feature_data feature_data indexes
    online_features_response full_feature_names requested_features table
  = raise TypeError.
Proof.
  intros Hp Hne Hrf Hfd Hshort Hdata.
  unfold _populate_response_from_feature_data.
  destruct feature_data as [|d0 fd]; [done|]. cbn [bind].
  set (feature_data := d0 :: fd) in *.
  set (ts := (λ d : list Timestamp * list FieldStatus * list Value, d.1.1)
               <$> feature_data).
  set (ss := (λ d : list Timestamp * list FieldStatus * list Value, d.1.2)
               <$> feature_data).
  set (vs := (λ d : list Timestamp * list FieldStatus * list Value, d.2)
               <$> feature_data).
  set (n := length requested_features).
  assert (0 < n)%nat as Hn by (subst n; destruct requested_features; [done|simpl; lia]).
  assert (length (zip_star ts) = n ∧ length (zip_star ss) = n
          ∧ length (zip_star vs) = n) as (Hts & Hss & Hvs).
  { split_and!; (apply zip_star_length; [by destruct feature_data|]);
      apply Forall_fmap; (eapply Forall_impl; [exact Hdata|]);
      by intros d (? & ? & ?). }
  destruct (zip_star ts) as [|tv tss] eqn:Etv; [simpl in Hts; lia|].
  destruct (zip_star ss) as [|sv sss] eqn:Esv; [simpl in Hss; lia|].
  destruct (zip_star vs) as [|vv vss] eqn:Evv; [simpl in Hvs; lia|].
  assert (length tv = length feature_data ∧ length sv = length feature_data
          ∧ length vv = length feature_data) as (Htv & Hsv & Hvv).
  { split_and!.
    - assert (zip_star ts !! 0 = Some tv) as H by by rewrite Etv.
      apply zip_star_lookup, Forall2_length in H. unfold ts in H.
      by rewrite length_fmap in H.
    - assert (zip_star ss !! 0 = Some sv) as H by by rewrite Esv.
      apply zip_star_lookup, Forall2_length in H. unfold ss in H.
      by rewrite length_fmap in H.
    - assert (zip_star vs !! 0 = Some vv) as H by by rewrite Evv.
      apply zip_star_lookup, Forall2_length in H. unfold vs in H.
      by rewrite length_fmap in H. }
  cbn [zip zip_with mapM]. unfold scatter_vector at 1.
  destruct (apply_list_mapping_short vv indexes N) as (ov & -> & Hnone);
    [done|done|lia|].
  destruct (apply_list_mapping_short sv indexes N) as (os & -> & _);
    [done|done|lia|].
  destruct (apply_list_mapping_short tv indexes N) as (ot & -> & _);
    [done|done|lia|].
  cbn [bind]. by rewrite (repeated_None ov Hnone).
Qed.
End PopulateResponseShort.

(** ** The groups of a request *)

Section DefaultDict.
Implicit Types (d : dict string (gset string)) (k x : string).

Lemma defaultdict_add_get d k x :
  ∃ s, dict_get k (defaultdict_add k x d) = Some s ∧ x ∈ s.
Proof.
  unfold defaultdict_add. rewrite dict_get_set, decide_True by done.
  eexists. split; [done|]. set_solver.
Qed.

Lemma defaultdict_add_mono d k k' x s :
  dict_get k d = Some s →
  ∃ s', dict_get k (defaultdict_add k' x d) = Some s' ∧ s ⊆ s'.
Proof.
  intros Hget. unfold defaultdict_add, dict_get_default. rewrite dict_get_set.
  case_decide as Hk.
  - subst. rewrite Hget. eexists. split; [done|]. set_solver.
  - by exists s.
Qed.

Lemma defaultdict_add_keys_NoDup d k x :
  NoDup (dict_keys d) → NoDup (dict_keys (defaultdict_add k x d)).
Proof. apply dict_set_keys_NoDup. Qed.

Lemma dict_le_refl d : dict_le d d.
Proof. intros k s ?. by exists s. Qed.

Lemma dict_le_trans d1 d2 d3 : dict_le d1 d2 → dict_le d2 d3 → dict_le d1 d3.
Proof.
  intros H12 H23 k s Hk. destruct (H12 _ _ Hk) as (s2 & H2 & Hs).
  destruct (H23 _ _ H2) as (s3 & H3 & Hs'). exists s3. split; [done|].
  set_solver.
Qed.

Lemma dict_le_add d k x : dict_le d (defaultdict_add k x d).
Proof. intros k' s. apply defaultdict_add_mono. Qed.

Lemma dict_le_elem d d' k x :
  dict_le d d' → (∃ s, dict_get k d = Some s ∧ x ∈ s) →
  ∃ s, dict_get k d' = Some s ∧ x ∈ s.
Proof.
  intros Hle (s & Hs & Hx). destruct (Hle _ _ Hs) as (s' & Hs' & Hsub).
  exists s'. split; [done|]. set_solver.
Qed.

Lemma defaultdict_add_inv d k k' x x' s :
  dict_get k (defaultdict_add k' x' d) = Some s → x ∈ s →
  (∃ s0, dict_get k d = Some s0 ∧ x ∈ s0) ∨ (k = k' ∧ x = x').
Proof.
  unfold defaultdict_add, dict_get_default. rewrite dict_get_set.
  case_decide as Hk; [|by left; exists s].
  intros [= <-] [Hx|Hx]%elem_of_union.
  - left. subst. destruct (dict_get k' d) as [s0|]; [by exists s0|].
    by apply elem_of_empty in Hx.
  - right. set_solver.
Qed.

(** The features of one source projection, added under its name. *)
Lemma add_projection_features d (k : string) (feats : list string) :
  let d' := foldl (λ vf input_feat, defaultdict_add k input_feat vf) d feats in
  dict_le d d'
  ∧ (NoDup (dict_keys d) → NoDup (dict_keys d'))
  ∧ (∀ x, x ∈ feats → ∃ s, dict_get k d' = Some s ∧ x ∈ s)
  ∧ (∀ k' s x, dict_get k' d' = Some s → x ∈ s →
       (∃ s0, dict_get k' d = Some s0 ∧ x ∈ s0) ∨ (k' = k ∧ x ∈ feats)).
Proof.
  revert d. induction feats as [|f feats IH]; intros d; cbn [foldl].
  - split_and!; [apply dict_le_refl|done| |].
    + by intros x ?%elem_of_nil.
    + intros k' s x Hs Hx. left. by exists s.
  - destruct (IH (defaultdict_add k f d)) as (Hle & Hnd & Hin & Hinv).
    split_and!.
    + eapply dict_le_trans; [apply dict_le_add|exact Hle].
    + intros H. by apply Hnd, defaultdict_add_keys_NoDup.
    + intros x [->|Hx]%elem_of_cons; [|by apply Hin].
      eapply dict_le_elem; [exact Hle|]. apply defaultdict_add_get.
    + intros k' s x Hs Hx.
      destruct (Hinv k' s x Hs Hx) as [(s0 & Hs0 & Hx0)|[-> Hf]].
      * destruct (defaultdict_add_inv _ _ _ _ _ _ Hs0 Hx0) as [?|[-> ->]];
          [by left|]. right. split; [done|]. by left.
      * right. split; [done|]. by right.
Qed.

(** The features of all the source projections of an on demand view. *)
Lemma add_source_features d (sources : list FeatureViewProjection) :
  let d' :=
    foldl (λ vf input_fv_projection,
             foldl (λ vf input_feat,
                      defaultdict_add (name input_fv_projection) input_feat vf)
               vf (features input_fv_projection)) d sources in
  dict_le d d'
  ∧ (NoDup (dict_keys d) → NoDup (dict_keys d'))
  ∧ (∀ p x, p ∈ sources → x ∈ features p →
       ∃ s, dict_get (name p) d' = Some s ∧ x ∈ s)
  ∧ (∀ k s x, dict_get k d' = Some s → x ∈ s →
       (∃ s0, dict_get k d = Some s0 ∧ x ∈ s0)
       ∨ (∃ p, p ∈ sources ∧ name p = k ∧ x ∈ features p)).
Proof.
  revert d. induction sources as [|p sources IH]; intros d; cbn [foldl].
  - split_and!; [apply dict_le_refl|done| |].
    + by intros p x ?%elem_of_nil.
    + intros k s x Hs Hx. left. by exists s.
  - destruct (add_projection_features d (name p) (features p))
      as (Hle1 & Hnd1 & Hin1 & Hinv1).
    set (d1 := foldl _ d (features p)) in *.
    destruct (IH d1) as (Hle & Hnd & Hin & Hinv).
    split_and!.
    + eapply dict_le_trans; [exact Hle1|exact Hle].
    + intros H. by apply Hnd, Hnd1.
    + intros q x [->|Hq]%elem_of_cons Hx; [|by apply Hin].
      eapply dict_le_elem; [exact Hle|]. by apply Hin1.
    + intros k s x Hs Hx.
      destruct (Hinv k s x Hs Hx) as [(s0 & Hs0 & Hx0)|(q & Hq & Hk & Hxq)].
      * destruct (Hinv1 k s0 x Hs0 Hx0) as [?|[-> Hf]]; [by left|].
        right. exists p. split_and!; [by left|done..].
      * right. exists q. split_and!; [by right|done..].
Qed.
End DefaultDict.

Section Groups.
Context {Value : Type}.
Context (get_feature : FeatureViewProjection → string → Result unit).
Context (view_index : dict string FeatureView).
Context (request_view_index : dict string RequestFeatureView).
Context (on_demand_view_index : dict string (OnDemandFeatureView Value)).

Local Abbreviation step :=
  (group_feature_ref get_feature view_index request_view_index
     on_demand_view_index).

(** What the loop has filed for a reference once it is past it. *)
Let filed (st : GroupState) (ref : string) : Prop :=
  ∃ view_name feat_name,
    split_ref ref = inr (view_name, feat_name)
    ∧ match dict_get view_name view_index with
      | Some _ =>
          ∃ s, dict_get view_name (views_features st) = Some s ∧ feat_name ∈ s
      | None =>
          match dict_get view_name on_demand_view_index with
          | Some odfv =>
              (∃ s, dict_get view_name (on_demand_view_features st) = Some s
                    ∧ feat_name ∈ s)
              ∧ ∀ p x, p ∈ dict_values (source_feature_view_projections odfv) →
                       x ∈ features p →
                       ∃ s, dict_get (name p) (views_features st) = Some s
                            ∧ x ∈ s
          | None => True
          end
      end.

Let grows (st st' : GroupState) : Prop :=
  dict_le (views_features st) (views_features st')
  ∧ dict_le (on_demand_view_features st) (on_demand_view_features st')
  ∧ (NoDup (dict_keys (views_features st)) →
     NoDup (dict_keys (views_features st')))
  ∧ (NoDup (dict_keys (on_demand_view_features st)) →
     NoDup (dict_keys (on_demand_view_features st'))).

Lemma filed_grows st st' ref : grows st st' → filed st ref → filed st' ref.
Proof.
  intros (Hvf & Hod & _) (v & f & Hsplit & H). exists v, f. split; [done|].
  destruct (dict_get v view_index); [by eapply dict_le_elem|].
  destruct (dict_get v on_demand_view_index) as [odfv|]; [|done].
  destruct H as [H1 H2]. split; [by eapply dict_le_elem|].
  intros p x Hp Hx. eapply dict_le_elem; [exact Hvf|]. by apply H2.
Qed.

Lemma group_feature_ref_files st ref st' :
  step st ref = inr st' → grows st st' ∧ filed st' ref.
Proof.
  unfold group_feature_ref. intros H.
  apply bind_inr in H as ([v f] & Hsplit & H).
  destruct (dict_get v view_index) as [view|] eqn:Hv.
  { apply bind_inr in H as (_ & _ & H). injection H as <-.
    split.
    - split_and!; cbn; [apply dict_le_add|apply dict_le_refl| |done].
      apply defaultdict_add_keys_NoDup.
    - exists v, f. split; [done|]. rewrite Hv. cbn. apply defaultdict_add_get. }
  destruct (dict_get v on_demand_view_index) as [odfv|] eqn:Ho.
  { apply bind_inr in H as (_ & _ & H). injection H as <-.
    destruct (add_source_features (views_features st)
                (dict_values (source_feature_view_projections odfv)))
      as (Hle & Hnd & Hin & _).
    split.
    - split_and!; cbn; [exact Hle|apply dict_le_add|exact Hnd|].
      apply defaultdict_add_keys_NoDup.
    - exists v, f. split; [done|]. rewrite Hv, Ho. cbn.
      split; [apply defaultdict_add_get|exact Hin]. }
  destruct (dict_get v request_view_index) as [rv|] eqn:Hr; [|done].
  apply bind_inr in H as (_ & _ & H). injection H as <-.
  split.
  - split_and!; cbn; (apply dict_le_refl || done).
  - exists v, f. split; [done|]. by rewrite Hv, Ho.
Qed.

Lemma group_loop_files (refs : list string) st st' :
  foldM step st refs = inr st' →
  grows st st' ∧ ∀ ref, ref ∈ refs → filed st' ref.
Proof.
  revert st. induction refs as [|ref refs IH]; intros st H; cbn [foldM] in H.
  - injection H as <-. split.
    + split_and!; (apply dict_le_refl || done).
    + by intros ref ?%elem_of_nil.
  - apply bind_inr in H as (st1 & Hstep & H).
    apply group_feature_ref_files in Hstep as [Hg1 Hf1].
    destruct (IH _ H) as [Hg Hf]. split.
    + destruct Hg1 as (? & ? & ? & ?), Hg as (? & ? & ? & ?).
      split_and!; [by eapply dict_le_trans..|tauto|tauto].
    + intros r [->|Hr]%elem_of_cons; [by eapply filed_grows|by apply Hf].
Qed.

(** Where a feature filed under a standard view comes from: a reference
    to that view, or a source projection of a referenced on demand view. *)
Let asked (refs : list string) (k x : string) : Prop :=
  (∃ ref, ref ∈ refs ∧ split_ref ref = inr (k, x)
          ∧ is_Some (dict_get k view_index))
  ∨ (∃ ref view_name feat_name odfv p,
       ref ∈ refs ∧ split_ref ref = inr (view_name, feat_name)
       ∧ dict_get view_name view_index = None
       ∧ dict_get view_name on_demand_view_index = Some odfv
       ∧ p ∈ dict_values (source_feature_view_projections odfv)
       ∧ name p = k ∧ x ∈ features p).

Let sound (refs : list string) (st : GroupState) : Prop :=
  ∀ k s x, dict_get k (views_features st) = Some s → x ∈ s → asked refs k x.

Lemma group_feature_ref_sound (refs : list string) st ref st' :
  ref ∈ refs → sound refs st → step st ref = inr st' → sound refs st'.
Proof.
  intros Href Hsound H. unfold group_feature_ref in H.
  apply bind_inr in H as ([v f] & Hsplit & H).
  destruct (dict_get v view_index) as [view|] eqn:Hv.
  { apply bind_inr in H as (_ & _ & H). injection H as <-.
    intros k s x Hs Hx. cbn in Hs.
    destruct (defaultdict_add_inv _ _ _ _ _ _ Hs Hx)
      as [(s0 & Hs0 & Hx0)|[-> ->]]; [by eapply Hsound|].
    left. exists ref. split_and!; [done..|]. by rewrite Hv. }
  destruct (dict_get v on_demand_view_index) as [odfv|] eqn:Ho.
  { apply bind_inr in H as (_ & _ & H). injection H as <-.
    destruct (add_source_features (views_features st)
                (dict_values (source_feature_view_projections odfv)))
      as (_ & _ & _ & Hinv).
    intros k s x Hs Hx. cbn in Hs.
    destruct (Hinv k s x Hs Hx) as [(s0 & Hs0 & Hx0)|(p & Hp & Hk & Hxp)];
      [by eapply Hsound|].
    right. by exists ref, v, f, odfv, p. }
  destruct (dict_get v request_view_index) as [rv|] eqn:Hr; [|done].
  apply bind_inr in H as (_ & _ & H). injection H as <-. exact Hsound.
Qed.

Lemma group_loop_sound (refs : list string) st' :
  foldM step
    {| views_features := []; request_views_features := [];
       request_view_refs := ∅; on_demand_view_features := [] |} refs
  = inr st' →
  sound refs st'.
Proof.
  apply (foldM_invariant (sound refs)).
  - intros k s x Hs. done.
  - intros st ref st1 Href Hst Hstep. by eapply group_feature_ref_sound.
Qed.

Lemma grouped_result_Forall2 {View : Type} (index : dict string View)
    (d : dict string (gset string)) (g : list (View * list string)) :
  grouped_result index d = inr g →
  Forall2 (λ (entry : string * gset string) (group : View * list string),
             dict_get entry.1 index = Some group.1
             ∧ group.2 = elements entry.2) d g.
Proof.
  intros H. apply mapM_Forall2 in H.
  eapply Forall2_impl; [exact H|]. intros [k s] [view feats] Hrow. cbn in *.
  destruct (dict_get k index); [|done]. by injection Hrow as -> ->.
Qed.

Lemma grouped_result_elem {View : Type} (index : dict string View)
    (d : dict string (gset string)) (g : list (View * list string))
    (k : string) (s : gset string) (x : string) (view : View) :
  grouped_result index d = inr g →
  dict_get k d = Some s → x ∈ s → dict_get k index = Some view →
  ∃ feats, (view, feats) ∈ g ∧ x ∈ feats.
Proof.
  intros Hg Hk Hx Hview. apply grouped_result_Forall2 in Hg.
  apply dict_get_elem, list_elem_of_lookup in Hk as [i Hi].
  destruct (Forall2_lookup_l _ _ _ _ _ Hg Hi) as ([view' feats] & Hgi & Hv & Hf).
  cbn in *. rewrite Hview in Hv. injection Hv as <-. subst feats.
  exists (elements s). split; [by eapply list_elem_of_lookup_2|].
  by apply elem_of_elements.
Qed.
End Groups.

Section GroupTheorems.
Context {Value : Type}.
Context (get_feature : FeatureViewProjection → string → Result unit).

(** X13. Whenever [_group_feature_refs] returns: no two groups of standard
    views are for views of the same name, and no group lists a feature
    twice; the feature of every reference to a standard view is in the group
    of that view; the feature of every reference to an on demand view is in
    the group of that view, and every feature of every source projection of
    that view is in the group of the standard view that has the name of the
    projection; and a group of a standard view holds nothing else: each of
    its features is the feature of a reference to the view, or a feature of
    a source projection, of the name of the view, of a referenced on demand
    view. *)
Theorem group_feature_refs_groups (_features : list string)
    (all_feature_views : list FeatureView)
    (all_request_feature_views : list RequestFeatureView)
    (all_on_demand_feature_views : list (OnDemandFeatureView Value))
    (fvs_result : list (FeatureView * list string))
    (odfvs_result : list (OnDemandFeatureView Value * list string))
    (request_fvs_result : list (RequestFeatureView * list string))
    (request_view_refs : gset string) :
  let view_index : dict string FeatureView :=
    dict_of_list ((λ view, (name_to_use (projection view), view))
                    <$> all_feature_views) in
  let on_demand_view_index : dict string (OnDemandFeatureView Value) :=
    dict_of_list ((λ view, (name_to_use (odfv_projection view), view))
                    <$> all_on_demand_feature_views) in
  _group_feature_refs get_feature _features all_feature_views
    all_request_feature_views all_on_demand_feature_views
  = inr (fvs_result, odfvs_result, request_fvs_result, request_view_refs) →
  NoDup ((λ group, name_to_use (projection group.1)) <$> fvs_result)
  ∧ Forall (λ group, NoDup group.2) fvs_result
  ∧ (∀ ref view_name feat_name view,
       ref ∈ _features → split_ref ref = inr (view_name, feat_name) →
       dict_get view_name view_index = Some view →
       ∃ feats, (view, feats) ∈ fvs_result ∧ feat_name ∈ feats)
  ∧ (∀ ref view_name feat_name odfv,
       ref ∈ _features → split_ref ref = inr (view_name, feat_name) →
       dict_get view_name view_index = None →
       dict_get view_name on_demand_view_index = Some odfv →
       (∃ feats, (odfv, feats) ∈ odfvs_result ∧ feat_name ∈ feats)
       ∧ ∀ p x, p ∈ dict_values (source_feature_view_projections odfv) →
                x ∈ features p →
                ∃ view feats, (view, feats) ∈ fvs_result
                              ∧ name_to_use (projection view) = name p
                              ∧ x ∈ feats)
  ∧ (∀ view feats x,
       (view, feats) ∈ fvs_result → x ∈ feats →
       (∃ ref, ref ∈ _features
               ∧ split_ref ref = inr (name_to_use (projection view), x))
       ∨ (∃ ref view_name feat_name odfv p,
            ref ∈ _features ∧ split_ref ref = inr (view_name, feat_name)
            ∧ dict_get view_name view_index = None
            ∧ dict_get view_name on_demand_view_index = Some odfv
            ∧ p ∈ dict_values (source_feature_view_projections odfv)
            ∧ name p = name_to_use (projection view) ∧ x ∈ features p)).
Proof.
  intros view_index on_demand_view_index. unfold _group_feature_refs.
  fold view_index on_demand_view_index.
  set (request_view_index :=
         dict_of_list ((λ view, (name_to_use (request_projection view), view))
                         <$> all_request_feature_views)).
  intros H. apply bind_inr in H as (st & Hloop & H).
  apply bind_inr in H as (g & Hg & H).
  apply bind_inr in H as (gr & Hgr & H).
  apply bind_inr in H as (go & Hgo & H).
  injection H as -> -> -> <-.
  pose proof (group_loop_sound _ _ _ _ _ _ Hloop) as Hsound.
  apply group_loop_files in Hloop as [(_ & _ & Hnd & _) Hfiled].
  cbn in Hnd. specialize (Hnd (NoDup_nil_2)).
  pose proof (grouped_result_Forall2 _ _ _ Hg) as Hrows.
  assert (∀ k view, dict_get k view_index = Some view →
                    name_to_use (projection view) = k) as Hname.
  { intros k view Hk. apply dict_get_of_list, list_elem_of_fmap in Hk
      as (view' & [= -> ->] & _). done. }
  split_and!.
  - assert ((λ group : FeatureView * list string,
               name_to_use (projection group.1)) <$> fvs_result
            = dict_keys (views_features st)) as ->; [|done].
    unfold dict_keys. clear -Hrows Hname.
    induction Hrows as [|[k s] [view feats] d g [Hk _] _ IH]; [done|].
    cbn in *. f_equal; [by apply Hname|exact IH].
  - apply Forall_forall. intros [view feats] Hin.
    apply list_elem_of_lookup in Hin as [i Hi].
    destruct (Forall2_lookup_r _ _ _ _ _ Hrows Hi) as ([k s] & _ & _ & Heq).
    cbn in *. subst feats. apply NoDup_elements.
  - intros ref v f view Href Hsplit Hview.
    destruct (Hfiled ref Href) as (v' & f' & Hsplit' & Hf).
    rewrite Hsplit in Hsplit'. injection Hsplit' as <- <-.
    rewrite Hview in Hf. destruct Hf as (s & Hs & Hx).
    by eapply grouped_result_elem.
  - intros ref v f odfv Href Hsplit Hview Hodfv.
    destruct (Hfiled ref Href) as (v' & f' & Hsplit' & Hf).
    rewrite Hsplit in Hsplit'. injection Hsplit' as <- <-.
    rewrite Hview, Hodfv in Hf. destruct Hf as [(s & Hs & Hx) Hsrc].
    split; [by eapply grouped_result_elem|].
    intros p x Hp Hxp. destruct (Hsrc p x Hp Hxp) as (s' & Hs' & Hx').
    apply dict_get_elem, list_elem_of_lookup in Hs' as [i Hi].
    destruct (Forall2_lookup_l _ _ _ _ _ Hrows Hi)
      as ([view feats] & Hgi & Hv & Heq). cbn in *. subst feats.
    exists view, (elements s'). split_and!.
    + by eapply list_elem_of_lookup_2.
    + by apply Hname.
    + by apply elem_of_elements.
  - intros view feats x Hin Hx.
    apply list_elem_of_lookup in Hin as [i Hi].
    destruct (Forall2_lookup_r _ _ _ _ _ Hrows Hi) as ([k s] & Hd & Hk & Heq).
    cbn in *. subst feats. apply elem_of_elements in Hx.
    rewrite (Hname _ _ Hk).
    assert (dict_get k (views_features st) = Some s) as Hs.
    { apply dict_elem_get_NoDup; [done|]. by eapply list_elem_of_lookup_2. }
    destruct (Hsound k s x Hs Hx) as [(ref & ? & ? & _)|H]; [left; eauto|].
    by right.
Qed.
End GroupTheorems.

(** ** What the augmenter selects *)

Lemma dict_set_elem {K V : Type} `{!EqDecision K} (d : dict K V) (k k' : K)
    (v v' : V) :
  (k', v') ∈ dict_set k v d → (k', v') ∈ d ∨ (k', v') = (k, v).
Proof.
  induction d as [|[k0 v0] d IH]; cbn [dict_set].
  - intros ->%list_elem_of_singleton. by right.
  - case_decide as Hk.
    + subst. intros [->|Hin]%elem_of_cons; [by right|]. left. by right.
    + intros [->|Hin]%elem_of_cons; [left; by left|].
      destruct (IH Hin) as [?|?]; [left; by right|by right].
Qed.

Section AugmenterSelection.
Context {Value : Type}.

(** X14. The columns the augmenter appends. Each one is a column of the
    transformation, of the response as it was given, of a requested on
    demand view of the name of some reference of the request; it carries the
    output name of that reference, qualified by the view when asked. Nothing
    that no reference names is appended, whatever else the transformation
    computes. *)
Theorem augment_response_selects_requested
    (online_features_response resp' : GetOnlineFeaturesResponse Value)
    (feature_refs : list string)
    (requested_on_demand_feature_views : list (OnDemandFeatureView Value))
    (full_feature_names : bool) :
  _augment_response_with_on_demand_transforms online_features_response
    feature_refs requested_on_demand_feature_views full_feature_names
  = inr resp' →
  ∃ names new,
    feature_names resp' = feature_names online_features_response ++ names
    ∧ results resp' = results online_features_response ++ new
    ∧ Forall2 (λ column_name fv,
                 ∃ odfv ref feature_name proto_values,
                   odfv ∈ requested_on_demand_feature_views
                   ∧ ref ∈ feature_refs
                   ∧ split_ref ref = inr (odfv_name odfv, feature_name)
                   ∧ column_name
                     = (if full_feature_names
                        then name_to_use (odfv_projection odfv) +:+ "__"
                             +:+ feature_name
                        else feature_name)
                   ∧ (column_name, proto_values)
                     ∈ get_transformed_features odfv online_features_response
                         full_feature_names
                   ∧ fv = odfv_vector proto_values) names new.
Proof.
  unfold _augment_response_with_on_demand_transforms. intros Hrun.
  set (requested_odfv_map :=
         dict_of_list ((λ odfv, (odfv_name odfv, odfv))
                         <$> requested_on_demand_feature_views)) in *.
  set (out_name := λ (odfv : OnDemandFeatureView Value) feature_name,
         if full_feature_names
         then name_to_use (odfv_projection odfv) +:+ "__" +:+ feature_name
         else feature_name).
  assert (∀ view_name odfv, dict_get view_name requested_odfv_map = Some odfv →
            odfv ∈ requested_on_demand_feature_views
            ∧ odfv_name odfv = view_name) as Hmap.
  { intros v o Hget. apply dict_get_of_list, list_elem_of_fmap in Hget
      as (o' & [= -> ->] & Ho). done. }
  apply bind_inr in Hrun as (odfv_feature_refs & Hrefs & Hrun).
  assert (∀ view_name outs column_name,
            (view_name, outs) ∈ odfv_feature_refs → column_name ∈ outs →
            ∃ odfv ref feature_name,
              dict_get view_name requested_odfv_map = Some odfv
              ∧ ref ∈ feature_refs
              ∧ split_ref ref = inr (view_name, feature_name)
              ∧ column_name = out_name odfv feature_name) as Hasked.
  { revert Hrefs.
    apply (foldM_invariant
             (λ d : dict string (list string),
                ∀ view_name outs column_name,
                  (view_name, outs) ∈ d → column_name ∈ outs →
                  ∃ odfv ref feature_name,
                    dict_get view_name requested_odfv_map = Some odfv
                    ∧ ref ∈ feature_refs
                    ∧ split_ref ref = inr (view_name, feature_name)
                    ∧ column_name = out_name odfv feature_name)).
    - by intros v outs n ?%elem_of_nil.
    - intros d ref d' Href Hd Hstep.
      apply bind_inr in Hstep as ([v f] & Hsplit & Hstep).
      destruct (dict_get v requested_odfv_map) as [odfv|] eqn:Hget;
        injection Hstep as <-; [|exact Hd].
      intros v' outs n Hin Hn.
      apply dict_set_elem in Hin as [Hin|[= -> ->]]; [by eapply Hd|].
      apply elem_of_app in Hn as [Hn|Hn%list_elem_of_singleton].
      + unfold dict_get_default in Hn.
        destruct (dict_get v d) as [outs|] eqn:Hv;
          [|by apply elem_of_nil in Hn].
        apply dict_get_elem in Hv. by eapply Hd.
      + subst n. by exists odfv, ref, f. }
  revert Hrun.
  apply (foldM_invariant
           (λ cur : GetOnlineFeaturesResponse Value,
              ∃ names new,
                feature_names cur = feature_names online_features_response ++ names
                ∧ results cur = results online_features_response ++ new
                ∧ Forall2 (λ column_name fv,
                     ∃ odfv ref feature_name proto_values,
                       odfv ∈ requested_on_demand_feature_views
                       ∧ ref ∈ feature_refs
                       ∧ split_ref ref = inr (odfv_name odfv, feature_name)
                       ∧ column_name = out_name odfv feature_name
                       ∧ (column_name, proto_values)
                         ∈ get_transformed_features odfv
                             online_features_response full_feature_names
                       ∧ fv = odfv_vector proto_values) names new)).
  - exists [], []. rewrite !app_nil_r. by split_and!.
  - intros cur [view refs] cur' Hentry (names & new & Hn & Hr & Hall) Hstep.
    cbn beta iota in Hstep.
    destruct (dict_get view requested_odfv_map) as [odfv|] eqn:Hget;
      [|discriminate Hstep].
    injection Hstep as <-. cbn [feature_names results].
    rewrite Hn, Hr, <- !app_assoc.
    eexists _, _. split; [reflexivity|]. split; [reflexivity|].
    apply Forall2_app; [exact Hall|].
    apply Forall2_fmap. rewrite Forall2_fmap_r.
    apply Forall_Forall2_diag, Forall_forall.
    intros [n col] Hcol. apply list_elem_of_filter in Hcol as [Hsel Hcol].
    cbn [fst snd] in *.
    destruct (Hasked view refs n Hentry Hsel)
      as (odfv' & ref & f & Hget' & Href & Hsplit & ->).
    rewrite Hget in Hget'. injection Hget' as <-.
    destruct (Hmap _ _ Hget) as [Ho <-].
    by exists odfv, ref, f, col.
Qed.
End AugmenterSelection.

(** ** From rows to columns *)

Section DictExt.
Context {K V : Type} `{!EqDecision K}.
Implicit Types (d : dict K V).

Lemma dict_get_Some_keys d k v : dict_get k d = Some v → k ∈ dict_keys d.
Proof.
  intros H. destruct (decide (k ∈ dict_keys d)) as [|Hn]; [done|].
  apply dict_get_None in Hn. congruence.
Qed.

Lemma dict_keys_get d k : k ∈ dict_keys d → is_Some (dict_get k d).
Proof.
  intros H. destruct (dict_get k d) eqn:E; [done|].
  by apply dict_get_None in E.
Qed.

Lemma dict_set_keys_present d k v :
  k ∈ dict_keys d → dict_keys (dict_set k v d) = dict_keys d.
Proof.
  unfold dict_keys. induction d as [|[k0 v0] d IH]; cbn.
  - by intros ?%elem_of_nil.
  - intros Hin. case_decide as Hk; cbn; [done|]. f_equal. apply IH.
    apply elem_of_cons in Hin as [|]; done.
Qed.

Lemma dict_keys_set_fresh d k v :
  k ∉ dict_keys d → dict_keys (dict_set k v d) = dict_keys d ++ [k].
Proof.
  intros H. rewrite dict_set_fresh by done. unfold dict_keys.
  by rewrite fmap_app.
Qed.

Lemma dict_ext d1 d2 :
  dict_keys d1 = dict_keys d2 → NoDup (dict_keys d1) →
  (∀ k, dict_get k d1 = dict_get k d2) → d1 = d2.
Proof.
  unfold dict_keys. revert d2.
  induction d1 as [|[k v] d1 IH]; intros [|[k' v'] d2]; cbn; try done.
  intros [= <- Hkeys] [Hk Hnd]%NoDup_cons Hget.
  pose proof (Hget k) as Hv. cbn in Hv. rewrite !decide_True in Hv by done.
  injection Hv as <-. f_equal. apply IH; [done..|].
  intros k0. specialize (Hget k0). cbn in Hget.
  case_decide as Hk0; [|done]. subst k0.
  transitivity (@None V); [|symmetry].
  - by apply dict_get_None.
  - apply dict_get_None. unfold dict_keys. by rewrite <- Hkeys.
Qed.
End DictExt.

Section RowsToColumns.
Context {V : Type}.
Implicit Types (columnar : dict string (list V)) (row : list (string * V)).

(** The values a row holds under a key, in the order of the row. *)
Let under (key : string) row : list V :=
  (filter (λ e, e.1 = key) row).*2.

Lemma under_NoDup key row :
  NoDup (dict_keys row) → under key row = option_list (dict_get key row).
Proof.
  unfold under, dict_keys. induction row as [|[k v] row IH]; [done|].
  rewrite fmap_cons. intros [Hk Hnd]%NoDup_cons. rewrite filter_cons.
  cbn [fst dict_get].
  destruct (decide (k = key)) as [->|Hne].
  - rewrite decide_True by done. rewrite fmap_cons. cbn [snd option_list].
    f_equal. assert (dict_get key row = None) as Hnone by by apply dict_get_None.
    rewrite IH, Hnone by done. done.
  - rewrite decide_False by done. by apply IH.
Qed.

Local Abbreviation strict_step :=
  (λ (columnar : dict string (list V)) '(key, value),
     match dict_get key columnar with
     | Some column => inr (dict_set key (column ++ [value]) columnar)
     | None => raise (ValueError "All entity_rows must have the same keys.")
     end).

Lemma strict_row_ok row columnar :
  Forall (λ key, key ∈ dict_keys columnar) (dict_keys row) →
  ∃ columnar',
    foldM strict_step columnar row = inr columnar'
    ∧ dict_keys columnar' = dict_keys columnar
    ∧ ∀ key, dict_get key columnar'
             = (λ column, column ++ under key row) <$> dict_get key columnar.
Proof.
  revert columnar. induction row as [|[k v] row IH]; intros c Hsub.
  - exists c. split_and!; [done..|]. intros key. unfold under.
    rewrite filter_nil, fmap_nil.
    destruct (dict_get key c); cbn; [|done]. by rewrite app_nil_r.
  - cbn [foldM]. unfold dict_keys in Hsub. rewrite fmap_cons in Hsub.
    apply Forall_cons in Hsub as [Hk Hsub]. cbn [fst] in Hk.
    destruct (dict_keys_get c k Hk) as [col Hcol].
    rewrite Hcol. cbn [bind].
    destruct (IH (dict_set k (col ++ [v]) c)) as (c' & Hrun & Hkeys & Hget).
    { by rewrite dict_set_keys_present. }
    exists c'. split_and!; [done| |].
    + rewrite Hkeys. by apply dict_set_keys_present.
    + intros key. rewrite Hget, dict_get_set. unfold under.
      rewrite filter_cons. cbn [fst].
      destruct (decide (key = k)) as [->|Hne].
      * rewrite decide_True by done. rewrite Hcol, fmap_cons. cbn.
        by rewrite <- app_assoc.
      * by rewrite decide_False by done.
Qed.

Lemma strict_row_fail row columnar :
  ¬ Forall (λ key, key ∈ dict_keys columnar) (dict_keys row) →
  foldM strict_step columnar row
  = raise (ValueError "All entity_rows must have the same keys.").
Proof.
  revert columnar. induction row as [|[k v] row IH]; intros c Hnot.
  - destruct Hnot. constructor.
  - cbn [foldM]. destruct (dict_get k c) as [col|] eqn:Hcol; [|done].
    cbn [bind]. apply IH. intros Hsub. apply Hnot.
    unfold dict_keys at 2. rewrite fmap_cons. constructor.
    + by eapply dict_get_Some_keys.
    + by rewrite dict_set_keys_present in Hsub by by eapply dict_get_Some_keys.
Qed.

Lemma strict_rows (rows : list (list (string * V))) columnar :
  match foldM (λ columnar entity_row, foldM strict_step columnar entity_row)
          columnar rows with
  | inr columnar' =>
      Forall (λ row, Forall (λ key, key ∈ dict_keys columnar) (dict_keys row))
        rows
      ∧ dict_keys columnar' = dict_keys columnar
      ∧ ∀ key, dict_get key columnar'
               = (λ column, column ++ concat (under key <$> rows))
                   <$> dict_get key columnar
  | inl (ValueError _) =>
      ∃ row key, row ∈ rows ∧ key ∈ dict_keys row ∧ key ∉ dict_keys columnar
  | inl _ => False
  end.
Proof.
  revert columnar. induction rows as [|row rows IH]; intros c.
  - cbn. split_and!; [constructor|done|]. intros key.
    destruct (dict_get key c); cbn; [|done]. by rewrite app_nil_r.
  - cbn [foldM].
    destruct (decide (Forall (λ key, key ∈ dict_keys c) (dict_keys row)))
      as [Hsub|Hnot].
    + destruct (strict_row_ok row c Hsub) as (c1 & -> & Hkeys1 & Hget1).
      cbn [bind]. specialize (IH c1).
      destruct (foldM _ c1 rows) as [[]|c']; try done.
      * destruct IH as (r & key & Hr & Hkey & Hmiss).
        exists r, key. split_and!; [by right|done|by rewrite <- Hkeys1].
      * destruct IH as (Hall & Hkeys & Hget). split_and!.
        -- constructor; [done|]. by rewrite <- Hkeys1.
        -- congruence.
        -- intros key. rewrite Hget, Hget1. rewrite fmap_cons. cbn [concat].
           destruct (dict_get key c); cbn; [|done]. by rewrite <- app_assoc.
    + rewrite strict_row_fail by done. cbn [bind raise].
      apply not_Forall_Exists, Exists_exists in Hnot as (key & Hkey & Hmiss);
        [|apply _].
      exists row, key. split_and!; [by left|done..].
Qed.
End RowsToColumns.

Section RowsToColumnsTheorems.
Context {V : Type}.

Let under (key : string) (row : list (string * V)) : list V :=
  (filter (λ e, e.1 = key) row).*2.

Lemma omap_all_Some {A B : Type} (f : A → option B) (l : list A) :
  Forall (λ x, is_Some (f x)) l →
  length (omap f l) = length l
  ∧ ∀ i x, l !! i = Some x → omap f l !! i = f x.
Proof.
  induction 1 as [|x l [y Hy] _ [IHl IHlook]]; [done|].
  cbn [omap list_omap]. rewrite Hy. split; [cbn; by f_equal|].
  intros [|i] x' Hi; cbn in *; [by injection Hi as <-|by apply IHlook].
Qed.

Lemma under_rows_NoDup (key : string) (rows : list (dict string V)) :
  Forall (λ row, NoDup (dict_keys row)) rows →
  concat (under key <$> rows) = omap (dict_get key) rows.
Proof.
  induction 1 as [|row rows Hrow _ IH]; [done|].
  rewrite fmap_cons. cbn [concat omap list_omap]. rewrite IH.
  unfold under. rewrite (under_NoDup key row Hrow).
  by destruct (dict_get key row).
Qed.

Lemma empty_columns_get (keys : list string) (key : string) :
  NoDup keys →
  dict_keys (dict_of_list ((λ k, (k, @nil V)) <$> keys)) = keys
  ∧ dict_get key (dict_of_list ((λ k, (k, @nil V)) <$> keys))
    = if decide (key ∈ keys) then Some [] else None.
Proof.
  intros Hnd. rewrite dict_of_list_NoDup_id.
  2:{ rewrite <- list_fmap_compose. by rewrite list_fmap_id. }
  split.
  - unfold dict_keys. rewrite <- list_fmap_compose. apply list_fmap_id.
  - clear Hnd. induction keys as [|k keys IH]; [done|].
    rewrite fmap_cons. cbn [dict_get]. rewrite IH.
    destruct (decide (key = k)) as [->|Hne].
    + rewrite decide_True; [done|by left].
    + case_decide as Hin.
      * rewrite decide_True; [done|by right].
      * rewrite decide_False; [done|]. by intros [|]%elem_of_cons.
Qed.

Lemma columnar_accepts (first : dict string V) (rest : list (dict string V)) :
  Forall (λ row, NoDup (dict_keys row)) (first :: rest) →
  Forall (λ row, Forall (λ key, key ∈ dict_keys first) (dict_keys row))
    (first :: rest) →
  ∃ columnar,
    get_online_features_columnar (first :: rest) = inr columnar
    ∧ dict_keys columnar = dict_keys first
    ∧ ∀ key, key ∈ dict_keys first →
        dict_get key columnar = Some (omap (dict_get key) (first :: rest)).
Proof.
  intros Hnd Hsub. unfold get_online_features_columnar. cbn [bind].
  set (rows := first :: rest) in *.
  assert (NoDup (dict_keys first)) as Hfirst
    by by apply Forall_cons in Hnd as [? _].
  destruct (empty_columns_get (dict_keys first) "" Hfirst) as [Hkeys0 _].
  set (columnar0 := dict_of_list ((λ k, (k, [])) <$> dict_keys first)) in *.
  pose proof (strict_rows rows columnar0) as H.
  match type of H with
  | match ?m with _ => _ end => destruct m as [[]|columnar] eqn:Hrun
  end; try done.
  - destruct H as (row & key & Hrow & Hkey & Hmiss). rewrite Hkeys0 in Hmiss.
    rewrite Forall_forall in Hsub. specialize (Hsub row Hrow).
    rewrite Forall_forall in Hsub. by destruct (Hmiss (Hsub key Hkey)).
  - destruct H as (_ & Hkeys & Hget). exists columnar.
    rewrite Hkeys0 in Hkeys. split_and!; [done..|].
    intros key Hkey. rewrite Hget.
    destruct (empty_columns_get (dict_keys first) key Hfirst) as [_ Hget0].
    fold columnar0 in Hget0. rewrite Hget0.
    rewrite decide_True by done.
    rewrite <- (under_rows_NoDup key rows Hnd). reflexivity.
Qed.

Lemma columnar_refuses (first : dict string V) (rest : list (dict string V)) :
  NoDup (dict_keys first) →
  ¬ Forall (λ row, Forall (λ key, key ∈ dict_keys first) (dict_keys row))
      (first :: rest) →
  ∃ msg, get_online_features_columnar (first :: rest) = raise (ValueError msg).
Proof.
  intros Hfirst Hnot. unfold get_online_features_columnar. cbn [bind].
  set (rows := first :: rest) in *.
  destruct (empty_columns_get (dict_keys first) "" Hfirst) as [Hkeys0 _].
  set (columnar0 := dict_of_list ((λ k, (k, [])) <$> dict_keys first)) in *.
  pose proof (strict_rows rows columnar0) as H.
  match type of H with
  | match ?m with _ => _ end => destruct m as [[]|columnar] eqn:Hrun
  end; try done.
  - by eexists.
  - destruct H as (Hall & _). rewrite Hkeys0 in Hall. done.
Qed.

(** X15. The conversion of [get_online_features], on rows that are
    dictionaries. It raises [IndexError] exactly on the empty list of rows
    and [ValueError] exactly when some row has a key that the first row
    lacks. Otherwise the result has the keys of the first row, in their
    order, and the column of a key holds the values the rows have under that
    key, in the order of the rows; a row that lacks the key contributes
    nothing to the column. *)
Theorem get_online_features_columnar_result
    (entity_rows : list (dict string V)) :
  Forall (λ row, NoDup (dict_keys row)) entity_rows →
  match get_online_features_columnar entity_rows with
  | inl IndexError => entity_rows = []
  | inl (ValueError _) =>
      ∃ first row key,
        head entity_rows = Some first ∧ row ∈ entity_rows
        ∧ key ∈ dict_keys row ∧ key ∉ dict_keys first
  | inl _ => False
  | inr columnar =>
      ∃ first,
        head entity_rows = Some first
        ∧ dict_keys columnar = dict_keys first
        ∧ Forall (λ row, Forall (λ key, key ∈ dict_keys first) (dict_keys row))
            entity_rows
        ∧ ∀ key, key ∈ dict_keys first →
            dict_get key columnar = Some (omap (dict_get key) entity_rows)
  end.
Proof.
  intros Hnd. destruct entity_rows as [|first rest]; [done|].
  destruct (decide (Forall (λ row, Forall (λ key, key ∈ dict_keys first)
                                     (dict_keys row)) (first :: rest)))
    as [Hsub|Hnot].
  - destruct (columnar_accepts first rest Hnd Hsub) as (c & -> & Hkeys & Hget).
    by exists first.
  - destruct (columnar_refuses first rest) as [msg ->]; [|done|].
    { by apply Forall_cons in Hnd as [? _]. }
    apply not_Forall_Exists, Exists_exists in Hnot as (row & Hrow & Hnot);
      [|apply _].
    apply not_Forall_Exists, Exists_exists in Hnot as (key & Hkey & Hmiss);
      [|apply _].
    by exists first, row, key.
Qed.

(** X16. Rows that all have the keys of a first row with at least one key go
    through the conversion and come out as columns of one common length, the
    number of rows, which the validator of [_get_online_features] accepts;
    and the value of row [i] under a key is the value at position [i] of the
    column of that key. *)
Theorem get_online_features_columnar_round_trip
    (entity_rows : list (dict string V)) (first : dict string V) :
  head entity_rows = Some first →
  dict_keys first ≠ [] →
  Forall (λ row, NoDup (dict_keys row)
                 ∧ ∀ key, key ∈ dict_keys row ↔ key ∈ dict_keys first)
    entity_rows →
  ∃ columnar,
    get_online_features_columnar entity_rows = inr columnar
    ∧ _validate_entity_values columnar = inr (length entity_rows)
    ∧ ∀ i row key,
        entity_rows !! i = Some row →
        dict_get key row = dict_get key columnar ≫= (.!! i).
Proof.
  intros Hhead Hne Hrows.
  destruct entity_rows as [|first' rest]; [done|]. injection Hhead as ->.
  set (rows := first :: rest) in *.
  assert (Forall (λ row, NoDup (dict_keys row)) rows) as Hnd.
  { eapply Forall_impl; [exact Hrows|]. by intros row [? _]. }
  assert (Forall (λ row, Forall (λ key, key ∈ dict_keys first) (dict_keys row))
            rows) as Hsub.
  { eapply Forall_impl; [exact Hrows|]. intros row [_ Hk].
    apply Forall_forall. intros key. apply Hk. }
  destruct (columnar_accepts first rest Hnd Hsub) as (c & Hrun & Hkeys & Hget).
  fold rows in Hrun, Hget.
  assert (∀ key i row, key ∈ dict_keys first → rows !! i = Some row →
            omap (dict_get key) rows !! i = dict_get key row
            ∧ length (omap (dict_get key) rows) = length rows) as Hcol.
  { intros key i row Hkey Hi.
    assert (Forall (λ row, is_Some (dict_get key row)) rows) as Hall.
    { eapply Forall_impl; [exact Hrows|]. intros r [_ Hk].
      apply dict_keys_get. by apply Hk. }
    destruct (omap_all_Some (dict_get key) rows Hall) as [Hl Hlook].
    split; [by apply Hlook|done]. }
  exists c. split_and!; [done| |].
  - apply validate_entity_values_uniform.
    + intros ->. apply Hne. by rewrite <- Hkeys.
    + apply Forall_forall. intros col Hc. unfold dict_values in Hc.
      apply list_elem_of_fmap in Hc as ([k col'] & -> & Hin).
      assert (k ∈ dict_keys first) as Hk.
      { rewrite <- Hkeys. unfold dict_keys. apply list_elem_of_fmap.
        by exists (k, col'). }
      apply dict_elem_get_NoDup in Hin.
      2:{ rewrite Hkeys. by apply Forall_cons in Hnd as [? _]. }
      rewrite (Hget k Hk) in Hin. injection Hin as <-.
      exact (proj2 (Hcol k 0 first Hk eq_refl)).
  - intros i row key Hi.
    destruct (decide (key ∈ dict_keys first)) as [Hk|Hk].
    + rewrite (Hget key Hk). symmetry. exact (proj1 (Hcol key i row Hk Hi)).
    + assert (dict_get key c = None) as -> by (apply dict_get_None; by rewrite Hkeys).
      cbn. apply dict_get_None. intros Hin. apply Hk.
      rewrite Forall_forall in Hrows.
      apply (Hrows row); [by eapply list_elem_of_lookup_2|done].
Qed.
End RowsToColumnsTheorems.

Section Lenient.
Context {V : Type}.
Implicit Types (res : dict string (list V)) (row : list (string * V)).

Let under (key : string) row : list V :=
  (filter (λ e, e.1 = key) row).*2.

Local Abbreviation lenient_step :=
  (λ (res : dict string (list V)) '(key, value),
     dict_set key (dict_get_default key [] res ++ [value]) res).

Lemma under_absent key row : key ∉ dict_keys row → under key row = [].
Proof.
  unfold under, dict_keys. induction row as [|[k v] row IH]; [done|].
  rewrite fmap_cons. intros [Hne Hnot]%not_elem_of_cons.
  rewrite filter_cons. cbn [fst]. rewrite decide_False by done. by apply IH.
Qed.

Lemma lenient_row row res :
  let res' := foldl lenient_step res row in
  (∀ key, dict_get key res'
          = if decide (key ∈ dict_keys row)
            then Some (dict_get_default key [] res ++ under key row)
            else dict_get key res)
  ∧ (Forall (λ key, key ∈ dict_keys res) (dict_keys row) →
     dict_keys res' = dict_keys res)
  ∧ (NoDup (dict_keys row) →
     Forall (λ key, key ∉ dict_keys res) (dict_keys row) →
     dict_keys res' = dict_keys res ++ dict_keys row).
Proof.
  revert res. induction row as [|[k v] row IH]; intros res; cbn [foldl].
  - split_and!; [|done|].
    + intros key. rewrite decide_False; [done|]. by intros ?%elem_of_nil.
    + intros _ _. unfold dict_keys. by rewrite fmap_nil, app_nil_r.
  - set (res1 := dict_set k (dict_get_default k [] res ++ [v]) res).
    destruct (IH res1) as (Hget & Hsame & Hnew).
    assert (dict_keys ((k, v) :: row) = k :: dict_keys row) as Hcons by done.
    rewrite Hcons. split_and!.
    + intros key. rewrite Hget. unfold res1 at 1 2.
      unfold dict_get_default at 1. rewrite !dict_get_set.
      unfold under. rewrite filter_cons. cbn [fst].
      destruct (decide (key = k)) as [->|Hne].
      * rewrite (decide_True (P := k ∈ k :: dict_keys row)) by by left.
        rewrite (decide_True (P := k = k)) by done. rewrite fmap_cons.
        cbn [snd default id]. case_decide as Hin.
        -- by rewrite <- app_assoc.
        -- fold (under k row). by rewrite (under_absent k row Hin).
      * rewrite (decide_False (P := k = key)) by done.
        destruct (decide (key ∈ dict_keys row)) as [Hin|Hin].
        -- rewrite decide_True by by right. done.
        -- rewrite decide_False; [done|]. by intros [|]%elem_of_cons.
    + intros [Hk Hrow]%Forall_cons.
      assert (dict_keys res1 = dict_keys res) as Hk1
        by by apply dict_set_keys_present.
      rewrite Hsame; [done|]. by rewrite Hk1.
    + intros [Hk Hnd]%NoDup_cons [Hfresh Hrow]%Forall_cons.
      assert (dict_keys res1 = dict_keys res ++ [k]) as Hk1
        by by apply dict_keys_set_fresh.
      rewrite Hnew; [by rewrite Hk1, <- app_assoc|done|].
      rewrite Hk1. rewrite Forall_forall in Hrow. apply Forall_forall.
      intros key Hkey [Hin|Hin%list_elem_of_singleton]%elem_of_app.
      * by apply (Hrow key).
      * by subst.
Qed.

Lemma under_rows_absent key (rows : list (list (string * V))) :
  ¬ Exists (λ row, key ∈ dict_keys row) rows → concat (under key <$> rows) = [].
Proof.
  induction rows as [|row rows IH]; [done|]. intros Hnot.
  rewrite fmap_cons. cbn [concat]. rewrite IH, under_absent; [done|..].
  - intros Hin. apply Hnot. by left.
  - intros Hex. apply Hnot. by right.
Qed.

Lemma lenient_rows (rows : list (list (string * V))) res :
  let res' := foldl (λ res entity_row, foldl lenient_step res entity_row)
                res rows in
  (∀ key, dict_get key res'
          = if decide (Exists (λ row, key ∈ dict_keys row) rows)
            then Some (dict_get_default key [] res
                       ++ concat (under key <$> rows))
            else dict_get key res)
  ∧ (Forall (λ row, Forall (λ key, key ∈ dict_keys res) (dict_keys row)) rows →
     dict_keys res' = dict_keys res)
  ∧ (NoDup (dict_keys res) → NoDup (dict_keys res')).
Proof.
  revert res. induction rows as [|row rows IH]; intros res; cbn [foldl].
  - split_and!; [|done..]. intros key. rewrite decide_False; [done|].
    by intros ?%Exists_nil.
  - destruct (lenient_row row res) as (Hget1 & Hsame1 & _).
    set (res1 := foldl _ res row) in *.
    destruct (IH res1) as (Hget & Hsame & Hnd).
    split_and!.
    + intros key. rewrite Hget. unfold dict_get_default. rewrite Hget1.
      rewrite fmap_cons. cbn [concat].
      destruct (decide (key ∈ dict_keys row)) as [Hin|Hin].
      * rewrite (decide_True (P := Exists _ (row :: rows))) by by left.
        cbn [default id]. case_decide as Hex.
        -- by rewrite <- app_assoc.
        -- by rewrite (under_rows_absent key rows Hex), app_nil_r.
      * rewrite (under_absent key row Hin). cbn [app].
        destruct (decide (Exists (λ row, key ∈ dict_keys row) rows))
          as [Hex|Hex].
        -- rewrite decide_True by by right. done.
        -- rewrite decide_False; [done|].
           intros [?|?]%Exists_cons; done.
    + intros [Hrow Hrows]%Forall_cons.
      rewrite Hsame; [by apply Hsame1|]. by rewrite (Hsame1 Hrow).
    + intros H. apply Hnd. clear -H. subst res1. revert res H.
      induction row as [|[k v] row IHr]; intros res H; [done|].
      cbn [foldl]. by apply IHr, dict_set_keys_NoDup.
Qed.
Lemma lenient_keys_first (first : list (string * V))
    (rest : list (list (string * V))) :
  NoDup (dict_keys first) →
  Forall (λ row, Forall (λ key, key ∈ dict_keys first) (dict_keys row)) rest →
  dict_keys (foldl (λ res entity_row, foldl lenient_step res entity_row)
               [] (first :: rest))
  = dict_keys first.
Proof.
  intros Hnd Hsub. cbn [foldl].
  destruct (lenient_row first []) as (_ & _ & Hnew).
  destruct (lenient_rows rest (foldl lenient_step [] first)) as (_ & Hsame & _).
  cbv zeta in Hnew, Hsame.
  assert (dict_keys (foldl lenient_step [] first) = dict_keys first) as Hk1.
  { rewrite Hnew; [done|done|]. apply Forall_forall.
    by intros key _ ?%elem_of_nil. }
  rewrite Hsame; [done|]. by rewrite Hk1.
Qed.
End Lenient.

Section ColumnarEntityValues.
Context {V : Type}.

(** X17. [_get_columnar_entity_values] on rows that are dictionaries never
    raises. A key has a column in the result exactly when some row has the
    key, and the column then holds the values the rows have under the key,
    in the order of the rows; rows that lack the key are passed over, so
    that columns may differ in length. *)
Theorem get_columnar_entity_values_rowise (rowise : list (dict string V)) :
  Forall (λ row, NoDup (dict_keys row)) rowise →
  ∃ res,
    _get_columnar_entity_values (Some rowise) None = inr res
    ∧ NoDup (dict_keys res)
    ∧ ∀ key, dict_get key res
             = if decide (Exists (λ row, key ∈ dict_keys row) rowise)
               then Some (omap (dict_get key) rowise)
               else None.
Proof.
  intros Hnd. eexists. split; [reflexivity|].
  destruct (lenient_rows rowise []) as (Hget & _ & Hkeys).
  split; [apply Hkeys; constructor|].
  intros key. rewrite Hget. repeat case_decide; try tauto; try done.
  f_equal. by apply under_rows_NoDup.
Qed.

(** X18. The two conversions agree: whatever [get_online_features] makes of
    rows that are dictionaries, [_get_columnar_entity_values] makes the same
    dictionary of them, with the same order of keys. The second conversion
    accepts more: it takes rows with keys that the first row lacks, and the
    empty list of rows. *)
Theorem get_columnar_entity_values_agrees (entity_rows : list (dict string V))
    (columnar : dict string (list V)) :
  Forall (λ row, NoDup (dict_keys row)) entity_rows →
  get_online_features_columnar entity_rows = inr columnar →
  _get_columnar_entity_values (Some entity_rows) None = inr columnar.
Proof.
  intros Hnd Hrun. destruct entity_rows as [|first rest]; [done|].
  assert (NoDup (dict_keys first)) as Hfirst
    by by apply Forall_cons in Hnd as [? _].
  destruct (decide (Forall (λ row, Forall (λ key, key ∈ dict_keys first)
                                     (dict_keys row)) (first :: rest)))
    as [Hsub|Hnot].
  2:{ destruct (columnar_refuses first rest Hfirst Hnot) as [msg Hbad].
      by rewrite Hrun in Hbad. }
  destruct (columnar_accepts first rest Hnd Hsub) as (c & Hc & Hkeys & Hget).
  rewrite Hrun in Hc. injection Hc as <-.
  cbn [_get_columnar_entity_values]. f_equal.
  pose proof (lenient_keys_first first rest Hfirst) as Hkeys2.
  destruct (lenient_rows (first :: rest) []) as (Hget2 & _ & _).
  cbv zeta in Hget2.
  match goal with
  | |- ?d = _ =>
      assert (dict_keys d = dict_keys first) as HX
        by (apply Hkeys2; by apply Forall_cons in Hsub as [_ ?]);
      assert (∀ key, dict_get key d
                     = if decide (Exists (λ row, key ∈ dict_keys row)
                                    (first :: rest))
                       then Some (dict_get_default key [] []
                                  ++ concat ((λ row : list (string * V),
                                                (filter (λ e, e.1 = key) row).*2)
                                               <$> first :: rest))
                       else dict_get key []) as HG by exact Hget2
  end.
  apply dict_ext.
  - by rewrite HX.
  - by rewrite HX.
  - intros key. rewrite HG.
    destruct (decide (key ∈ dict_keys first)) as [Hin|Hin].
    + rewrite (Hget key Hin), decide_True by by left.
      f_equal. by apply under_rows_NoDup.
    + rewrite decide_False.
      * symmetry. apply dict_get_None. by rewrite Hkeys.
      * intros Hex. apply Exists_exists in Hex as (row & Hrow & Hkey).
        rewrite Forall_forall in Hsub. specialize (Hsub row Hrow).
        rewrite Forall_forall in Hsub. by apply Hin, Hsub.
Qed.
End ColumnarEntityValues.

(** ** Names that differ only by case *)

Section ValidateNamesTheorems.
Context (lower : string → string).
Context {BaseFeatureView : Type} (name_of : BaseFeatureView → string).

Local Abbreviation lowered := (λ fv, lower (name_of fv)).

Lemma validate_feature_views_loop (feature_views : list BaseFeatureView)
    (fv_names : gset string) :
  match
    foldM (λ (fv_names : gset string) fv,
             let case_insensitive_fv_name := lower (name_of fv) in
             if decide (case_insensitive_fv_name ∈ fv_names)
             then raise (ValueError
                           (more_than_one_feature_view
                              case_insensitive_fv_name))
             else inr (fv_names ∪ {[case_insensitive_fv_name]}))
      fv_names feature_views
  with
  | inr fv_names' =>
      NoDup (lowered <$> feature_views)
      ∧ Forall (λ n, n ∉ fv_names) (lowered <$> feature_views)
      ∧ fv_names' = fv_names ∪ list_to_set (lowered <$> feature_views)
  | inl e =>
      ∃ j fv,
        feature_views !! j = Some fv
        ∧ NoDup (lowered <$> take j feature_views)
        ∧ Forall (λ n, n ∉ fv_names) (lowered <$> take j feature_views)
        ∧ (lowered fv ∈ fv_names
           ∨ lowered fv ∈ lowered <$> take j feature_views)
        ∧ e = ValueError (more_than_one_feature_view (lowered fv))
  end.
Proof.
  revert fv_names. induction feature_views as [|fv fvs IH]; intros names.
  - cbn. split_and!; [constructor|constructor|set_solver].
  - cbn [foldM]. cbv zeta. case_decide as Hin; cbn [bind raise].
    + exists 0, fv. split_and!; [done|constructor|constructor|by left|done].
    + specialize (IH (names ∪ {[lowered fv]})).
      destruct (foldM _ _ fvs) as [e|names'].
      * destruct IH as (j & fv' & Hj & Hnd & Hfresh & Hrep & ->).
        exists (S j), fv'. cbn [take]. rewrite fmap_cons.
        split_and!; [done| | | |done].
        -- apply NoDup_cons. split; [|done]. intros Hin'.
           rewrite Forall_forall in Hfresh. apply (Hfresh _ Hin'). set_solver.
        -- constructor; [done|]. eapply Forall_impl; [exact Hfresh|].
           set_solver.
        -- destruct Hrep as [Hrep|Hrep]; [|right; by right].
           apply elem_of_union in Hrep as [?|Hrep]; [by left|].
           apply elem_of_singleton in Hrep. right. rewrite Hrep. by left.
      * destruct IH as (Hnd & Hfresh & ->). rewrite fmap_cons.
        split_and!.
        -- apply NoDup_cons. split; [|done]. intros Hin'.
           rewrite Forall_forall in Hfresh. apply (Hfresh _ Hin'). set_solver.
        -- constructor; [done|]. eapply Forall_impl; [exact Hfresh|].
           set_solver.
        -- set_solver.
Qed.

(** X19. [_validate_feature_views] accepts a list of views exactly when no
    two of them have names that agree up to case. Otherwise it raises
    [ValueError] for the first view of the list whose name, in lower case,
    is that of an earlier view, and names it in lower case in the message. *)
Theorem validate_feature_views_result (feature_views : list BaseFeatureView) :
  match _validate_feature_views lower name_of feature_views with
  | inr _ => NoDup (lowered <$> feature_views)
  | inl e =>
      ∃ i j earlier fv,
        (i < j)%nat
        ∧ feature_views !! i = Some earlier ∧ feature_views !! j = Some fv
        ∧ lowered earlier = lowered fv
        ∧ NoDup (lowered <$> take j feature_views)
        ∧ e = ValueError (more_than_one_feature_view (lowered fv))
  end.
Proof.
  unfold _validate_feature_views.
  pose proof (validate_feature_views_loop feature_views ∅) as H.
  match type of H with
  | match ?m with _ => _ end => destruct m as [e|names]
  end; cbn [bind].
  - destruct H as (j & fv & Hj & Hnd & _ & Hrep & ->).
    destruct Hrep as [Hrep|Hrep]; [by apply elem_of_empty in Hrep|].
    apply list_elem_of_fmap in Hrep as (earlier & Heq & Hin).
    apply list_elem_of_lookup in Hin as [i Hi].
    apply lookup_take_Some in Hi as [Hi Hlt].
    by exists i, j, earlier, fv.
  - by destruct H as [? _].
Qed.

End ValidateNamesTheorems.

(** ** One table, from the batch to the response *)

Lemma zip_star_row_length {A : Type} (cols : list (list A)) (row : list A) :
  row ∈ zip_star cols → length row = length cols.
Proof.
  revert row. induction cols as [|c cols IH]; intros row Hin.
  - by apply elem_of_nil in Hin.
  - cbn [zip_star] in Hin. destruct cols as [|c' cols'].
    + apply list_elem_of_fmap in Hin as (x & -> & _). done.
    + apply list_elem_of_lookup in Hin as [i Hi].
      apply lookup_zip_with_Some in Hi as (x & r & -> & _ & Hr).
      cbn [length]. f_equal. apply IH. by eapply list_elem_of_lookup_2.
Qed.

Lemma dict_of_list_zip {K V : Type} `{!EqDecision K} (keys : list K)
    (vals : list V) :
  NoDup keys → length vals = length keys →
  dict_keys (dict_of_list (zip keys vals)) = keys
  ∧ dict_values (dict_of_list (zip keys vals)) = vals.
Proof.
  intros Hnd Hlen. rewrite dict_of_list_NoDup_id.
  - unfold dict_keys, dict_values. split; [apply fst_zip|apply snd_zip]; lia.
  - rewrite fst_zip by lia. done.
Qed.

Section TableStep.
Context {Value datetime : Type} `{!EqDecision Value}.
Context (Value_new : Value) (FromDatetime : datetime → Timestamp).
Context (sort_key_lt : list Value → list Value → bool).

Lemma get_table_entity_values_keys_NoDup (table : FeatureView)
    (entity_name_to_join_key_map : dict string string)
    (join_key_values tev : dict string (list Value)) :
  _get_table_entity_values table entity_name_to_join_key_map join_key_values
    = inr tev →
  NoDup (dict_keys tev).
Proof.
  unfold _get_table_entity_values. intros H.
  apply bind_inr in H as (tjk & _ & H). injection H as <-.
  apply dict_of_list_keys_NoDup.
Qed.

(** The rows the deduplication step lists for a unique key have that key. *)
Lemma get_unique_entities_rows_keys (table : FeatureView)
    (join_key_values : dict string (list Value))
    (entity_name_to_join_key_map : dict string string)
    (tev : dict string (list Value))
    (unique : list (dict string Value)) (idxs : list (list nat)) :
  _get_table_entity_values table entity_name_to_join_key_map join_key_values
    = inr tev →
  _get_unique_entities sort_key_lt table join_key_values
    entity_name_to_join_key_map = inr (unique, idxs) →
  idxs ≠ []
  ∧ Forall2 (λ u L, ∃ k, u = dict_of_list (zip (dict_keys tev) k)
                         ∧ Forall (λ r, composite_keys tev !! r = Some k) L)
      unique idxs.
Proof.
  intros Htev Hrun.
  rewrite (get_unique_entities_unfold _ _ _ _ _ Htev) in Hrun.
  unfold key_groups in *.
  set (rows := composite_keys tev) in *.
  assert (∀ p, p ∈ sort_rowise sort_key_lt (enumerate rows) →
               rows !! p.1 = Some p.2) as Hrow.
  { intros [i x] Hin. apply enumerate_lookup.
    unfold sort_rowise in Hin. by rewrite merge_sort_Permutation in Hin. }
  set (sorted := sort_rowise sort_key_lt (enumerate rows)) in *.
  pose proof (groupby_groups snd sorted) as Hgroups.
  pose proof (groupby_concat snd sorted) as Hconcat.
  destruct (groupby snd sorted) as [|kg groups] eqn:HG; [done|].
  inversion Hrun; subst unique idxs. clear Hrun.
  split; [done|].
  apply (Forall2_fmap_2
           (λ kg : list Value * list (nat * list Value),
              dict_of_list (zip (dict_keys tev) kg.1))
           (λ kg : list Value * list (nat * list Value), kg.2.*1)
           (λ u L, ∃ k, u = dict_of_list (zip (dict_keys tev) k)
                        ∧ Forall (λ r, rows !! r = Some k) L)
           (kg :: groups) (kg :: groups)).
  apply Forall_Forall2_diag.
  rewrite Forall_forall in Hgroups |- *. intros [k g] Hkg.
  destruct (Hgroups _ Hkg) as [_ Hg]. cbn [fst snd] in Hg |- *.
  exists k. split; [done|].
  apply Forall_fmap. rewrite Forall_forall in Hg |- *.
  intros p Hpg. cbn. rewrite <- (Hg p Hpg). apply Hrow.
  rewrite <- Hconcat. apply elem_of_concat.
  apply list_elem_of_lookup in Hkg as [i Hi]. exists i, g.
  split; [|done]. by rewrite list_lookup_fmap, Hi.
Qed.

(** X20. One round of the loop over the tables, when the provider answers
    every entity key it is asked for. The response gains one column per
    requested feature, and every row of the batch receives, in each of them,
    the value, the status and the timestamp of the provider's answer to an
    entity key that names the join keys of the table and holds the row's own
    values of them. *)
Theorem fetch_table_row_data
    (self : FeatureStore (Value := Value) (datetime := datetime))
    (table : FeatureView) (requested_features : list string)
    (join_key_values tev : dict string (list Value))
    (entity_name_to_join_key_map : dict string string)
    (full_feature_names : bool)
    (online_features_response : GetOnlineFeaturesResponse Value)
    (N : nat) (unique : list (dict string Value)) (idxs : list (list nat))
    (read_rows : list (option datetime * option (gmap string Value))) :
  Forall (λ col, length col = N) (dict_values join_key_values) →
  _get_table_entity_values table entity_name_to_join_key_map join_key_values
    = inr tev →
  _get_unique_entities sort_key_lt table join_key_values
    entity_name_to_join_key_map = inr (unique, idxs) →
  online_read self (table, entity_key_protos_of unique, requested_features)
    = inr read_rows →
  length read_rows = length unique →
  ∃ vectors,
    fetch_tables Value_new FromDatetime sort_key_lt self
      [(table, requested_features)] join_key_values
      entity_name_to_join_key_map full_feature_names
      online_features_response []
    = ([(table, entity_key_protos_of unique, requested_features)],
       inr {| feature_names :=
                feature_names online_features_response
                ++ ((λ feature_name,
                       if full_feature_names
                       then name_to_use (projection table) +:+ "__"
                            +:+ feature_name
                       else feature_name) <$> requested_features);
              results := results online_features_response ++ vectors |})
    ∧ length vectors = length requested_features
    ∧ ∀ r key,
        composite_keys tev !! r = Some key →
        ∃ i read_row,
          entity_key_protos_of unique !! i
          = Some {| join_keys := dict_keys tev; entity_values := key |}
          ∧ read_rows !! i = Some read_row
          ∧ ∀ j fv,
              vectors !! j = Some fv →
              let '(event_timestamps_i, statuses_i, values_i) :=
                read_row_proto Value_new FromDatetime requested_features
                  read_row in
              values fv !! r = values_i !! j
              ∧ statuses fv !! r = statuses_i !! j
              ∧ event_timestamps fv !! r = event_timestamps_i !! j.
Proof.
  intros Hcols Htev Hrun Hread Hlen.
  pose proof (get_unique_entities_sum _ _ _ _ _ _ _ Hcols Hrun) as Hp.
  destruct (get_unique_entities_rows_keys _ _ _ _ _ _ Htev Hrun)
    as [Hne Hkeys].
  pose proof (Forall2_length _ _ _ Hkeys) as Hlen2.
  set (feature_data :=
         read_row_proto Value_new FromDatetime requested_features <$> read_rows).
  assert (_read_from_online_store Value_new FromDatetime self unique
            requested_features table = inr feature_data) as Hfd.
  { unfold _read_from_online_store. by rewrite Hread. }
  destruct (populate_response_scatter feature_data idxs N
              online_features_response full_feature_names requested_features
              table) as (vectors & Hpop & Hvlen & Hdata).
  { done. }
  { intros Hnil. assert (length feature_data = 0%nat) as H0 by by rewrite Hnil.
    subst feature_data. rewrite length_fmap in H0. unfold ReadRow in *.
    destruct idxs; [done|]. simpl in Hlen2. lia. }
  { subst feature_data. rewrite length_fmap. unfold ReadRow in *. lia. }
  { by eapply read_from_online_store_lengths. }
  exists vectors. split_and!; [|done|].
  - cbn [fetch_tables]. rewrite Hrun, Hfd. cbn [bind]. by rewrite Hpop.
  - intros r key Hr.
    pose proof (get_table_entity_values_keys_NoDup _ _ _ _ Htev) as Hnd.
    pose proof (table_entity_values_Forall _ _ _ _ _ Hcols Htev) as Htcols.
    assert (length (composite_keys tev) = N) as HN.
    { apply zip_star_length; [|done]. intros Hnil.
      unfold composite_keys in Hr. by rewrite Hnil in Hr. }
    assert (r < N)%nat as HrN.
    { rewrite <- HN. by eapply lookup_lt_Some. }
    destruct (partitions_facts _ _ Hp) as (_ & _ & Hcov & _).
    destruct (Hcov r HrN) as (i & L & Hi & HrL).
    destruct (Forall2_lookup_r _ _ _ _ _ Hkeys Hi) as (u & Hu & k & -> & Hk).
    rewrite Forall_forall in Hk. specialize (Hk r HrL).
    rewrite Hr in Hk. injection Hk as <-.
    assert (length key = length (dict_keys tev)) as Hklen.
    { unfold dict_keys. rewrite length_fmap.
      rewrite <- (length_fmap snd tev). apply zip_star_row_length.
      by eapply list_elem_of_lookup_2. }
    destruct (dict_of_list_zip (dict_keys tev) key Hnd Hklen) as [Hk1 Hk2].
    destruct (lookup_lt_is_Some_2 read_rows i) as [read_row Hrow].
    { rewrite Hlen. by eapply lookup_lt_Some. }
    exists i, read_row. split_and!.
    + unfold entity_key_protos_of. rewrite list_lookup_fmap, Hu. cbn.
      by rewrite Hk1, Hk2.
    + done.
    + intros j fv Hj.
      assert (feature_data !! i
              = Some (read_row_proto Value_new FromDatetime requested_features
                        read_row)) as Hdi.
      { subst feature_data. apply list_lookup_fmap_Some. by exists read_row. }
      pose proof (Hdata j fv i _ L r Hj Hdi Hi HrL) as Hall.
      by destruct (read_row_proto _ _ _ read_row) as [[ts ss] vs].
Qed.
End TableStep.

(** ** Columns of the request: request data or join keys *)

Section ClassifyColumns.
Context {Value : Type}.
Context (needed_request_data needed_request_fv_features : gset string).
Context (join_keys_set : gset string).
Context (entity_name_to_join_key_map : dict string string).

Local Abbreviation classify :=
  (classify_column (Value := Value) needed_request_data
     needed_request_fv_features join_keys_set entity_name_to_join_key_map).

(** The join key a column of entity values is filed under: its own name
    when that is a join key, else the join key of the entity of that
    name. *)
Let join_key_of (column_name join_key : string) : Prop :=
  (column_name ∉ needed_request_data)
  ∧ (column_name ∉ needed_request_fv_features)
  ∧ (column_name ∈ join_keys_set ∧ join_key = column_name
     ∨ (column_name ∉ join_keys_set)
       ∧ dict_get column_name entity_name_to_join_key_map = Some join_key).

Lemma classify_columns_from
    (columns : dict string (list Value))
    (st : gset string * dict string (list Value) * dict string (list Value)) :
  match foldM classify st columns with
  | inr (names, join_key_values, request_data_features) =>
      (∀ k, k ∈ dict_keys request_data_features ↔
            k ∈ dict_keys st.2
            ∨ k ∈ dict_keys columns
              ∧ (k ∈ needed_request_data ∨ k ∈ needed_request_fv_features))
      ∧ (∀ jk, jk ∈ dict_keys join_key_values ↔
               jk ∈ dict_keys st.1.2
               ∨ ∃ k, k ∈ dict_keys columns ∧ join_key_of k jk)
  | inl (EntityNotFoundException column_name) =>
      column_name ∈ dict_keys columns
      ∧ (column_name ∉ needed_request_data)
      ∧ (column_name ∉ needed_request_fv_features)
      ∧ (column_name ∉ join_keys_set)
      ∧ dict_get column_name entity_name_to_join_key_map = None
  | inl _ => False
  end.
Proof.
  revert st. induction columns as [|[name vals] columns IH];
    intros [[names jkv] rdf]; cbn [foldM].
  - cbn. split.
    + intros k. split; [by left|]. intros [?|[?%elem_of_nil _]]; done.
    + intros jk. split; [by left|].
      intros [?|(k & ?%elem_of_nil & _)]; done.
  - assert (dict_keys ((name, vals) :: columns) = name :: dict_keys columns)
      as Hcons by done.
    rewrite Hcons. unfold classify_column at 1.
    destruct (decide (name ∈ needed_request_data
                      ∨ name ∈ needed_request_fv_features)) as [Hreq|Hreq].
    + cbn [bind]. 
      match goal with
      | |- context [foldM _ ?st1 columns] => specialize (IH st1)
      end.
      match type of IH with
      | match ?m with _ => _ end => destruct m as [[]|[[names' jkv'] rdf']]
      end; try done.
      * destruct IH as (Hin & ?). split; [by right|done].
      * destruct IH as [Hr Hj]. cbn [fst snd] in *. split.
        -- intros k. rewrite Hr, dict_keys_set, elem_of_cons. split.
           ++ intros [[->|?]|[? ?]]; [right; split; [by left|done]|by left|].
              right. split; [by right|done].
           ++ intros [?|[[->|?] ?]]; [left; by right|left; by left|].
              right. by split.
        -- intros jk. rewrite Hj. split.
           ++ intros [?|(k & ? & ?)]; [by left|]. right. exists k.
              split; [by right|done].
           ++ intros [?|(k & [->|?]%elem_of_cons & Hk)]; [by left| |].
              ** destruct Hk as (H1 & H2 & _). tauto.
              ** right. by exists k.
    + assert ((name ∉ needed_request_data) ∧ (name ∉ needed_request_fv_features))
        as [Hn1 Hn2] by tauto.
      destruct (decide (name ∈ join_keys_set)) as [Hjk|Hjk].
      * cbn [bind].
        match goal with
        | |- context [foldM _ ?st1 columns] => specialize (IH st1)
        end.
        match type of IH with
        | match ?m with _ => _ end => destruct m as [[]|[[names' jkv'] rdf']]
        end; try done.
        -- destruct IH as (Hin & ?). split; [by right|done].
        -- destruct IH as [Hr Hj]. cbn [fst snd] in *. split.
           ++ intros k. rewrite Hr. split.
              ** intros [?|[? ?]]; [by left|]. right. split; [by right|done].
              ** intros [?|[[->|?]%elem_of_cons ?]]; [by left|tauto|].
                 right. by split.
           ++ intros jk. rewrite Hj, dict_keys_set. split.
              ** intros [[->|?]|(k & ? & ?)].
                 --- right. exists name. split; [by left|].
                     split_and!; [done..|]. by left.
                 --- by left.
                 --- right. exists k. split; [by right|done].
              ** intros [?|(k & [->|?]%elem_of_cons & Hk)].
                 --- left. by right.
                 --- destruct Hk as (_ & _ & [[_ ->]|[? _]]); [|done].
                     left. by left.
                 --- right. by exists k.
      * destruct (dict_get name entity_name_to_join_key_map) as [jk0|] eqn:Hmap;
          cbn [bind].
        2:{ split_and!; [by left|done..]. }
        match goal with
        | |- context [foldM _ ?st1 columns] => specialize (IH st1)
        end.
        match type of IH with
        | match ?m with _ => _ end => destruct m as [[]|[[names' jkv'] rdf']]
        end; try done.
        -- destruct IH as (Hin & ?). split; [by right|done].
        -- destruct IH as [Hr Hj]. cbn [fst snd] in *. split.
           ++ intros k. rewrite Hr. split.
              ** intros [?|[? ?]]; [by left|]. right. split; [by right|done].
              ** intros [?|[[->|?]%elem_of_cons ?]]; [by left|tauto|].
                 right. by split.
           ++ intros jk. rewrite Hj, dict_keys_set. split.
              ** intros [[->|?]|(k & ? & ?)].
                 --- right. exists name. split; [by left|].
                     split_and!; [done..|]. by right.
                 --- by left.
                 --- right. exists k. split; [by right|done].
              ** intros [?|(k & [->|?]%elem_of_cons & Hk)].
                 --- left. by right.
                 --- destruct Hk as (_ & _ & [[? _]|[_ Hk]]); [done|].
                     rewrite Hmap in Hk. injection Hk as ->. left. by left.
                 --- right. by exists k.
Qed.

(** X21. The loop of [_get_online_features] over the columns of entity
    values. It raises only [EntityNotFoundException], for a column that is
    neither needed request data, nor named like a join key, nor named like
    an entity of the requested views. Otherwise every column is filed: the
    request data are the columns that an on demand view or a request view
    needs, and the join-key values have a column for exactly the join keys
    that the remaining columns name, by their own name when it is a join key
    and else through the entity of that name; a column named like an entity
    and one named like its join key end up under the same key. *)
Theorem classify_columns_result (names0 : gset string)
    (columns : dict string (list Value)) :
  match foldM classify (names0, [], []) columns with
  | inr (names, join_key_values, request_data_features) =>
      (∀ k, k ∈ dict_keys request_data_features ↔
            k ∈ dict_keys columns
            ∧ (k ∈ needed_request_data ∨ k ∈ needed_request_fv_features))
      ∧ (∀ jk, jk ∈ dict_keys join_key_values ↔
               ∃ k, k ∈ dict_keys columns
                    ∧ (k ∉ needed_request_data)
                    ∧ (k ∉ needed_request_fv_features)
                    ∧ (k ∈ join_keys_set ∧ jk = k
                       ∨ (k ∉ join_keys_set)
                         ∧ dict_get k entity_name_to_join_key_map = Some jk))
  | inl (EntityNotFoundException column_name) =>
      column_name ∈ dict_keys columns
      ∧ (column_name ∉ needed_request_data)
      ∧ (column_name ∉ needed_request_fv_features)
      ∧ (column_name ∉ join_keys_set)
      ∧ dict_get column_name entity_name_to_join_key_map = None
  | inl _ => False
  end.
Proof.
  pose proof (classify_columns_from columns (names0, [], [])) as H.
  match type of H with
  | match ?m with _ => _ end => destruct m as [[]|[[names jkv] rdf]]
  end; try done.
  destruct H as [Hr Hj]. cbn [fst snd] in *. split.
  - intros k. rewrite Hr. split; [|by right].
    intros [?%elem_of_nil|?]; done.
  - intros jk. rewrite Hj. split; [|by right].
    intros [?%elem_of_nil|?]; done.
Qed.
End ClassifyColumns.

(** ** Materialization *)

Section MaterializeTheorems.
Context {View : Type} (view_name : View → string) (online : View → bool).
Context {datetime : Type} (make_tzaware : datetime → datetime).
Context (datetime_gt : datetime → datetime → bool).
Context (datetime_str : datetime → string).
Context {World : Type}.

Local Abbreviation views_to_materialize :=
  (_get_feature_views_to_materialize view_name online).

Local Abbreviation resolve_in registry :=
  (λ name,
     match get_feature_view registry name with
     | inl (FeatureViewNotFoundException _) =>
         get_stream_feature_view registry name
     | found_or_raised => found_or_raised
     end).

Lemma views_to_materialize_named (registry : Registry (View := View))
    (names : list string) (acc : list View) :
  Forall (λ fv, online fv = true) acc →
  match
    foldM (λ acc name,
             do feature_view <- resolve_in registry name;
             if online feature_view
             then inr (acc ++ [feature_view])
             else raise (ValueError
                           ("FeatureView " +:+ view_name feature_view
                            +:+ " is not configured to be served online.")))
      acc names
  with
  | inr views =>
      ∃ new, views = acc ++ new
             ∧ Forall (λ fv, online fv = true) views
             ∧ Forall2 (λ name fv, resolve_in registry name = inr fv) names new
  | inl e =>
      ∃ j name,
        names !! j = Some name
        ∧ Forall (λ n, ∃ fv, resolve_in registry n = inr fv ∧ online fv = true)
            (take j names)
        ∧ (resolve_in registry name = inl e
           ∨ ∃ fv, resolve_in registry name = inr fv ∧ online fv = false
                   ∧ e = ValueError
                           ("FeatureView " +:+ view_name fv
                            +:+ " is not configured to be served online."))
  end.
Proof.
  match goal with |- context [foldM ?f _ _] => set (body := f) end.
  revert acc. induction names as [|name names IH]; intros acc Hacc;
    cbn [foldM].
  - exists []. rewrite app_nil_r. by split_and!.
  - unfold body at 1.
    destruct (resolve_in registry name) as [e|fv] eqn:Hname; cbn [bind].
    { exists 0, name. split_and!; [done|constructor|by left]. }
    destruct (online fv) eqn:Hon; cbn [bind].
    + specialize (IH (acc ++ [fv])).
      match type of IH with
      | _ → match ?m with _ => _ end => destruct m as [e|views]
      end.
      * destruct IH as (j & n & Hj & Hpre & Hwhy).
        { apply Forall_app. split; [done|]. by repeat constructor. }
        exists (S j), n. split_and!; [done| |done]. cbn [take].
        constructor; [by exists fv|done].
      * destruct IH as (new & -> & Hall & Hnew).
        { apply Forall_app. split; [done|]. by repeat constructor. }
        exists (fv :: new). rewrite <- app_assoc in *.
        split_and!; [done..|]. by constructor.
    + exists 0, name. split_and!; [done|constructor|]. right. by exists fv.
Qed.

Lemma views_to_materialize_online (registry : Registry (View := View))
    (feature_views : option (list string)) (views : list View) :
  views_to_materialize registry feature_views = inr views →
  Forall (λ fv, online fv = true) views.
Proof.
  destruct feature_views as [names|]; cbn.
  - intros Hrun.
    pose proof (views_to_materialize_named registry names [] (Forall_nil_2 _))
      as H.
    match type of H with
    | match ?m with _ => _ end =>
        change m with (views_to_materialize registry (Some names)) in H
    end.
    cbn in H. rewrite Hrun in H. by destruct H as (_ & _ & ? & _).
  - intros [= <-]. apply Forall_app. split; apply Forall_forall; intros fv Hin;
      by apply list_elem_of_filter in Hin as [? _].
Qed.


Lemma materialize_loop_calls (writers : Writers (View := View)
                                (datetime := datetime) (World := World))
    (views : list View) (start_date end_date : datetime) (world : World)
    (calls : list WriterCall) :
  (∀ d, make_tzaware (make_tzaware d) = make_tzaware d) →
  let round := λ fv,
    [MaterializeSingleFeatureView fv (make_tzaware start_date)
       (make_tzaware end_date);
     ApplyMaterialization fv (make_tzaware start_date)
       (make_tzaware end_date)] in
  ∃ new,
    (materialize_loop make_tzaware writers views start_date end_date world
       calls).1.1 = calls ++ new
    ∧ new `prefix_of` concat (round <$> views)
    ∧ ((materialize_loop make_tzaware writers views start_date end_date world
          calls).2 = inr tt →
       new = concat (round <$> views)).
Proof.
  intros Hidem round. revert start_date end_date world calls round.
  induction views as [|fv views IH]; intros s e w calls round;
    cbn [materialize_loop].
  - exists []. rewrite app_nil_r. by split_and!.
  - destruct (materialize_single_feature_view writers w fv (make_tzaware s)
                (make_tzaware e)) as [w1 [err|[]]].
    { eexists [_]. cbn. split_and!; [done| |done].
      by eexists (_ :: _). }
    destruct (apply_materialization writers w1 fv (make_tzaware s)
                (make_tzaware e)) as [w2 [err|[]]].
    { eexists [_; _]. cbn. split_and!; [by rewrite <- app_assoc| |done].
      by eexists. }
    destruct (IH (make_tzaware s) (make_tzaware e) w2
                ((calls ++ [MaterializeSingleFeatureView fv (make_tzaware s)
                              (make_tzaware e)])
                 ++ [ApplyMaterialization fv (make_tzaware s) (make_tzaware e)]))
      as (new & Hcalls & Hpre & Hdone).
    rewrite !Hidem in Hpre, Hdone.
    exists (round fv ++ new). split_and!.
    + rewrite Hcalls. by rewrite <- !app_assoc.
    + rewrite fmap_cons. cbn [concat]. by apply prefix_app.
    + intros Hok. rewrite fmap_cons. cbn [concat]. f_equal. by apply Hdone.
Qed.

End MaterializeTheorems.

(** * The further properties on the worked request *)

(** Rows given as literal dictionaries with one key each. *)
Ltac literal_rows :=
  repeat first
    [ apply Forall_nil_2 | apply Forall_cons_2 | split
    | apply NoDup_singleton | (intros; assumption) ].

Lemma get_unique_entities_bounds_witness :
  ∃ unique idxs,
    _get_unique_entities Example.tuple_lt Example.driver_stats
      Example.entity_values [("driver", "driver_id")] = inr (unique, idxs)
    ∧ length unique = length idxs
    ∧ Forall (λ L, L ≠ []) idxs
    ∧ (1 ≤ length idxs ≤ 3)%nat.
Proof.
  eexists _, _. split; [vm_compute; reflexivity|].
  apply (get_unique_entities_bounds Example.tuple_lt Example.driver_stats
           Example.entity_values [("driver", "driver_id")]).
  - repeat constructor.
  - vm_compute. reflexivity.
Defined.

Lemma ensure_request_data_values_exist_result_witness :
  (ensure_request_data_values_exist {["val_to_add"]} {["val_to_add"]}
     [("val_to_add", [Example.int64_val 1])] = inr tt
   ↔ ({["val_to_add"]} : gset string) ## {["val_to_add"]}
     ∧ ∀ x, x ∈ ({["val_to_add"]} : gset string) ∪ {["val_to_add"]} →
            x ∈ dict_keys [("val_to_add", [Example.int64_val 1])])
  ∧ (¬ ({["val_to_add"]} : gset string) ## {["val_to_add"]} →
     (∀ x, x ∈ ({["val_to_add"]} : gset string) ∪ {["val_to_add"]} →
           x ∈ dict_keys [("val_to_add", [Example.int64_val 1])]) →
     ensure_request_data_values_exist {["val_to_add"]} {["val_to_add"]}
       [("val_to_add", [Example.int64_val 1])]
     = raise (RequestDataNotFoundInEntityRowsException [])).
Proof.
  apply (ensure_request_data_values_exist_result {["val_to_add"]}
           {["val_to_add"]} [("val_to_add", [Example.int64_val 1])]).
  - apply NoDup_singleton.
  - intros k Hk. apply list_elem_of_singleton in Hk. subst k.
    apply elem_of_union_l, elem_of_singleton. reflexivity.
Defined.

Lemma drop_unneeded_columns_twice_witness :
  ∃ resp1,
    _drop_unneeded_columns Example.assembled {["conv_rate"]} = inr resp1
    ∧ length (feature_names resp1) = length (results resp1)
    ∧ Forall (λ n, n ∈ ({["conv_rate"]} : gset string)) (feature_names resp1)
    ∧ _drop_unneeded_columns resp1 {["driver_id"]}
      = _drop_unneeded_columns Example.assembled ({["conv_rate"]} ∩ {["driver_id"]})
    ∧ _drop_unneeded_columns resp1 {["conv_rate"]} = inr resp1.
Proof.
  apply (drop_unneeded_columns_twice Example.assembled {["conv_rate"]}
           {["driver_id"]}).
  reflexivity.
Defined.

Lemma requested_names_of_references_witness :
  requested_names_of
    ((λ r, reference r.1 r.2) <$> [("driver_stats", "conv_rate")]) true
  = list_to_set ((λ r, r.1 +:+ "__" +:+ r.2) <$> [("driver_stats", "conv_rate")])
  ∧ (Forall (λ r, after_last "__" r.2 = None ∧ startswith r.2 "_" = false)
       [("driver_stats", "conv_rate")] →
     requested_names_of
       ((λ r, reference r.1 r.2) <$> [("driver_stats", "conv_rate")]) false
     = list_to_set [("driver_stats", "conv_rate")].*2)
  ∧ (∀ view_name feat_name,
       (view_name, "_" +:+ feat_name) ∈ [("driver_stats", "conv_rate")] →
       after_last "__" feat_name = None → startswith feat_name "_" = false →
       feat_name ∈ requested_names_of
                     ((λ r, reference r.1 r.2) <$> [("driver_stats", "conv_rate")])
                     false).
Proof.
  apply (requested_names_of_references [("driver_stats", "conv_rate")]).
  repeat constructor.
Defined.

Lemma populate_response_from_feature_data_rows_witness :
  ∃ vectors,
    _populate_response_from_feature_data
      [([Example.FromDatetime 1700000000], [PRESENT], [Example.int64_val 5]);
       ([Timestamp_new], [NOT_FOUND], [Example.Null])]
      [[0; 1]; [2]] {| feature_names := ["driver_id"]; results := [] |}
      true ["conv_rate"] Example.driver_stats
    = inr {| feature_names := ["driver_id"; "driver_stats__conv_rate"];
             results := vectors |}
    ∧ length vectors = 1.
Proof.
  destruct (populate_response_from_feature_data_rows
              [([Example.FromDatetime 1700000000], [PRESENT],
                [Example.int64_val 5]);
               ([Timestamp_new], [NOT_FOUND], [Example.Null])]
              [[0; 1]; [2]] 3
              {| feature_names := ["driver_id"]; results := [] |}
              true ["conv_rate"] Example.driver_stats)
    as (vectors & Hrun & Hlen & _).
  - unfold partitions. simpl. reflexivity.
  - discriminate.
  - reflexivity.
  - repeat constructor.
  - exists vectors. split; [exact Hrun|exact Hlen].
Defined.

Lemma populate_response_from_feature_data_too_few_rows_witness :
  _populate_response_from_feature_data
    [([Example.FromDatetime 1700000000], [PRESENT], [Example.int64_val 5])]
    [[0; 1]; [2]] {| feature_names := ["driver_id"]; results := [] |}
    false ["conv_rate"] Example.driver_stats
  = raise TypeError.
Proof.
  apply (populate_response_from_feature_data_too_few_rows _ _ 3).
  - unfold partitions. simpl. reflexivity.
  - repeat constructor; discriminate.
  - discriminate.
  - discriminate.
  - simpl. lia.
  - repeat constructor.
Defined.

Lemma group_feature_refs_groups_witness :
  ∃ fvs_result odfvs_result,
    _group_feature_refs (λ _ _, inr tt)
      ["conv_rate_pct:conv_rate_pct"] [Example.driver_stats] []
      [Example.conv_rate_pct]
    = inr (fvs_result, odfvs_result, [], ∅)
    ∧ NoDup ((λ group : FeatureView * list string,
                name_to_use (projection group.1)) <$> fvs_result)
    ∧ Forall (λ group : FeatureView * list string, NoDup group.2) fvs_result.
Proof.
  eexists _, _. split; [vm_compute; reflexivity|].
  destruct (group_feature_refs_groups (λ _ _, inr tt)
              ["conv_rate_pct:conv_rate_pct"] [Example.driver_stats] []
              [Example.conv_rate_pct]
              [(Example.driver_stats, ["conv_rate"])]
              [(Example.conv_rate_pct, ["conv_rate_pct"])] [] ∅)
    as (Hnd & Hfeats & _).
  - vm_compute. reflexivity.
  - split; [exact Hnd|exact Hfeats].
Defined.

Lemma augment_response_selects_requested_witness :
  ∃ names new,
    feature_names Example.augmented = feature_names Example.assembled ++ names
    ∧ results Example.augmented = results Example.assembled ++ new
    ∧ length names = length new.
Proof.
  destruct (augment_response_selects_requested Example.assembled
              Example.augmented
              ["driver_stats:conv_rate"; "conv_rate_pct:conv_rate_pct"]
              [Example.conv_rate_pct] false)
    as (names & new & Hn & Hr & Hall).
  - vm_compute. reflexivity.
  - exists names, new. split_and!; [exact Hn|exact Hr|].
    exact (Forall2_length _ _ _ Hall).
Defined.

Lemma get_online_features_columnar_result_witness :
  match get_online_features_columnar
          [[("driver_id", 1001%Z)]; [("customer_id", 5%Z)]] with
  | inl IndexError =>
      [[("driver_id", 1001%Z)]; [("customer_id", 5%Z)]] = []
  | inl (ValueError _) =>
      ∃ first row key,
        head [[("driver_id", 1001%Z)]; [("customer_id", 5%Z)]] = Some first
        ∧ row ∈ [[("driver_id", 1001%Z)]; [("customer_id", 5%Z)]]
        ∧ key ∈ dict_keys row ∧ key ∉ dict_keys first
  | inl _ => False
  | inr columnar =>
      ∃ first,
        head [[("driver_id", 1001%Z)]; [("customer_id", 5%Z)]] = Some first
        ∧ dict_keys columnar = dict_keys first
        ∧ Forall (λ row, Forall (λ key, key ∈ dict_keys first) (dict_keys row))
            [[("driver_id", 1001%Z)]; [("customer_id", 5%Z)]]
        ∧ ∀ key, key ∈ dict_keys first →
            dict_get key columnar
            = Some (omap (dict_get key)
                      [[("driver_id", 1001%Z)]; [("customer_id", 5%Z)]])
  end.
Proof.
  apply (get_online_features_columnar_result
           [[("driver_id", 1001%Z)]; [("customer_id", 5%Z)]]).
  literal_rows.
Defined.

Lemma get_online_features_columnar_round_trip_witness :
  ∃ columnar,
    get_online_features_columnar
      [[("driver_id", 1001%Z)]; [("driver_id", 1002%Z)]] = inr columnar
    ∧ _validate_entity_values columnar = inr 2
    ∧ ∀ i row key,
        [[("driver_id", 1001%Z)]; [("driver_id", 1002%Z)]] !! i = Some row →
        dict_get key row = dict_get key columnar ≫= (.!! i).
Proof.
  apply (get_online_features_columnar_round_trip
           [[("driver_id", 1001%Z)]; [("driver_id", 1002%Z)]]
           [("driver_id", 1001%Z)]).
  - reflexivity.
  - discriminate.
  - literal_rows.
Defined.

Lemma get_columnar_entity_values_rowise_witness :
  ∃ res,
    _get_columnar_entity_values
      (Some [[("driver_id", 1001%Z)]; [("customer_id", 5%Z)]]) None = inr res
    ∧ NoDup (dict_keys res)
    ∧ ∀ key, dict_get key res
             = if decide (Exists (λ row, key ∈ dict_keys row)
                            [[("driver_id", 1001%Z)]; [("customer_id", 5%Z)]])
               then Some (omap (dict_get key)
                            [[("driver_id", 1001%Z)]; [("customer_id", 5%Z)]])
               else None.
Proof.
  apply (get_columnar_entity_values_rowise
           [[("driver_id", 1001%Z)]; [("customer_id", 5%Z)]]).
  literal_rows.
Defined.

Lemma get_columnar_entity_values_agrees_witness :
  _get_columnar_entity_values
    (Some [[("driver_id", 1001%Z)]; [("driver_id", 1002%Z)]]) None
  = inr [("driver_id", [1001%Z; 1002%Z])].
Proof.
  apply (get_columnar_entity_values_agrees
           [[("driver_id", 1001%Z)]; [("driver_id", 1002%Z)]]).
  - literal_rows.
  - reflexivity.
Defined.

Lemma fetch_table_row_data_witness :
  ∃ reads vectors,
    fetch_tables Example.Null Example.FromDatetime Example.tuple_lt
      Example.store [(Example.driver_stats, ["conv_rate"])]
      Example.entity_values [("driver", "driver_id")] false
      {| feature_names := []; results := [] |} []
    = (reads, inr {| feature_names := ["conv_rate"]; results := vectors |})
    ∧ length vectors = 1.
Proof.
  edestruct (fetch_table_row_data Example.Null Example.FromDatetime
               Example.tuple_lt Example.store Example.driver_stats
               ["conv_rate"] Example.entity_values Example.entity_values
               [("driver", "driver_id")] false
               {| feature_names := []; results := [] |} 3)
    as (vectors & Hrun & Hlen & _).
  - repeat constructor.
  - reflexivity.
  - vm_compute. reflexivity.
  - vm_compute. reflexivity.
  - reflexivity.
  - eexists _, vectors. split; [exact Hrun|exact Hlen].
Defined.

